(** * waveshareFontGenerator: the glyph table generator, embedded and verified

    The repository holds two variants of one Go program:
    - [Explicit] (src/unnamed/part_000): cell height and origin offsets are
      command-line flags;
    - [Derived] (src/main.go): cell height and origin are derived from the
      font metrics.

    Both parse the flags, read and parse the font, and for every printable
    ASCII codepoint rasterise the glyph, threshold the coverage, pack each
    pixel row into bytes and print a C table, followed by an [sFONT]
    descriptor.

    The font backend (package sfnt) and the rasteriser (package vector) are
    external collaborators; they are taken as interfaces ([FontBackend],
    [RasterBackend]).  The process is modelled as a writer of I/O events
    that can stop early with an exit status. *)

From Stdlib Require Import ZArith List String Ascii Bool Lia Sorted.
From Stdlib Require Import DecimalString.
Import ListNotations.

Local Open Scope string_scope.
Local Open Scope list_scope.
Local Open Scope Z_scope.

(** String concatenation, as Go's [+] on strings. *)
Infix "+++" := String.append (right associativity, at level 60).

(** ** Go machine integers *)

Module GoInt.

(** Two's complement wrap-around of a signed [bits]-bit integer. *)
Definition wrap (bits : Z) (z : Z) : Z :=
  (z + 2 ^ (bits - 1)) mod 2 ^ bits - 2 ^ (bits - 1).

(** Go [int] on the 64-bit targets the tool is built for. *)
Definition int (z : Z) : Z := wrap 64 z.
Definition int32 (z : Z) : Z := wrap 32 z.
Definition uint8 (z : Z) : Z := z mod 256.

Definition in_int (z : Z) : Prop := - 2 ^ 63 <= z < 2 ^ 63.

End GoInt.

(** ** Package fixed: 26.6 fixed-point numbers *)

Module fixed.

Record Point26_6 := { X : Z; Y : Z }.

(** [func I(i int) Int26_6 { return Int26_6(i << 6) }] *)
Definition I (i : Z) : Z := GoInt.int32 (GoInt.int (i * 64)).

(** [func (x Int26_6) Ceil() int { return int((x + 0x3f) >> 6) }] *)
Definition Ceil (x : Z) : Z := Z.shiftr (GoInt.int32 (x + 63)) 6.

(** [%02d] of a value between 0 and 63. *)
Definition d02 (z : Z) : string :=
  (if z <? 10 then "0" else EmptyString)
    +++ NilZero.string_of_int (Z.to_int z).

(** [func (x Int26_6) String() string]: integer part, colon, 64ths. *)
Definition String (x : Z) : string :=
  if 0 <=? x then
    NilZero.string_of_int (Z.to_int (Z.shiftr x 6)) +++ ":"
      +++ d02 (Z.land x 63)
  else
    let x' := GoInt.int32 (- x) in
    if 0 <=? x' then
      "-" +++ NilZero.string_of_int (Z.to_int (Z.shiftr x' 6)) +++ ":"
        +++ d02 (Z.land x' 63)
    else "-33554432:00".

End fixed.

(** ** Package fmt: the verbs the program uses *)

Module fmt.

(** [%d] of an integer. *)
Definition d (z : Z) : string := NilZero.string_of_int (Z.to_int z).

Definition hex_digit (n : Z) : ascii :=
  match n with
  | 0 => "0" | 1 => "1" | 2 => "2" | 3 => "3" | 4 => "4" | 5 => "5"
  | 6 => "6" | 7 => "7" | 8 => "8" | 9 => "9" | 10 => "A" | 11 => "B"
  | 12 => "C" | 13 => "D" | 14 => "E" | _ => "F"
  end%char.

(** [%.2X] of a byte: two upper-case hexadecimal digits. *)
Definition X02 (o : Z) : string :=
  String (hex_digit (o / 16)) (String (hex_digit (o mod 16)) EmptyString).

(** [%c] of a rune in the ASCII range (the only runes the program prints). *)
Definition c (v : Z) : string :=
  String (ascii_of_N (Z.to_N v)) EmptyString.

End fmt.

(** ** Package image: the alpha image the rasteriser draws into *)

Module image.

Record Point := { X : Z; Y : Z }.
Record Rectangle := { Min : Point; Max : Point }.

(** [func (p Point) String() string] *)
Definition Point_String (p : Point) : string :=
  "(" +++ NilZero.string_of_int (Z.to_int (X p)) +++ ","
    +++ NilZero.string_of_int (Z.to_int (Y p)) +++ ")".

(** [image.Rect]: the canonical rectangle of two corners. *)
Definition Rect (x0 y0 x1 y1 : Z) : Rectangle :=
  let (x0, x1) := if x1 <? x0 then (x1, x0) else (x0, x1) in
  let (y0, y1) := if y1 <? y0 then (y1, y0) else (y0, y1) in
  {| Min := {| X := x0; Y := y0 |}; Max := {| X := x1; Y := y1 |} |}.

Definition Dx (r : Rectangle) : Z := X (Max r) - X (Min r).
Definition Dy (r : Rectangle) : Z := Y (Max r) - Y (Min r).

(** [func (p Point) In(r Rectangle) bool] *)
Definition In (p : Point) (r : Rectangle) : bool :=
  (X (Min r) <=? X p) && (X p <? X (Max r)) &&
  (Y (Min r) <=? Y p) && (Y p <? Y (Max r)).

Record Alpha := { Pix : list Z; Stride : Z; Bounds : Rectangle }.

Definition NewAlpha (r : Rectangle) : Alpha :=
  {| Pix := repeat 0 (Z.to_nat (Dx r * Dy r)); Stride := Dx r; Bounds := r |}.

Definition PixOffset (p : Alpha) (x y : Z) : Z :=
  (y - Y (Min (Bounds p))) * Stride p + (x - X (Min (Bounds p))).

(** [AlphaAt(x, y).A]: the coverage of a pixel, zero outside the bounds. *)
Definition AlphaAt (p : Alpha) (x y : Z) : Z :=
  if In {| X := x; Y := y |} (Bounds p)
  then nth (Z.to_nat (PixOffset p x y)) (Pix p) 0
  else 0.

End image.

(** ** Package bitio: the bit writer over a byte buffer *)

Module bitio.

(** Modelled from the spec: the bit writer of package github.com/icza/bitio
    is a dependency that is not under src/.  Section 4.2 of the spec
    describes it as a bit accumulator that appends bits most significant
    bit first, emits bytes in generation order and pads the final byte
    with zero bits; the model is the writer with a one-byte cache that
    does this.  [out] is the byte buffer written so far, [cache] the
    pending byte and [bits] the number of pending bits in it. *)
Record Writer := { out : list Z; cache : Z; bits : Z }.

Definition NewWriter : Writer := {| out := []; cache := 0; bits := 0 |}.

(** Modelled from the spec: the whole bytes a multi-bit write emits, the
    bits of [r] above the lowest [n], eight at a time in generation
    order. *)
Fixpoint write_whole (fuel : nat) (r n : Z) (o : list Z) : list Z * Z :=
  match fuel with
  | O => (o, n)
  | S fuel' =>
      if 8 <=? n
      then write_whole fuel' r (n - 8) (o ++ [GoInt.uint8 (Z.shiftr r (n - 8))])
      else (o, n)
  end.

(** Modelled from the spec: [WriteBits(r, n)] of the absent bit writer
    appends the lowest [n] bits of [r] to the accumulator, most significant
    bit first, and emits every byte that fills up. *)
Definition WriteBits (w : Writer) (r : Z) (n : Z) : Writer :=
  let newbits := GoInt.uint8 (bits w + n) in
  if newbits <? 8 then
    {| out := out w;
       cache := Z.lor (cache w)
                  (GoInt.uint8 (Z.shiftl (GoInt.uint8 r) (8 - newbits)));
       bits := newbits |}
  else if 8 <? newbits then
    let free := 8 - bits w in
    let o1 := out w ++ [Z.lor (cache w) (GoInt.uint8 (Z.shiftr r (n - free)))] in
    let '(o2, n2) := write_whole (Z.to_nat ((n - free) / 8)) r (n - free) o1 in
    if 0 <? n2 then
      {| out := o2;
         cache := GoInt.uint8
                    (Z.shiftl (Z.land (GoInt.uint8 r) (2 ^ n2 - 1)) (8 - n2));
         bits := n2 |}
    else {| out := o2; cache := 0; bits := 0 |}
  else
    {| out := out w ++ [Z.lor (cache w) (GoInt.uint8 r)];
       cache := 0; bits := 0 |}.

(** Modelled from the spec: [Close] of the absent bit writer flushes the
    pending byte, padded with zero bits; the result is the content of the
    underlying buffer. *)
Definition Close (w : Writer) : list Z :=
  if 0 <? bits w then out w ++ [cache w] else out w.

End bitio.

(** ** The bitmap packer: the row loops of [main] *)

(** A counted loop [for i := lo; i < lo + n; i++] over a pure state. *)
Fixpoint for_range {S : Type} (n : nat) (i : Z) (body : Z -> S -> S) (s : S) : S :=
  match n with
  | O => s
  | S n' => for_range n' (i + 1) body (body i s)
  end.

(** The body of the pixel loop: threshold the coverage at 64, write one bit
    and extend the picture comment. *)
Definition pack_pixel (dst : image.Alpha) (y x : Z)
    (st : bitio.Writer * string) : bitio.Writer * string :=
  let (w, tmp) := st in
  let a := image.AlphaAt dst x y in
  if a <? 64
  then (bitio.WriteBits w 0 1, tmp +++ ".")
  else (bitio.WriteBits w 1 1, tmp +++ "#").

(** [for x := 0; x < width; x++ { ... }; w.Close()]: the packed bytes of row
    [y] and its picture. *)
Definition pack_row (dst : image.Alpha) (width y : Z) : list Z * string :=
  let (w, tmp) :=
    for_range (Z.to_nat width) 0 (pack_pixel dst y) (bitio.NewWriter, EmptyString) in
  (bitio.Close w, tmp).

Definition row_bytes (dst : image.Alpha) (width y : Z) : list Z :=
  fst (pack_row dst width y).

Definition row_picture (dst : image.Alpha) (width y : Z) : string :=
  snd (pack_row dst width y).

(** ** The process: I/O events and early exit *)

(** What the program does to the outside world, in order. *)
Inductive event : Type :=
| Stdout (text : string)      (* fmt.Print*, to standard output *)
| Stderr (text : string)      (* package log, to standard error *)
| ReadFile (path : string).   (* ioutil.ReadFile *)

(** A computation either returns a value or ends the process ([os.Exit],
    [log.Fatal]) with an exit status. *)
Inductive result (A : Type) : Type :=
| Return (a : A)
| Exit (code : Z).
Arguments Return {A} a.
Arguments Exit {A} code.

Definition Proc (A : Type) : Type := list event * result A.

Definition ret {A : Type} (a : A) : Proc A := ([], Return a).

Definition bind {A B : Type} (m : Proc A) (k : A -> Proc B) : Proc B :=
  match m with
  | (t, Return a) => let (t', r) := k a in (t ++ t', r)
  | (t, Exit c) => (t, Exit c)
  end.

Notation "x <- m ;; k" := (bind m (fun x => k))
  (at level 61, m at next level, right associativity).
Notation "m ;; k" := (bind m (fun _ => k))
  (at level 61, right associativity).

(** A Go call that returns [(value, err)]. *)
Inductive goerr (A : Type) : Type :=
| Ok (a : A)
| Err (msg : string).
Arguments Ok {A} a.
Arguments Err {A} msg.

Definition os_Exit {A : Type} (code : Z) : Proc A := ([], Exit code).
Definition fmt_Print (s : string) : Proc unit := ([Stdout s], Return tt).
Definition log_Print (s : string) : Proc unit := ([Stderr s], Return tt).
(** [log.Fatal] is [log.Print] followed by [os.Exit(1)]. *)
Definition log_Fatal {A : Type} (s : string) : Proc A := ([Stderr s], Exit 1).
Definition ioutil_ReadFile (fs : string -> goerr (list Byte.byte))
    (path : string) : Proc (goerr (list Byte.byte)) :=
  ([ReadFile path], Return (fs path)).

(** [for i := lo; ...; i++] with [n] iterations, threading the variables
    the body assigns. *)
Fixpoint loopM {S : Type} (n : nat) (i : Z) (body : Z -> S -> Proc S) (s : S)
    : Proc S :=
  match n with
  | O => ret s
  | S n' => s' <- body i s ;; loopM n' (i + 1) body s'
  end.

(** [for _, x := range l]. *)
Fixpoint rangeM {A S : Type} (l : list A) (body : A -> S -> Proc S) (s : S)
    : Proc S :=
  match l with
  | [] => ret s
  | x :: l' => s' <- body x s ;; rangeM l' body s'
  end.

(** The text the process wrote to standard output. *)
Fixpoint stdout_of (t : list event) : string :=
  match t with
  | [] => EmptyString
  | Stdout s :: t' => s +++ stdout_of t'
  | _ :: t' => stdout_of t'
  end.

(** The files the process read. *)
Fixpoint reads_of (t : list event) : list string :=
  match t with
  | [] => []
  | ReadFile p :: t' => p :: reads_of t'
  | _ :: t' => reads_of t'
  end.

(** The exit status of the process: a [main] that returns exits with 0. *)
Definition exit_status (r : result unit) : Z :=
  match r with
  | Return _ => 0
  | Exit c => c
  end.

(** ** The external collaborators *)

Module sfnt.

(** [sfnt.Segment]: an operator and up to three control points. *)
Record Segment := {
  Op : Z;
  Args0 : fixed.Point26_6;
  Args1 : fixed.Point26_6;
  Args2 : fixed.Point26_6
}.

Definition SegmentOpMoveTo : Z := 0.
Definition SegmentOpLineTo : Z := 1.
Definition SegmentOpQuadTo : Z := 2.
Definition SegmentOpCubeTo : Z := 3.

End sfnt.

Module font.

(** [font.Metrics] *)
Record Metrics := {
  Height : Z;
  Ascent : Z;
  Descent : Z;
  XHeight : Z;
  CapHeight : Z;
  CaretSlope : image.Point
}.

End font.

(** The font backend: parsing, glyph lookup, metrics and outlines. *)
Class FontBackend : Type := {
  sfnt_Font : Type;
  (** [sfnt.Parse(src)] *)
  sfnt_Parse : list Byte.byte -> goerr sfnt_Font;
  (** [f.GlyphIndex(b, r)] *)
  Font_GlyphIndex : sfnt_Font -> Z -> goerr Z;
  (** [f.Metrics(b, ppem, font.HintingFull)] *)
  Font_Metrics : sfnt_Font -> Z -> goerr font.Metrics;
  (** [f.LoadGlyph(b, x, ppem, nil)] *)
  Font_LoadGlyph : sfnt_Font -> Z -> Z -> goerr (list sfnt.Segment)
}.

(** The rasteriser and the [float32] coordinates it takes.  Its operations
    are taken as total: a panic inside the rasteriser (the library slices a
    buffer of [w * h] cells, which a negative product makes fail) is
    outside the model. *)
Class RasterBackend : Type := {
  float32 : Type;
  float32_of_int : Z -> float32;
  f32_add : float32 -> float32 -> float32;
  f32_div : float32 -> float32 -> float32;
  Rasterizer : Type;
  NewRasterizer : Z -> Z -> Rasterizer;
  set_DrawOp_Src : Rasterizer -> Rasterizer;
  MoveTo : Rasterizer -> float32 -> float32 -> Rasterizer;
  LineTo : Rasterizer -> float32 -> float32 -> Rasterizer;
  QuadTo : Rasterizer -> float32 -> float32 -> float32 -> float32 -> Rasterizer;
  CubeTo : Rasterizer -> float32 -> float32 -> float32 -> float32
           -> float32 -> float32 -> Rasterizer;
  (** [r.Draw(dst, dst.Bounds(), image.Opaque, image.Point{})] *)
  Draw : Rasterizer -> image.Alpha -> image.Alpha
}.

(** The outcome of [parser.Parse()]: the positional arguments left over and
    the error, if any. *)
Inductive flags_error : Type :=
| ErrHelp
| ErrOther.

(** ** The text emitter: what both variants print *)

Definition nl : string := String (ascii_of_nat 10) EmptyString.
Definition dquote : string := String (ascii_of_nat 34) EmptyString.

(** The raw string of the first [fmt.Println]. *)
Definition table_header : string :=
  "#include " +++ dquote +++ "fonts.h" +++ dquote +++ nl +++
  "#if defined(__AVR__) || defined(ARDUINO_ARCH_SAMD)" +++ nl +++
  "#include <avr/pgmspace.h>" +++ nl +++
  "#elif defined(ESP8266) || defined(ESP32)" +++ nl +++
  "#include <pgmspace.h>" +++ nl +++
  "#endif" +++ nl +++
  nl +++
  "const uint8_t FontCustom_Table [] PROGMEM =" +++ nl +++
  "{" +++ nl.

(** [fmt.Printf("  // %c %d\n", v, v)] *)
Definition glyph_comment (v : Z) : string :=
  "  // " +++ fmt.c v +++ " " +++ fmt.d v +++ nl.

(** [fmt.Printf("0x%.2X, ", o)] *)
Definition hex_byte (o : Z) : string := "0x" +++ fmt.X02 o +++ ", ".

(** [fmt.Printf("\n\n/* Based on font %s */\n", string(conf.Font))] *)
Definition based_on (path : string) : string :=
  nl +++ nl +++ "/* Based on font " +++ path +++ " */" +++ nl.

(** The last [fmt.Printf]: the [sFONT] descriptor with its two numeric
    fields. *)
Definition sfont_descriptor (w h : Z) : string :=
  "sFONT FontCustom = {" +++ nl +++
  "  FontCustom_Table," +++ nl +++
  "  " +++ fmt.d w +++ ", /* Width */" +++ nl +++
  "  " +++ fmt.d h +++ ", /* Height */" +++ nl +++
  "};" +++ nl.

(** The body of [for y := 0; y < height; y++]: pack row [y] and print it as
    hexadecimal bytes followed by its picture. *)
Definition print_row (dst : image.Alpha) (width : Z) (y : Z) (_ : unit)
    : Proc unit :=
  let (bytes, tmp) := pack_row dst width y in
  fmt_Print "  " ;;
  rangeM bytes (fun o _ => fmt_Print (hex_byte o)) tt ;;
  fmt_Print (" // " +++ tmp) ;;
  fmt_Print nl.

(** [log.Fatalf] with a format that has no verb and two extra operands. *)
Definition no_glyph_message (v : Z) : string :=
  "GlyphIndex: no glyph index found for the rune '%!(EXTRA int32="
    +++ fmt.d v +++ ", string=')".

Section Coordinates.
Context {RB : RasterBackend}.

(** [origin + float32(c)/64]: a 26.6 coordinate in pixels from the origin. *)
Definition coord (origin : float32) (c : Z) : float32 :=
  f32_add origin (f32_div (float32_of_int c) (float32_of_int 64)).

End Coordinates.

(** ** The variant with explicit cell height and offsets (src/unnamed/part_000) *)

Module Explicit.

Record Conf := {
  Width : Z;
  Height : Z;
  PPEM : Z;
  Xoffset : Z;
  Yoffset : Z;
  Font : string;
  Debug : bool
}.

Section Program.
Context {FB : FontBackend} {RB : RasterBackend}.

(** The body of [for _, seg := range segments]. *)
Definition draw_segment (originX originY : float32) (seg : sfnt.Segment)
    (r : Rasterizer) : Proc Rasterizer :=
  let X0 := coord originX (fixed.X (sfnt.Args0 seg)) in
  let Y0 := coord originY (fixed.Y (sfnt.Args0 seg)) in
  let X1 := coord originX (fixed.X (sfnt.Args1 seg)) in
  let Y1 := coord originY (fixed.Y (sfnt.Args1 seg)) in
  let X2 := coord originX (fixed.X (sfnt.Args2 seg)) in
  let Y2 := coord originY (fixed.Y (sfnt.Args2 seg)) in
  if sfnt.Op seg =? sfnt.SegmentOpMoveTo then ret (MoveTo r X0 Y0)
  else if sfnt.Op seg =? sfnt.SegmentOpLineTo then ret (LineTo r X0 Y0)
  else if sfnt.Op seg =? sfnt.SegmentOpQuadTo then ret (QuadTo r X0 Y0 X1 Y1)
  else if sfnt.Op seg =? sfnt.SegmentOpCubeTo
  then ret (CubeTo r X0 Y0 X1 Y1 X2 Y2)
  else log_Fatal ("OP: " +++ fmt.d (sfnt.Op seg)).

(** The body of [for i := 32; i <= 126; i++]. *)
Definition glyph (f : sfnt_Font) (conf : Conf) (width height : Z)
    (i : Z) (_ : unit) : Proc unit :=
  let v := GoInt.int32 i in
  match Font_GlyphIndex f v with
  | Err e => log_Fatal ("GlyphIndex: " +++ e)
  | Ok x =>
      (if x =? 0 then log_Fatal (no_glyph_message v) else ret tt) ;;
      let originX := float32_of_int (Xoffset conf) in
      let originY := float32_of_int (Yoffset conf) in
      match Font_LoadGlyph f x (fixed.I (PPEM conf)) with
      | Err e => log_Fatal ("LoadGlyph: " +++ e)
      | Ok segments =>
          let r := set_DrawOp_Src (NewRasterizer width height) in
          r <- rangeM segments (draw_segment originX originY) r ;;
          let dst := Draw r (image.NewAlpha (image.Rect 0 0 width height)) in
          fmt_Print (glyph_comment v) ;;
          loopM (Z.to_nat height) 0 (print_row dst width) tt
      end
  end.

(** [if conf.Debug { ... }]: the metrics and the draw window, logged. *)
Definition debug_report (f : sfnt_Font) (conf : Conf) : Proc unit :=
  if Debug conf then
    match Font_Metrics f (fixed.I (PPEM conf)) with
    | Err e => log_Fatal ("could not get font metrics: " +++ e)
    | Ok i =>
        log_Print "font metrics:" ;;
        log_Print ("  Height:     " +++ fixed.String (font.Height i)) ;;
        log_Print ("  CapHeight:  " +++ fixed.String (font.CapHeight i)) ;;
        log_Print ("  Ascent:     " +++ fixed.String (font.Ascent i)) ;;
        log_Print ("  CaretSlope: " +++ image.Point_String (font.CaretSlope i)) ;;
        log_Print ("  Descent:    " +++ fixed.String (font.Descent i)) ;;
        log_Print ("  XHeight:    " +++ fixed.String (font.XHeight i)) ;;
        log_Print "draw window:" ;;
        log_Print ("  width:   " +++ fmt.d (Width conf)) ;;
        log_Print ("  height:  " +++ fmt.d (Height conf)) ;;
        log_Print ("  Xoffset: " +++ fmt.d (Xoffset conf)) ;;
        log_Print ("  Yoffset: " +++ fmt.d (Yoffset conf))
    end
  else ret tt.

(** [main], after [parser.Parse()] has filled [conf] and returned
    [(args, err)]; [fs] is the file system [ioutil.ReadFile] reads. *)
Definition main (fs : string -> goerr (list Byte.byte))
    (args : list string) (err : option flags_error) (conf : Conf)
    : Proc unit :=
  match err with
  | Some ErrHelp => os_Exit 0
  | Some ErrOther => os_Exit 1
  | None => ret tt
  end ;;
  (if 0 <? Z.of_nat (List.length args)
   then log_Fatal "do not provide additional parameters"
   else ret tt) ;;
  rd <- ioutil_ReadFile fs (Font conf) ;;
  match rd with
  | Err e => log_Print e
  | Ok fontBytes =>
      match sfnt_Parse fontBytes with
      | Err e => log_Fatal ("Parse: " +++ e)
      | Ok f =>
          debug_report f conf ;;
          fmt_Print (table_header +++ nl) ;;
          let width := GoInt.int (Width conf * 8) in
          let height := Height conf in
          loopM (Z.to_nat (126 - 32 + 1)) 32 (glyph f conf width height) tt ;;
          fmt_Print "};" ;;
          fmt_Print (based_on (Font conf)) ;;
          fmt_Print (sfont_descriptor width height)
      end
  end.

End Program.

End Explicit.

(** ** The variant that derives the cell from the font metrics (src/main.go) *)

Module Derived.

Record Conf := {
  Width : Z;
  ReduceHeight : Z;
  PPEM : Z;
  Font : string
}.

(** The cell height computed in the loop body from [i.Height] and the
    [reducedHeight] flag; Go's [/] on [int] truncates toward zero. *)
Definition cell_height (metricsHeight reduceHeight : Z) : Z :=
  let height := fixed.Ceil metricsHeight in
  if 0 <=? reduceHeight
  then GoInt.int (height - reduceHeight)
  else
    let height := GoInt.int (Z.quot (GoInt.int (height * 3)) 4) in
    GoInt.int (height + 1).

Section Program.
Context {FB : FontBackend} {RB : RasterBackend}.

(** The body of [for _, seg := range segments]; the [switch] has no
    [default] case. *)
Definition draw_segment (originX originY : float32) (seg : sfnt.Segment)
    (r : Rasterizer) : Proc Rasterizer :=
  let X0 := coord originX (fixed.X (sfnt.Args0 seg)) in
  let Y0 := coord originY (fixed.Y (sfnt.Args0 seg)) in
  let X1 := coord originX (fixed.X (sfnt.Args1 seg)) in
  let Y1 := coord originY (fixed.Y (sfnt.Args1 seg)) in
  let X2 := coord originX (fixed.X (sfnt.Args2 seg)) in
  let Y2 := coord originY (fixed.Y (sfnt.Args2 seg)) in
  if sfnt.Op seg =? sfnt.SegmentOpMoveTo then ret (MoveTo r X0 Y0)
  else if sfnt.Op seg =? sfnt.SegmentOpLineTo then ret (LineTo r X0 Y0)
  else if sfnt.Op seg =? sfnt.SegmentOpQuadTo then ret (QuadTo r X0 Y0 X1 Y1)
  else if sfnt.Op seg =? sfnt.SegmentOpCubeTo
  then ret (CubeTo r X0 Y0 X1 Y1 X2 Y2)
  else ret r.

(** The body of [for i := 32; i <= 126; i++]; the state is the pair
    [(widthP, heightP)] it assigns. *)
Definition glyph (f : sfnt_Font) (conf : Conf) (i : Z) (_ : Z * Z)
    : Proc (Z * Z) :=
  let v := GoInt.int32 i in
  match Font_GlyphIndex f v with
  | Err e => log_Fatal ("GlyphIndex: " +++ e)
  | Ok x =>
      (if x =? 0 then log_Fatal (no_glyph_message v) else ret tt) ;;
      match Font_Metrics f (fixed.I (PPEM conf)) with
      | Err e => log_Fatal ("could not get font metrics: " +++ e)
      | Ok m =>
          let width := GoInt.int (Width conf * 8) in
          let height := cell_height (font.Height m) (ReduceHeight conf) in
          let originX := float32_of_int 0 in
          let originY :=
            f32_add
              (float32_of_int (GoInt.int (fixed.Ceil (font.CapHeight m) * -1)))
              (float32_of_int 1) in
          match Font_LoadGlyph f x (fixed.I (PPEM conf)) with
          | Err e => log_Fatal ("LoadGlyph: " +++ e)
          | Ok segments =>
              let r := set_DrawOp_Src (NewRasterizer width height) in
              r <- rangeM segments (draw_segment originX originY) r ;;
              let dst :=
                Draw r (image.NewAlpha (image.Rect 0 0 width height)) in
              fmt_Print (glyph_comment v) ;;
              loopM (Z.to_nat height) 0 (print_row dst width) tt ;;
              ret (width, height)
          end
      end
  end.

(** [main], after [parser.Parse()] has filled [conf] and returned
    [(args, err)]. *)
Definition main (fs : string -> goerr (list Byte.byte))
    (args : list string) (err : option flags_error) (conf : Conf)
    : Proc unit :=
  match err with
  | Some ErrHelp => os_Exit 0
  | Some ErrOther => os_Exit 1
  | None => ret tt
  end ;;
  (if 0 <? Z.of_nat (List.length args)
   then log_Fatal "do not provide additional parameters"
   else ret tt) ;;
  rd <- ioutil_ReadFile fs (Font conf) ;;
  match rd with
  | Err e => log_Print e
  | Ok fontBytes =>
      match sfnt_Parse fontBytes with
      | Err e => log_Fatal ("Parse: " +++ e)
      | Ok f =>
          fmt_Print (table_header +++ nl) ;;
          P <- loopM (Z.to_nat (126 - 32 + 1)) 32 (glyph f conf) (0, 0) ;;
          let (widthP, heightP) := P : Z * Z in
          fmt_Print "};" ;;
          fmt_Print (based_on (Font conf)) ;;
          fmt_Print (sfont_descriptor widthP heightP)
      end
  end.

End Program.

End Derived.

(** ** A small concrete backend, to run the program on

    Its font file holds the line height in pixels, then the operator of
    the second outline command of glyph index 95 (the tilde), then the
    codepoints that have no glyph.  Its rasteriser marks the end point of
    every command with full coverage. *)

Module Toy.

Record ToyFont := { line_height : Z; tilde_op : Z; unmapped : list Z }.

Definition byteZ (b : Byte.byte) : Z := Z.of_N (Byte.to_N b).

Definition parse (src : list Byte.byte) : goerr ToyFont :=
  match src with
  | h :: o :: rest =>
      Ok {| line_height := byteZ h; tilde_op := byteZ o;
            unmapped := map byteZ rest |}
  | _ => Err "sfnt: invalid font"
  end.

Definition glyph_index (f : ToyFont) (r : Z) : goerr Z :=
  if existsb (Z.eqb r) (unmapped f) then Ok 0 else Ok (r - 31).

Definition metrics (f : ToyFont) (ppem : Z) : goerr font.Metrics :=
  Ok {| font.Height := line_height f * 64;
        font.Ascent := line_height f * 48;
        font.Descent := line_height f * 16;
        font.XHeight := line_height f * 24;
        font.CapHeight := line_height f * 32;
        font.CaretSlope := {| image.X := 0; image.Y := 1 |} |}.

Definition pt (x y : Z) : fixed.Point26_6 := {| fixed.X := x; fixed.Y := y |}.

Definition load_glyph (f : ToyFont) (x ppem : Z) : goerr (list sfnt.Segment) :=
  Ok [ {| sfnt.Op := sfnt.SegmentOpMoveTo;
          sfnt.Args0 := pt 64 64; sfnt.Args1 := pt 0 0; sfnt.Args2 := pt 0 0 |};
       {| sfnt.Op := if x =? 95 then tilde_op f else sfnt.SegmentOpLineTo;
          sfnt.Args0 := pt (64 * (x mod 8)) 128;
          sfnt.Args1 := pt 0 0; sfnt.Args2 := pt 0 0 |} ].

#[export] Instance font_backend : FontBackend := {|
  sfnt_Font := ToyFont;
  sfnt_Parse := parse;
  Font_GlyphIndex := glyph_index;
  Font_Metrics := metrics;
  Font_LoadGlyph := load_glyph
|}.

(** The rasteriser: its size and the points it was sent to. *)
Record ToyRaster := { size : Z * Z; marks : list (Z * Z) }.

Definition mark (r : ToyRaster) (x y : Z) : ToyRaster :=
  {| size := size r; marks := (x, y) :: marks r |}.

Definition marked (r : ToyRaster) (x y : Z) : bool :=
  existsb (fun p => (fst p =? x) && (snd p =? y)) (marks r).

Definition draw (r : ToyRaster) (dst : image.Alpha) : image.Alpha :=
  let w := image.Stride dst in
  {| image.Pix :=
       map (fun k => let i := Z.of_nat k in
                     if marked r (i mod w) (i / w) then 255 else 0)
           (seq 0 (List.length (image.Pix dst)));
     image.Stride := image.Stride dst;
     image.Bounds := image.Bounds dst |}.

#[export] Instance raster_backend : RasterBackend := {|
  float32 := Z;
  float32_of_int := fun z => z;
  f32_add := Z.add;
  f32_div := Z.div;
  Rasterizer := ToyRaster;
  NewRasterizer := fun w h => {| size := (w, h); marks := [] |};
  set_DrawOp_Src := fun r => r;
  MoveTo := mark;
  LineTo := mark;
  QuadTo := fun r _ _ x y => mark r x y;
  CubeTo := fun r _ _ _ _ x y => mark r x y;
  Draw := draw
|}.

(** A file system with one font file, [font.ttf]. *)
Definition fs (content : list Byte.byte) (path : string)
    : goerr (list Byte.byte) :=
  if String.eqb path "font.ttf" then Ok content
  else Err ("open " +++ path +++ ": no such file or directory").

(** A font with line height 8 and every printable codepoint mapped. *)
Definition full_font : list Byte.byte := [Byte.x08; Byte.x01].

(** The same font without a glyph for codepoint 100. *)
Definition font_without_d : list Byte.byte := [Byte.x08; Byte.x01; Byte.x64].


Definition explicit_conf : Explicit.Conf :=
  {| Explicit.Width := 2; Explicit.Height := 3; Explicit.PPEM := 20;
     Explicit.Xoffset := 0; Explicit.Yoffset := 0;
     Explicit.Font := "font.ttf"; Explicit.Debug := false |}.

Definition derived_conf : Derived.Conf :=
  {| Derived.Width := 2; Derived.ReduceHeight := 5; Derived.PPEM := 24;
     Derived.Font := "font.ttf" |}.

(** The same configurations, naming a font file that does not exist. *)
Definition explicit_conf_missing : Explicit.Conf :=
  {| Explicit.Width := 2; Explicit.Height := 3; Explicit.PPEM := 20;
     Explicit.Xoffset := 0; Explicit.Yoffset := 0;
     Explicit.Font := "missing.ttf"; Explicit.Debug := false |}.

Definition derived_conf_missing : Derived.Conf :=
  {| Derived.Width := 2; Derived.ReduceHeight := 5; Derived.PPEM := 24;
     Derived.Font := "missing.ttf" |}.

(** A one-row image with coverage on both sides of the threshold. *)
Definition boundary_row : image.Alpha :=
  {| image.Pix := [63; 64; 0; 255; 65; 62; 128; 1;
                   64; 63; 64; 63; 0; 0; 255; 255];
     image.Stride := 16;
     image.Bounds := image.Rect 0 0 16 1 |}.

(** A one-row image of 20 pixels, the eight leftmost covered. *)
Definition left_byte_row : image.Alpha :=
  {| image.Pix := [64; 255; 100; 64; 200; 99; 64; 128;
                   0; 0; 0; 0; 0; 0; 0; 0; 0; 0; 0; 0];
     image.Stride := 20;
     image.Bounds := image.Rect 0 0 20 1 |}.


End Toy.

(** ** Vocabulary of the specification *)

(** Bit [j] of byte [i] of a row of [n] pixels whose thresholded values are
    [f 0 .. f (n - 1)]: pixel [8 i + 7 - j], and zero in the padding. *)
Definition row_bit (f : Z -> bool) (n : Z) (i : nat) (j : Z) : bool :=
  (0 <=? j) && (j <? 8) && (8 * Z.of_nat i + 7 - j <? n)
    && f (8 * Z.of_nat i + 7 - j).

Definition packed (f : Z -> bool) (n : Z) (bytes : list Z) : Prop :=
  forall i j, Z.testbit (nth i bytes 0) j = row_bit f n i j.

(** What the writer holds after [n] one-bit writes. *)
Record writer_inv (f : Z -> bool) (n : Z) (w : bitio.Writer) : Prop := {
  inv_bits : bitio.bits w = n mod 8;
  inv_len : Z.of_nat (List.length (bitio.out w)) = n / 8;
  inv_packed : packed f n (bitio.out w ++ [bitio.cache w])
}.

Definition bit_mask (b : bool) (k : Z) : Z := if b then 2 ^ k else 0.

(** The thresholded value of pixel [x] of row [y]. *)
Definition pixel_bit (dst : image.Alpha) (y x : Z) : bool :=
  64 <=? image.AlphaAt dst x y.

(** The integers [i, i + 1, ..., i + n - 1]. *)
Fixpoint range (i : Z) (n : nat) : list Z :=
  match n with
  | O => []
  | S n' => i :: range (i + 1) n'
  end.

(** The printable ASCII codepoints, 32 to 126. *)
Definition codepoints : list Z := range 32 95.

Definition cat (l : list string) : string :=
  fold_right String.append EmptyString l.

(** One line of the table: the packed bytes of a row and its picture. *)
Definition row_line (r : list Z * string) : string :=
  "  " +++ cat (map hex_byte (fst r)) +++ " // " +++ snd r +++ nl.

(** The rows of a glyph cell drawn in [dst]. *)
Definition block_rows (dst : image.Alpha) (width height : Z)
    : list (list Z * string) :=
  map (pack_row dst width) (range 0 (Z.to_nat height)).

(** A glyph block: the comment line with the character and its codepoint,
    then one line per row of the cell. *)
Definition glyph_block (width height : Z) (b : Z * image.Alpha) : string :=
  glyph_comment (fst b) +++ cat (map row_line (block_rows (snd b) width height)).

(** [s] ends with [suffix]. *)
Fixpoint ends_with (s suffix : string) : bool :=
  String.eqb s suffix
  || match s with
     | EmptyString => false
     | String _ s' => ends_with s' suffix
     end.

(** A process that, if it exits, exits with status 1. *)
Definition exits_1 {A : Type} (p : Proc A) : Prop :=
  match snd p with
  | Return _ => True
  | Exit c => c = 1
  end.

(** A process that writes nothing to standard output. *)
Definition silent {A : Type} (p : Proc A) : Prop :=
  stdout_of (fst p) = EmptyString.

(** The four kinds of outline command the rasteriser is fed. *)
Definition supported (op : Z) : bool :=
  (op =? sfnt.SegmentOpMoveTo) || (op =? sfnt.SegmentOpLineTo)
  || (op =? sfnt.SegmentOpQuadTo) || (op =? sfnt.SegmentOpCubeTo).

(** ** Vocabulary for the further properties *)

(** The picture of [n] pixels from [i] on: [#] for a set bit, [.] for a
    clear one. *)
Fixpoint picture (f : Z -> bool) (i : Z) (n : nat) : string :=
  match n with
  | O => EmptyString
  | S n' => String (if f i then "#"%char else "."%char) (picture f (i + 1) n')
  end.

(** The value of an upper-case hexadecimal digit. *)
Definition hex_value (c : ascii) : option Z :=
  let n := Z.of_N (N_of_ascii c) in
  if (48 <=? n) && (n <=? 57) then Some (n - 48)
  else if (65 <=? n) && (n <=? 70) then Some (n - 55)
  else None.

(** Reading back one table entry, [0xHH, ]. *)
Definition hex_decode (s : string) : option Z :=
  match s with
  | String "0" (String "x" (String h (String l (String "," (String " " EmptyString))))) =>
      match hex_value h, hex_value l with
      | Some a, Some b => Some (16 * a + b)
      | _, _ => None
      end
  | _ => None
  end.

(** The configuration with the debug flag set to [b]. *)
Definition with_Debug (b : bool) (conf : Explicit.Conf) : Explicit.Conf :=
  {| Explicit.Width := Explicit.Width conf;
     Explicit.Height := Explicit.Height conf;
     Explicit.PPEM := Explicit.PPEM conf;
     Explicit.Xoffset := Explicit.Xoffset conf;
     Explicit.Yoffset := Explicit.Yoffset conf;
     Explicit.Font := Explicit.Font conf;
     Explicit.Debug := b |}.

(** The events written to standard error. *)
Fixpoint stderr_of (t : list event) : list string :=
  match t with
  | [] => []
  | Stderr s :: t' => s :: stderr_of t'
  | _ :: t' => stderr_of t'
  end.

(** The text after the table: its closing brace, the font comment and the
    descriptor. *)
Definition table_footer (path : string) (w h : Z) : string :=
  "};" +++ based_on path +++ sfont_descriptor w h.

(** The events of one printed row: the indentation, one entry per byte,
    the picture comment and the newline. *)
Definition row_events (r : list Z * string) : list event :=
  Stdout "  "
    :: map (fun o => Stdout (hex_byte o)) (fst r)
    ++ [Stdout (" // " +++ snd r); Stdout nl].

(** The events of one glyph block. *)
Definition block_events (width height : Z) (b : Z * image.Alpha) : list event :=
  Stdout (glyph_comment (fst b))
    :: flat_map row_events (block_rows (snd b) width height).

(** The twelve lines the debug report logs. *)
Definition debug_events (i : font.Metrics) (conf : Explicit.Conf) : list event :=
  [ Stderr "font metrics:";
    Stderr ("  Height:     " +++ fixed.String (font.Height i));
    Stderr ("  CapHeight:  " +++ fixed.String (font.CapHeight i));
    Stderr ("  Ascent:     " +++ fixed.String (font.Ascent i));
    Stderr ("  CaretSlope: " +++ image.Point_String (font.CaretSlope i));
    Stderr ("  Descent:    " +++ fixed.String (font.Descent i));
    Stderr ("  XHeight:    " +++ fixed.String (font.XHeight i));
    Stderr "draw window:";
    Stderr ("  width:   " +++ fmt.d (Explicit.Width conf));
    Stderr ("  height:  " +++ fmt.d (Explicit.Height conf));
    Stderr ("  Xoffset: " +++ fmt.d (Explicit.Xoffset conf));
    Stderr ("  Yoffset: " +++ fmt.d (Explicit.Yoffset conf)) ].

(** The three events that close a table. *)
Definition footer_events (path : string) (w h : Z) : list event :=
  [Stdout "};"; Stdout (based_on path); Stdout (sfont_descriptor w h)].

(** Two processes that write the same text and end the same way. *)
Definition same_out {A : Type} (p q : Proc A) : Prop :=
  stdout_of (fst p) = stdout_of (fst q) /\ snd p = snd q.

(** A one-row image of 20 pixels, the leftmost one covered and the others
    below the threshold. *)
Definition leftmost_pixel_row : image.Alpha :=
  {| image.Pix := [200; 63; 0; 10; 0; 0; 0; 0;
                   0; 0; 0; 0; 0; 0; 0; 0; 0; 0; 0; 63];
     image.Stride := 20;
     image.Bounds := image.Rect 0 0 20 1 |}.

(** The row of [Toy.boundary_row] with every pixel saturated to 0 or 255. *)
Definition saturated_row : image.Alpha :=
  {| image.Pix := [0; 255; 0; 255; 255; 0; 255; 0;
                   255; 0; 255; 0; 0; 0; 255; 255];
     image.Stride := 16;
     image.Bounds := image.Rect 0 0 16 1 |}.

Section AfterParse.
Context {FB : FontBackend} {RB : RasterBackend}.

(** What follows the successful parse of the font in the explicit variant:
    the debug report, the header, the glyph loop and the footer. *)
Definition Explicit_after_parse (f : sfnt_Font) (conf : Explicit.Conf)
    : Proc unit :=
  Explicit.debug_report f conf ;;
  fmt_Print (table_header +++ nl) ;;
  loopM (Z.to_nat (126 - 32 + 1)) 32
    (Explicit.glyph f conf (GoInt.int (Explicit.Width conf * 8))
       (Explicit.Height conf)) tt ;;
  fmt_Print "};" ;;
  fmt_Print (based_on (Explicit.Font conf)) ;;
  fmt_Print (sfont_descriptor (GoInt.int (Explicit.Width conf * 8))
               (Explicit.Height conf)).

(** The same for the metrics variant: the header, the glyph loop and the
    footer, with the width and height the loop left. *)
Definition Derived_after_parse (f : sfnt_Font) (conf : Derived.Conf)
    : Proc unit :=
  fmt_Print (table_header +++ nl) ;;
  P <- loopM (Z.to_nat (126 - 32 + 1)) 32 (Derived.glyph f conf) (0, 0) ;;
  let (widthP, heightP) := P : Z * Z in
  fmt_Print "};" ;;
  fmt_Print (based_on (Derived.Font conf)) ;;
  fmt_Print (sfont_descriptor widthP heightP).

(** [main] up to the parse of the font, with [rest] for what follows. *)
Definition main_skeleton (fs : string -> goerr (list Byte.byte))
    (args : list string) (err : option flags_error) (path : string)
    (rest : sfnt_Font -> Proc unit) : Proc unit :=
  match err with
  | Some ErrHelp => ([], Exit 0)
  | Some ErrOther => ([], Exit 1)
  | None =>
      if 0 <? Z.of_nat (List.length args)
      then ([Stderr "do not provide additional parameters"], Exit 1)
      else
        match fs path with
        | Err e => ([ReadFile path; Stderr e], Return tt)
        | Ok fontBytes =>
            match sfnt_Parse fontBytes with
            | Err e => ([ReadFile path; Stderr ("Parse: " +++ e)], Exit 1)
            | Ok f => (ReadFile path :: fst (rest f), snd (rest f))
            end
        end
  end.

End AfterParse.

(** The font the toy backend parses from [Toy.full_font], and its
    metrics. *)
Definition toy_font_8 : Toy.ToyFont :=
  {| Toy.line_height := 8; Toy.tilde_op := 1; Toy.unmapped := [] |}.

Definition toy_metrics_8 : font.Metrics :=
  {| font.Height := 512; font.Ascent := 384; font.Descent := 128;
     font.XHeight := 192; font.CapHeight := 256;
     font.CaretSlope := {| image.X := 0; image.Y := 1 |} |}.

(** The toy backend with a font that has no metrics. *)
Definition no_metrics_backend : FontBackend :=
  {| sfnt_Font := Toy.ToyFont;
     sfnt_Parse := Toy.parse;
     Font_GlyphIndex := Toy.glyph_index;
     Font_Metrics := fun _ _ => Err "sfnt: missing hhea table";
     Font_LoadGlyph := Toy.load_glyph |}.

(** The toy backend with a font whose lookup fails for codepoint 100 and
    whose outline cannot be loaded for glyph index 39 (codepoint 70). *)
Definition faulty_backend : FontBackend :=
  {| sfnt_Font := Toy.ToyFont;
     sfnt_Parse := Toy.parse;
     Font_GlyphIndex :=
       fun f r => if r =? 100 then Err "sfnt: invalid cmap table"
                  else Toy.glyph_index f r;
     Font_Metrics := Toy.metrics;
     Font_LoadGlyph :=
       fun f x ppem => if x =? 39 then Err "sfnt: invalid glyf table"
                       else Toy.load_glyph f x ppem |}.

(** The first outline command of an unsupported kind, if any. *)
Definition first_unsupported (segs : list sfnt.Segment) : option sfnt.Segment :=
  find (fun s => negb (supported (sfnt.Op s))) segs.

(** * Verification *)

Ltac Zify.zify_post_hook ::= Z.to_euclidean_division_equations.

(** ** The bit writer packs most significant bit first *)


Lemma bit_mask_spec (b : bool) (k j : Z) :
  0 <= k -> Z.testbit (bit_mask b k) j = b && (k =? j).
Proof.
  intros Hk. destruct b; simpl.
  - apply Z.pow2_bits_eqb; assumption.
  - apply Z.bits_0.
Qed.

Lemma WriteBits_one (w : bitio.Writer) (b : bool) :
  0 <= bitio.bits w < 8 ->
  bitio.WriteBits w (Z.b2z b) 1 =
    if bitio.bits w <? 7
    then {| bitio.out := bitio.out w;
            bitio.cache := Z.lor (bitio.cache w) (bit_mask b (7 - bitio.bits w));
            bitio.bits := bitio.bits w + 1 |}
    else {| bitio.out :=
              bitio.out w ++ [Z.lor (bitio.cache w) (bit_mask b (7 - bitio.bits w))];
            bitio.cache := 0;
            bitio.bits := 0 |}.
Proof.
  destruct w as [o c n]; simpl; intros Hn.
  assert (Hcases : n = 0 \/ n = 1 \/ n = 2 \/ n = 3 \/ n = 4 \/ n = 5
                   \/ n = 6 \/ n = 7) by lia.
  destruct Hcases as [-> | [-> | [-> | [-> | [-> | [-> | [-> | ->]]]]]]];
    destruct b; reflexivity.
Qed.

(** Case analysis on the comparisons of [row_bit]. *)
Ltac row_bit_cases :=
  unfold row_bit;
  repeat match goal with
         | |- context [?a <=? ?b] => destruct (Z.leb_spec a b)
         | |- context [?a <? ?b] => destruct (Z.ltb_spec a b)
         | |- context [?a =? ?b] => destruct (Z.eqb_spec a b)
         end;
  cbn [andb orb]; rewrite ?andb_true_r, ?andb_false_r, ?orb_false_r, ?orb_true_r;
  try reflexivity; try lia.

Lemma NewWriter_inv (f : Z -> bool) : writer_inv f 0 bitio.NewWriter.
Proof.
  split; try reflexivity.
  intros i j.
  change (bitio.out bitio.NewWriter ++ [bitio.cache bitio.NewWriter]) with [0].
  assert (Hnth : nth i [0] 0 = 0) by (destruct i as [| [| i]]; reflexivity).
  rewrite Hnth, Z.bits_0. row_bit_cases.
Qed.

Lemma WriteBits_inv (f : Z -> bool) (n : Z) (w : bitio.Writer) :
  0 <= n -> writer_inv f n w ->
  writer_inv f (n + 1) (bitio.WriteBits w (Z.b2z (f n)) 1).
Proof.
  intros Hn [Hbits Hlen Hpk].
  assert (Hrange : 0 <= bitio.bits w < 8) by lia.
  rewrite WriteBits_one by assumption.
  destruct (Z.ltb_spec (bitio.bits w) 7) as [Hlt | Hge].
  - split; cbn [bitio.out bitio.cache bitio.bits]; try lia.
    intros i j.
    destruct (Nat.lt_trichotomy i (List.length (bitio.out w))) as [Hi | [Hi | Hi]].
    + rewrite app_nth1 by assumption.
      specialize (Hpk i j). rewrite app_nth1 in Hpk by assumption.
      rewrite Hpk. row_bit_cases.
    + subst i. rewrite nth_middle, Z.lor_spec, bit_mask_spec by lia.
      specialize (Hpk (List.length (bitio.out w)) j).
      rewrite nth_middle in Hpk. rewrite Hpk.
      destruct (f n) eqn:Hf; row_bit_cases;
        replace (8 * Z.of_nat (List.length (bitio.out w)) + 7 - j) with n by lia;
        rewrite Hf; reflexivity.
    + rewrite nth_overflow by (rewrite length_app; simpl; lia).
      rewrite Z.bits_0. row_bit_cases.
  - split; cbn [bitio.out bitio.cache bitio.bits]; try lia.
    { rewrite length_app; simpl. lia. }
    intros i j.
    destruct (Nat.lt_trichotomy i (List.length (bitio.out w))) as [Hi | [Hi | Hi]].
    + rewrite app_nth1 by (rewrite length_app; simpl; lia).
      rewrite app_nth1 by assumption.
      specialize (Hpk i j). rewrite app_nth1 in Hpk by assumption.
      rewrite Hpk. row_bit_cases.
    + subst i. rewrite app_nth1 by (rewrite length_app; simpl; lia).
      rewrite nth_middle, Z.lor_spec, bit_mask_spec by lia.
      specialize (Hpk (List.length (bitio.out w)) j).
      rewrite nth_middle in Hpk. rewrite Hpk.
      destruct (f n) eqn:Hf; row_bit_cases;
        replace (8 * Z.of_nat (List.length (bitio.out w)) + 7 - j) with n by lia;
        rewrite Hf; reflexivity.
    + assert (Hz : nth i ((bitio.out w ++ [Z.lor (bitio.cache w)
                                (bit_mask (f n) (7 - bitio.bits w))]) ++ [0]) 0 = 0).
      { destruct (Nat.eq_dec i (S (List.length (bitio.out w)))) as [-> | Hne].
        - replace (S (List.length (bitio.out w)))
            with (List.length (bitio.out w ++ [Z.lor (bitio.cache w)
                                (bit_mask (f n) (7 - bitio.bits w))]))
            by (rewrite length_app; simpl; lia).
          apply nth_middle.
        - apply nth_overflow. rewrite !length_app; simpl. lia. }
      rewrite Hz, Z.bits_0. row_bit_cases.
Qed.

(** ** The row loop thresholds at 64 and packs every pixel *)


Lemma pack_pixel_eq (dst : image.Alpha) (y x : Z) (w : bitio.Writer) (tmp : string) :
  pack_pixel dst y x (w, tmp) =
    (bitio.WriteBits w (Z.b2z (pixel_bit dst y x)) 1,
     tmp +++ (if pixel_bit dst y x then "#" else ".")).
Proof.
  unfold pack_pixel, pixel_bit.
  rewrite (Z.leb_antisym (image.AlphaAt dst x y) 64).
  destruct (image.AlphaAt dst x y <? 64); reflexivity.
Qed.

Lemma pixel_loop_inv (dst : image.Alpha) (y : Z) (k : nat) :
  forall (x : Z) (w : bitio.Writer) (tmp : string),
    0 <= x ->
    writer_inv (pixel_bit dst y) x w ->
    writer_inv (pixel_bit dst y) (x + Z.of_nat k)
      (fst (for_range k x (pack_pixel dst y) (w, tmp))).
Proof.
  induction k as [| k IH]; intros x w tmp Hx Hinv.
  - simpl. replace (x + 0) with x by lia. assumption.
  - cbn [for_range]. rewrite pack_pixel_eq.
    replace (x + Z.of_nat (S k)) with ((x + 1) + Z.of_nat k) by lia.
    apply IH; [lia |]. apply WriteBits_inv; assumption.
Qed.

Lemma Close_packed (f : Z -> bool) (n : Z) (w : bitio.Writer) :
  0 <= n -> writer_inv f n w ->
  packed f n (bitio.Close w)
  /\ Z.of_nat (List.length (bitio.Close w)) = (n + 7) / 8.
Proof.
  intros Hn [Hbits Hlen Hpk]. unfold bitio.Close.
  destruct (Z.ltb_spec 0 (bitio.bits w)) as [Hpos | Hzero].
  - split; [assumption |]. rewrite length_app; simpl. lia.
  - split; [| lia].
    intros i j.
    destruct (Nat.lt_ge_cases i (List.length (bitio.out w))) as [Hi | Hi].
    + specialize (Hpk i j). rewrite app_nth1 in Hpk by assumption. assumption.
    + rewrite nth_overflow by assumption. rewrite Z.bits_0. row_bit_cases.
Qed.

(** The packed bytes of a row: [ceil(width / 8)] bytes, whose bits are the
    thresholded pixels, most significant bit first, zero padded. *)
Lemma row_bytes_packed (dst : image.Alpha) (width y : Z) :
  0 <= width ->
  packed (pixel_bit dst y) width (row_bytes dst width y)
  /\ Z.of_nat (List.length (row_bytes dst width y)) = (width + 7) / 8.
Proof.
  intros Hw. unfold row_bytes, pack_row.
  pose proof (pixel_loop_inv dst y (Z.to_nat width) 0 bitio.NewWriter EmptyString
                (Z.le_refl 0) (NewWriter_inv _)) as Hinv.
  destruct (for_range (Z.to_nat width) 0 (pack_pixel dst y)
              (bitio.NewWriter, EmptyString)) as [w tmp].
  cbn [fst] in *. rewrite Z2Nat.id, Z.add_0_l in Hinv by assumption.
  apply Close_packed; assumption.
Qed.

(** A list of bytes is determined by its length and its bits. *)
Lemma bytes_ext (l1 l2 : list Z) :
  List.length l1 = List.length l2 ->
  (forall i j, Z.testbit (nth i l1 0) j = Z.testbit (nth i l2 0) j) ->
  l1 = l2.
Proof.
  intros Hlen Hbitseq.
  apply (nth_ext l1 l2 0 0 Hlen).
  intros i _. apply Z.bits_inj. intros j. apply Hbitseq.
Qed.

(** C4: every pixel of a row is packed as bit 1 exactly when its coverage is
    at least 64; in particular coverage 63 packs to 0 and coverage 64 to 1.
    Pixel [x] is bit [7 - x mod 8] of byte [x / 8] of the packed row. *)
Theorem C4_threshold_at_64 (dst : image.Alpha) (width y x : Z) :
  0 <= x < width ->
  let a := image.AlphaAt dst x y in
  let packed_bit :=
    Z.testbit (nth (Z.to_nat (x / 8)) (row_bytes dst width y) 0) (7 - x mod 8) in
  (packed_bit = true <-> 64 <= a)
  /\ (a = 63 -> packed_bit = false)
  /\ (a = 64 -> packed_bit = true).
Proof.
  intros Hx a packed_bit.
  assert (Hbit : packed_bit = (64 <=? a)).
  { subst packed_bit a.
    destruct (row_bytes_packed dst width y) as [Hpk _]; [lia |].
    rewrite Hpk. unfold row_bit.
    rewrite Z2Nat.id by lia.
    replace (8 * (x / 8) + 7 - (7 - x mod 8)) with x by lia.
    fold (pixel_bit dst y x). unfold pixel_bit at 2.
    destruct (Z.leb_spec 0 (7 - x mod 8)); [| lia].
    destruct (Z.ltb_spec (7 - x mod 8) 8); [| lia].
    destruct (Z.ltb_spec x width); [| lia].
    reflexivity. }
  rewrite Hbit. repeat split.
  - apply Z.leb_le.
  - apply Z.leb_le.
  - intros ->. reflexivity.
  - intros ->. reflexivity.
Qed.

(** C6: the bits of a row are packed most significant bit first and the
    bytes left to right: there are ceil(width / 8) bytes, pixel [x] is bit
    [7 - x mod 8] of byte [x / 8], and every other bit is zero.  So a row
    whose eight leftmost pixels have coverage at least 64 and whose other
    pixels have coverage 0 packs to the byte 0xFF followed by zero bytes
    only, and a row whose leftmost pixel alone reaches 64 packs to 0x80
    followed by zero bytes only. *)
Theorem C6_msb_first_row (dst : image.Alpha) (width y : Z) :
  0 <= width ->
  let bytes := row_bytes dst width y in
  Z.of_nat (List.length bytes) = (width + 7) / 8
  /\ (forall x, 0 <= x < width ->
        Z.testbit (nth (Z.to_nat (x / 8)) bytes 0) (7 - x mod 8)
        = (64 <=? image.AlphaAt dst x y))
  /\ (forall (i : nat) (j : Z),
        j < 0 \/ 8 <= j \/ width <= 8 * Z.of_nat i + 7 - j ->
        Z.testbit (nth i bytes 0) j = false)
  /\ (8 <= width ->
      (forall x, 0 <= x < 8 -> 64 <= image.AlphaAt dst x y) ->
      (forall x, 8 <= x < width -> image.AlphaAt dst x y = 0) ->
      bytes = 255 :: repeat 0 (Z.to_nat ((width + 7) / 8 - 1)))
  /\ (1 <= width ->
      64 <= image.AlphaAt dst 0 y ->
      (forall x, 1 <= x < width -> image.AlphaAt dst x y < 64) ->
      bytes = 128 :: repeat 0 (Z.to_nat ((width + 7) / 8 - 1))).
Proof.
  intros Hw0 bytes. subst bytes.
  destruct (row_bytes_packed dst width y Hw0) as [Hpk Hlen].
  assert (Hzero : forall i v,
             nth (S i) (v :: repeat 0 (Z.to_nat ((width + 7) / 8 - 1))) 0 = 0).
  { intros i v. cbn [nth].
    destruct (Nat.lt_ge_cases i (Z.to_nat ((width + 7) / 8 - 1))).
    - apply nth_repeat_lt; assumption.
    - apply nth_overflow. rewrite repeat_length. assumption. }
  split; [exact Hlen |]. split; [| split; [| split]].
  - intros x Hx. rewrite Hpk. unfold row_bit, pixel_bit.
    rewrite Z2Nat.id by lia.
    replace (8 * (x / 8) + 7 - (7 - x mod 8)) with x by lia.
    destruct (Z.leb_spec 0 (7 - x mod 8)); [| lia].
    destruct (Z.ltb_spec (7 - x mod 8) 8); [| lia].
    destruct (Z.ltb_spec x width); [| lia].
    reflexivity.
  - intros i j Hout. rewrite Hpk. unfold row_bit.
    destruct (Z.leb_spec 0 j); cbn [andb]; [| reflexivity].
    destruct (Z.ltb_spec j 8); cbn [andb]; [| reflexivity].
    destruct (Z.ltb_spec (8 * Z.of_nat i + 7 - j) width); cbn [andb];
      [lia | reflexivity].
  - intros Hw Hleft Hrest.
    apply bytes_ext.
    + cbn [List.length]. rewrite repeat_length. lia.
    + intros i j. rewrite Hpk. unfold row_bit, pixel_bit.
      destruct i as [| i].
      * cbn [nth]. change 255 with (Z.ones 8).
        destruct (Z.leb_spec 0 j) as [Hj0 | Hj0]; cbn [andb].
        -- destruct (Z.ltb_spec j 8) as [Hj8 | Hj8]; cbn [andb].
           ++ rewrite Z.ones_spec_low by lia.
              destruct (Z.ltb_spec (8 * Z.of_nat 0 + 7 - j) width); [| lia].
              cbn [andb]. apply Z.leb_le. apply Hleft. lia.
           ++ rewrite Z.ones_spec_high by lia. reflexivity.
        -- rewrite Z.testbit_neg_r by lia. reflexivity.
      * rewrite Hzero, Z.bits_0.
        destruct (Z.leb_spec 0 j); cbn [andb]; [| reflexivity].
        destruct (Z.ltb_spec j 8); cbn [andb]; [| reflexivity].
        destruct (Z.ltb_spec (8 * Z.of_nat (S i) + 7 - j) width); cbn [andb];
          [| reflexivity].
        rewrite Hrest by lia. reflexivity.
  - intros Hw Hfirst Hrest.
    apply bytes_ext.
    + cbn [List.length]. rewrite repeat_length. lia.
    + intros i j. rewrite Hpk. unfold row_bit, pixel_bit.
      destruct i as [| i].
      * cbn [nth]. change 128 with (2 ^ 7).
        rewrite Z.pow2_bits_eqb by lia.
        destruct (Z.eqb_spec 7 j) as [<- | Hj7].
        -- cbn [Z.leb Z.ltb Z.compare Pos.compare Pos.compare_cont andb].
           replace (8 * Z.of_nat 0 + 7 - 7) with 0 by lia.
           destruct (Z.ltb_spec 0 width); [| lia].
           cbn [andb]. apply Z.leb_le. exact Hfirst.
        -- destruct (Z.leb_spec 0 j); cbn [andb]; [| reflexivity].
           destruct (Z.ltb_spec j 8); cbn [andb]; [| reflexivity].
           destruct (Z.ltb_spec (8 * Z.of_nat 0 + 7 - j) width); cbn [andb];
             [| reflexivity].
           apply Z.leb_gt. apply Hrest. lia.
      * rewrite Hzero, Z.bits_0.
        destruct (Z.leb_spec 0 j); cbn [andb]; [| reflexivity].
        destruct (Z.ltb_spec j 8); cbn [andb]; [| reflexivity].
        destruct (Z.ltb_spec (8 * Z.of_nat (S i) + 7 - j) width); cbn [andb];
          [| reflexivity].
        apply Z.leb_gt. apply Hrest. lia.
Qed.

(** ** The process monad *)

Lemma append_assoc (s1 s2 s3 : string) : (s1 +++ s2) +++ s3 = s1 +++ (s2 +++ s3).
Proof.
  induction s1 as [| c s1 IH]; cbn [String.append]; [reflexivity |].
  rewrite IH. reflexivity.
Qed.

Lemma append_nil_r (s : string) : s +++ EmptyString = s.
Proof.
  induction s as [| c s IH]; cbn [String.append]; [reflexivity |].
  rewrite IH. reflexivity.
Qed.

Lemma stdout_of_app (t1 t2 : list event) :
  stdout_of (t1 ++ t2) = stdout_of t1 +++ stdout_of t2.
Proof.
  induction t1 as [| [s | s | p] t1 IH]; cbn [stdout_of app]; try assumption.
  - reflexivity.
  - rewrite IH. symmetry. apply append_assoc.
Qed.

Lemma reads_of_app (t1 t2 : list event) :
  reads_of (t1 ++ t2) = reads_of t1 ++ reads_of t2.
Proof.
  induction t1 as [| [s | s | p] t1 IH]; cbn [reads_of app]; try assumption.
  - reflexivity.
  - rewrite IH. reflexivity.
Qed.

Lemma bind_ret_l {A B : Type} (a : A) (k : A -> Proc B) : bind (ret a) k = k a.
Proof. unfold bind, ret. destruct (k a); reflexivity. Qed.

Lemma bind_Exit {A B : Type} (t : list event) (c : Z) (k : A -> Proc B) :
  bind (t, Exit c) k = (t, Exit c).
Proof. reflexivity. Qed.

Lemma bind_assoc {A B C : Type} (m : Proc A) (k : A -> Proc B) (h : B -> Proc C) :
  bind (bind m k) h = bind m (fun a => bind (k a) h).
Proof.
  destruct m as [t [a | c]]; [| reflexivity].
  unfold bind. destruct (k a) as [t' [b | c]]; [| reflexivity].
  destruct (h b) as [t'' r]. rewrite app_assoc. reflexivity.
Qed.

(** A returning [bind]: both parts returned, and the trace is theirs in
    order. *)
Lemma bind_Return {A B : Type} (m : Proc A) (k : A -> Proc B)
    (t : list event) (b : B) :
  bind m k = (t, Return b) ->
  exists t1 a t2, m = (t1, Return a) /\ k a = (t2, Return b) /\ t = t1 ++ t2.
Proof.
  destruct m as [t1 [a | c]]; unfold bind; [| discriminate].
  destruct (k a) as [t2 r] eqn:Hk. intros H. inversion H; subst.
  exists t1, a, t2. auto.
Qed.

Lemma bind_ext {A B : Type} (m : Proc A) (k k' : A -> Proc B) :
  (forall a, k a = k' a) -> bind m k = bind m k'.
Proof.
  intros Hk. destruct m as [t [a | c]]; [| reflexivity].
  unfold bind. rewrite Hk. reflexivity.
Qed.

Lemma loopM_app {S : Type} (body : Z -> S -> Proc S) (a b : nat) :
  forall (i : Z) (s : S),
    loopM (a + b) i body s =
      (s' <- loopM a i body s ;; loopM b (i + Z.of_nat a) body s').
Proof.
  induction a as [| a IH]; intros i s.
  - cbn [loopM Nat.add]. rewrite bind_ret_l. f_equal. cbn. lia.
  - cbn [loopM Nat.add]. rewrite bind_assoc. apply bind_ext.
    intros s'. rewrite IH. apply bind_ext.
    intros s''. f_equal. lia.
Qed.

(** ** Machine integers *)

Lemma int_small (z : Z) : GoInt.in_int z -> GoInt.int z = z.
Proof.
  unfold GoInt.in_int, GoInt.int, GoInt.wrap.
  change (2 ^ (64 - 1)) with 9223372036854775808.
  change (2 ^ 64) with 18446744073709551616.
  change (2 ^ 63) with 9223372036854775808.
  intros H. rewrite Z.mod_small; lia.
Qed.

Lemma int32_small (z : Z) : - 2 ^ 31 <= z < 2 ^ 31 -> GoInt.int32 z = z.
Proof.
  unfold GoInt.int32, GoInt.wrap.
  change (2 ^ (32 - 1)) with 2147483648.
  change (2 ^ 32) with 4294967296.
  change (2 ^ 31) with 2147483648.
  intros H. rewrite Z.mod_small; lia.
Qed.

Lemma Ceil_range (x : Z) : - 2 ^ 25 <= fixed.Ceil x < 2 ^ 25.
Proof.
  unfold fixed.Ceil, GoInt.int32, GoInt.wrap.
  rewrite Z.shiftr_div_pow2 by lia.
  change (2 ^ (32 - 1)) with 2147483648.
  change (2 ^ 32) with 4294967296.
  change (2 ^ 25) with 33554432.
  change (2 ^ 6) with 64.
  lia.
Qed.

(** [Ceil] is the ceiling of the 26.6 value, short of overflow. *)
Lemma Ceil_is_ceiling (x : Z) :
  - 2 ^ 31 <= x < 2 ^ 31 - 63 ->
  64 * (fixed.Ceil x - 1) < x <= 64 * fixed.Ceil x.
Proof.
  intros Hx. unfold fixed.Ceil.
  rewrite int32_small by lia.
  rewrite Z.shiftr_div_pow2 by lia.
  change (2 ^ 6) with 64. lia.
Qed.

(** ** The cell height of the metrics variant *)

(** C8, as the code has it: with a negative [reducedHeight] the cell
    height is the quotient of ceil(metrics height) * 3 by 4, truncated
    toward zero as Go's [/] does, plus 1; that is floor(ceil * 3 / 4) + 1
    whenever ceil(metrics height) is not negative.  With a non-negative
    [reducedHeight] it is ceil(metrics height) - reducedHeight, whenever
    that difference fits Go's [int], as it does for every metrics height
    that is not negative. *)
Theorem C8_cell_height_truncates (metricsHeight reduceHeight : Z) :
  GoInt.in_int reduceHeight ->
  (reduceHeight < 0 ->
   Derived.cell_height metricsHeight reduceHeight
   = Z.quot (fixed.Ceil metricsHeight * 3) 4 + 1)
  /\ (reduceHeight < 0 -> 0 <= fixed.Ceil metricsHeight ->
      Derived.cell_height metricsHeight reduceHeight
      = (fixed.Ceil metricsHeight * 3) / 4 + 1)
  /\ (0 <= reduceHeight ->
      GoInt.in_int (fixed.Ceil metricsHeight - reduceHeight) ->
      Derived.cell_height metricsHeight reduceHeight
      = fixed.Ceil metricsHeight - reduceHeight)
  /\ (0 <= reduceHeight -> 0 <= fixed.Ceil metricsHeight ->
      Derived.cell_height metricsHeight reduceHeight
      = fixed.Ceil metricsHeight - reduceHeight).
Proof.
  intros HR. pose proof (Ceil_range metricsHeight) as Hc.
  change (2 ^ 25) with 33554432 in Hc.
  unfold GoInt.in_int in *. change (2 ^ 63) with 9223372036854775808 in *.
  assert (Hsmall : forall z, - 9223372036854775808 <= z < 9223372036854775808 ->
                             GoInt.int z = z).
  { intros z Hz. apply int_small. unfold GoInt.in_int.
    change (2 ^ 63) with 9223372036854775808. exact Hz. }
  assert (Hquot : reduceHeight < 0 ->
                  Derived.cell_height metricsHeight reduceHeight
                  = Z.quot (fixed.Ceil metricsHeight * 3) 4 + 1).
  { intros Hsign. unfold Derived.cell_height.
    destruct (Z.leb_spec 0 reduceHeight); [lia |].
    rewrite (Hsmall (fixed.Ceil metricsHeight * 3)) by lia.
    assert (Hq : - 33554432 * 3 <= Z.quot (fixed.Ceil metricsHeight * 3) 4
                 <= 33554432 * 3).
    { destruct (Z.le_gt_cases 0 (fixed.Ceil metricsHeight)).
      - rewrite Z.quot_div_nonneg by lia. lia.
      - replace (fixed.Ceil metricsHeight * 3)
          with (- (- fixed.Ceil metricsHeight * 3)) by lia.
        rewrite Z.quot_opp_l by lia.
        rewrite Z.quot_div_nonneg by lia. lia. }
    rewrite (Hsmall (Z.quot (fixed.Ceil metricsHeight * 3) 4)) by lia.
    apply Hsmall. lia. }
  assert (Hdiff : 0 <= reduceHeight ->
                  - 9223372036854775808
                    <= fixed.Ceil metricsHeight - reduceHeight
                    < 9223372036854775808 ->
                  Derived.cell_height metricsHeight reduceHeight
                  = fixed.Ceil metricsHeight - reduceHeight).
  { intros Hsign Hfit. unfold Derived.cell_height.
    destruct (Z.leb_spec 0 reduceHeight); [| lia].
    apply Hsmall. exact Hfit. }
  split; [exact Hquot |]. split; [| split].
  - intros Hsign Hh. rewrite (Hquot Hsign).
    rewrite Z.quot_div_nonneg by lia. reflexivity.
  - exact Hdiff.
  - intros Hsign Hh. apply Hdiff; [exact Hsign | lia].
Qed.

Lemma C8_cell_height_truncates_witness :
  GoInt.in_int (-1) /\ GoInt.in_int 5
  /\ 0 <= fixed.Ceil (27 * 64 + 1)
  /\ Derived.cell_height (27 * 64 + 1) (-1) = 22
  /\ Derived.cell_height (- (27 * 64)) (-1) = -19
  /\ Derived.cell_height (27 * 64 + 1) 5 = 23.
Proof.
  assert (Hr1 : GoInt.in_int (-1)) by (unfold GoInt.in_int; lia).
  assert (Hr5 : GoInt.in_int 5) by (unfold GoInt.in_int; lia).
  assert (Hc : 0 <= fixed.Ceil (27 * 64 + 1)) by (vm_compute; discriminate).
  split; [exact Hr1 |]. split; [exact Hr5 |]. split; [exact Hc |].
  split; [| split].
  - rewrite (proj1 (proj2 (C8_cell_height_truncates (27 * 64 + 1) (-1) Hr1)))
      by (try exact Hc; lia).
    reflexivity.
  - rewrite (proj1 (C8_cell_height_truncates (- (27 * 64)) (-1) Hr1)) by lia.
    reflexivity.
  - rewrite (proj2 (proj2 (proj2 (C8_cell_height_truncates (27 * 64 + 1) 5 Hr5))))
      by (try exact Hc; lia).
    reflexivity.
Defined.

(** C8, as the claim has it, fails: for a metrics height of minus one pixel
    and no explicit reduction the cell height is 1, and the floor formula
    gives 0. *)
Lemma C8_counterexample :
  -1 < 0
  /\ Derived.cell_height (-64) (-1) = 1
  /\ (fixed.Ceil (-64) * 3) / 4 + 1 = 0
  /\ Derived.cell_height (-64) (-1) <> (fixed.Ceil (-64) * 3) / 4 + 1.
Proof.
  split; [lia |]. split; [reflexivity |]. split; [reflexivity |].
  vm_compute. discriminate.
Qed.

(** Go's division truncates toward zero: below zero the quotient is not the
    floor. *)
Example cell_height_negative_metrics :
  Derived.cell_height (- (27 * 64)) (-1) = -19
  /\ (fixed.Ceil (- (27 * 64)) * 3) / 4 + 1 = -20.
Proof. split; reflexivity. Qed.

(** ** Runs that stop before the table *)

Section EarlyExit.
Context {FB : FontBackend} {RB : RasterBackend}.

(** C10, as the code has it: with a positional argument left over, both
    variants end before the font file is read and before anything is
    written to standard output; the exit status is 1, unless the flag
    parser reported a help request, which ends the process with status 0
    before the arguments are looked at. *)
Theorem C10_positional_arguments_end_the_run
    (fs : string -> goerr (list Byte.byte)) (args : list string)
    (err : option flags_error)
    (conf_e : Explicit.Conf) (conf_d : Derived.Conf) :
  args <> [] ->
  let status := match err with Some ErrHelp => 0 | _ => 1 end in
  (snd (Explicit.main fs args err conf_e) = Exit status
   /\ reads_of (fst (Explicit.main fs args err conf_e)) = []
   /\ stdout_of (fst (Explicit.main fs args err conf_e)) = EmptyString)
  /\ (snd (Derived.main fs args err conf_d) = Exit status
      /\ reads_of (fst (Derived.main fs args err conf_d)) = []
      /\ stdout_of (fst (Derived.main fs args err conf_d)) = EmptyString).
Proof.
  intros Hargs status. subst status.
  destruct args as [| a args]; [contradiction |].
  destruct err as [[|] |]; repeat split; reflexivity.
Qed.

(** With the parse succeeded, the fatal exit is the one of [log.Fatal]. *)
Lemma positional_arguments_logged
    (fs : string -> goerr (list Byte.byte)) (a : string) (args : list string)
    (conf_e : Explicit.Conf) (conf_d : Derived.Conf) :
  Explicit.main fs (a :: args) None conf_e
    = ([Stderr "do not provide additional parameters"], Exit 1)
  /\ Derived.main fs (a :: args) None conf_d
    = ([Stderr "do not provide additional parameters"], Exit 1).
Proof. split; reflexivity. Qed.

(** C3, as the code has it: when the font file cannot be read, both
    variants log the error and return from [main], so the process ends
    with status 0, having written nothing to standard output. *)
Theorem C3_unreadable_font_returns
    (fs : string -> goerr (list Byte.byte)) (e : string)
    (conf_e : Explicit.Conf) (conf_d : Derived.Conf) :
  fs (Explicit.Font conf_e) = Err e ->
  fs (Derived.Font conf_d) = Err e ->
  (Explicit.main fs [] None conf_e
     = ([ReadFile (Explicit.Font conf_e); Stderr e], Return tt)
   /\ exit_status (snd (Explicit.main fs [] None conf_e)) = 0
   /\ stdout_of (fst (Explicit.main fs [] None conf_e)) = EmptyString)
  /\ (Derived.main fs [] None conf_d
        = ([ReadFile (Derived.Font conf_d); Stderr e], Return tt)
      /\ exit_status (snd (Derived.main fs [] None conf_d)) = 0
      /\ stdout_of (fst (Derived.main fs [] None conf_d)) = EmptyString).
Proof.
  intros He Hd.
  assert (H1 : Explicit.main fs [] None conf_e
               = ([ReadFile (Explicit.Font conf_e); Stderr e], Return tt)).
  { unfold Explicit.main, ioutil_ReadFile. cbn. rewrite He. reflexivity. }
  assert (H2 : Derived.main fs [] None conf_d
               = ([ReadFile (Derived.Font conf_d); Stderr e], Return tt)).
  { unfold Derived.main, ioutil_ReadFile. cbn. rewrite Hd. reflexivity. }
  rewrite H1, H2. repeat split; reflexivity.
Qed.

(** ** Outline commands of an unsupported kind *)

(** The explicit variant has a [default] case that ends the run. *)
Lemma Explicit_unsupported_fatal
    (ox oy : float32) (seg : sfnt.Segment) (r : Rasterizer) :
  supported (sfnt.Op seg) = false ->
  Explicit.draw_segment ox oy seg r = log_Fatal ("OP: " +++ fmt.d (sfnt.Op seg)).
Proof.
  unfold supported, Explicit.draw_segment. intros H.
  destruct (sfnt.Op seg =? sfnt.SegmentOpMoveTo); [discriminate |].
  destruct (sfnt.Op seg =? sfnt.SegmentOpLineTo); [discriminate |].
  destruct (sfnt.Op seg =? sfnt.SegmentOpQuadTo); [discriminate |].
  destruct (sfnt.Op seg =? sfnt.SegmentOpCubeTo); [discriminate |].
  reflexivity.
Qed.

(** The metrics variant has none: the command is skipped and the
    rasteriser is left as it was. *)
Lemma Derived_unsupported_skipped
    (ox oy : float32) (seg : sfnt.Segment) (r : Rasterizer) :
  supported (sfnt.Op seg) = false ->
  Derived.draw_segment ox oy seg r = ret r.
Proof.
  unfold supported, Derived.draw_segment. intros H.
  destruct (sfnt.Op seg =? sfnt.SegmentOpMoveTo); [discriminate |].
  destruct (sfnt.Op seg =? sfnt.SegmentOpLineTo); [discriminate |].
  destruct (sfnt.Op seg =? sfnt.SegmentOpQuadTo); [discriminate |].
  destruct (sfnt.Op seg =? sfnt.SegmentOpCubeTo); [discriminate |].
  reflexivity.
Qed.

End EarlyExit.

Lemma C10_positional_arguments_end_the_run_witness :
  ["extra"] <> []
  /\ snd (Explicit.main (FB := Toy.font_backend) (RB := Toy.raster_backend)
            (Toy.fs Toy.full_font) ["extra"] None Toy.explicit_conf) = Exit 1
  /\ snd (Derived.main (FB := Toy.font_backend) (RB := Toy.raster_backend)
            (Toy.fs Toy.full_font) ["extra"] None Toy.derived_conf) = Exit 1
  /\ snd (Explicit.main (FB := Toy.font_backend) (RB := Toy.raster_backend)
            (Toy.fs Toy.full_font) ["extra"] (Some ErrHelp) Toy.explicit_conf)
     = Exit 0.
Proof.
  assert (Hargs : ["extra"] <> @nil string) by discriminate.
  pose proof (C10_positional_arguments_end_the_run
                (FB := Toy.font_backend) (RB := Toy.raster_backend)
                (Toy.fs Toy.full_font) ["extra"] None
                Toy.explicit_conf Toy.derived_conf Hargs) as H.
  pose proof (C10_positional_arguments_end_the_run
                (FB := Toy.font_backend) (RB := Toy.raster_backend)
                (Toy.fs Toy.full_font) ["extra"] (Some ErrHelp)
                Toy.explicit_conf Toy.derived_conf Hargs) as Hhelp.
  split; [exact Hargs |].
  split; [exact (proj1 (proj1 H)) |].
  split; [exact (proj1 (proj2 H)) | exact (proj1 (proj1 Hhelp))].
Defined.

(** C10, as the claim has it, fails: a positional argument together with a
    help request ends the process with status 0, not fatally. *)
Lemma C10_counterexample :
  let run :=
    Explicit.main (FB := Toy.font_backend) (RB := Toy.raster_backend)
      (Toy.fs Toy.full_font) ["extra"] (Some ErrHelp) Toy.explicit_conf in
  ["extra"] <> []
  /\ exit_status (snd run) = 0
  /\ ~ (snd run = Exit 1).
Proof.
  split; [discriminate |]. split; [reflexivity |].
  vm_compute. discriminate.
Qed.

Lemma C3_unreadable_font_returns_witness :
  Toy.fs Toy.full_font "missing.ttf"
    = Err "open missing.ttf: no such file or directory"
  /\ exit_status
       (snd (Explicit.main (FB := Toy.font_backend) (RB := Toy.raster_backend)
               (Toy.fs Toy.full_font) [] None Toy.explicit_conf_missing)) = 0
  /\ exit_status
       (snd (Derived.main (FB := Toy.font_backend) (RB := Toy.raster_backend)
               (Toy.fs Toy.full_font) [] None Toy.derived_conf_missing)) = 0.
Proof.
  assert (Hfs : Toy.fs Toy.full_font "missing.ttf"
                = Err "open missing.ttf: no such file or directory")
    by reflexivity.
  pose proof (C3_unreadable_font_returns
                (FB := Toy.font_backend) (RB := Toy.raster_backend)
                (Toy.fs Toy.full_font) _
                Toy.explicit_conf_missing Toy.derived_conf_missing Hfs Hfs) as H.
  split; [exact Hfs |].
  split; [exact (proj1 (proj2 (proj1 H))) | exact (proj1 (proj2 (proj2 H)))].
Defined.

(** C3, as the claim has it, fails: the font file is unreadable and the
    process does not end with status 1. *)
Lemma C3_counterexample :
  let run :=
    Explicit.main (FB := Toy.font_backend) (RB := Toy.raster_backend)
      (Toy.fs Toy.full_font) [] None Toy.explicit_conf_missing in
  (exists e, Toy.fs Toy.full_font (Explicit.Font Toy.explicit_conf_missing) = Err e)
  /\ ~ (exit_status (snd run) = 1 /\ stdout_of (fst run) = EmptyString).
Proof.
  split.
  - eexists. reflexivity.
  - intros [H _]. vm_compute in H. discriminate H.
Qed.

(** ** Traces of the loops *)

Lemma exits_1_bind {A B : Type} (m : Proc A) (k : A -> Proc B) :
  exits_1 m -> (forall a, exits_1 (k a)) -> exits_1 (bind m k).
Proof.
  unfold exits_1. destruct m as [t [a | c]]; cbn; intros Hm Hk; [| assumption].
  specialize (Hk a). destruct (k a) as [t' r]. assumption.
Qed.

Lemma silent_bind {A B : Type} (m : Proc A) (k : A -> Proc B) :
  silent m -> (forall a, silent (k a)) -> silent (bind m k).
Proof.
  unfold silent. destruct m as [t [a | c]]; cbn; intros Hm Hk; [| assumption].
  specialize (Hk a). destruct (k a) as [t' r]. cbn in *.
  rewrite stdout_of_app, Hm, Hk. reflexivity.
Qed.

Lemma exits_1_loopM {S : Type} (body : Z -> S -> Proc S) (n : nat) :
  (forall i s, exits_1 (body i s)) ->
  forall i s, exits_1 (loopM n i body s).
Proof.
  intros Hbody. induction n as [| n IH]; intros i s; cbn [loopM].
  - exact I.
  - apply exits_1_bind; [apply Hbody | intros s'; apply IH].
Qed.

Lemma exits_1_rangeM {A S : Type} (body : A -> S -> Proc S) (l : list A) :
  (forall x s, exits_1 (body x s)) ->
  forall s, exits_1 (rangeM l body s).
Proof.
  intros Hbody. induction l as [| x l IH]; intros s; cbn [rangeM].
  - exact I.
  - apply exits_1_bind; [apply Hbody | intros s'; apply IH].
Qed.

Lemma silent_rangeM {A S : Type} (body : A -> S -> Proc S) (l : list A) :
  (forall x s, silent (body x s)) ->
  forall s, silent (rangeM l body s).
Proof.
  intros Hbody. induction l as [| x l IH]; intros s; cbn [rangeM].
  - reflexivity.
  - apply silent_bind; [apply Hbody | intros s'; apply IH].
Qed.

(** The last iteration of a loop that returned. *)
Lemma loopM_last {S : Type} (body : Z -> S -> Proc S) (n : nat) (i : Z)
    (s s' : S) (t : list event) :
  loopM (Datatypes.S n) i body s = (t, Return s') ->
  exists s1 t1, body (i + Z.of_nat n) s1 = (t1, Return s').
Proof.
  replace (Datatypes.S n) with (n + 1)%nat by lia.
  rewrite loopM_app. intros H.
  apply bind_Return in H. destruct H as (t1 & s1 & t2 & _ & H2 & _).
  cbn [loopM] in H2. apply bind_Return in H2.
  destruct H2 as (t3 & s3 & t4 & Hb & Hr & _).
  inversion Hr; subst. exists s1, t3. assumption.
Qed.

(** The byte loop of a row prints each byte in hexadecimal. *)
Lemma print_bytes_run (bytes : list Z) :
  rangeM bytes (fun o _ => fmt_Print (hex_byte o)) tt
  = (map (fun o => Stdout (hex_byte o)) bytes, Return tt).
Proof.
  induction bytes as [| o bytes IH]; cbn [rangeM map].
  - reflexivity.
  - unfold bind at 1, fmt_Print at 1. rewrite IH. reflexivity.
Qed.

Lemma stdout_of_bytes (bytes : list Z) :
  stdout_of (map (fun o => Stdout (hex_byte o)) bytes) = cat (map hex_byte bytes).
Proof.
  induction bytes as [| o bytes IH]; cbn [map stdout_of cat fold_right].
  - reflexivity.
  - rewrite IH. reflexivity.
Qed.

(** Printing a row never fails and writes exactly its line. *)
Lemma print_row_run (dst : image.Alpha) (width y : Z) (u : unit) :
  exists t, print_row dst width y u = (t, Return tt)
            /\ stdout_of t = row_line (pack_row dst width y).
Proof.
  unfold print_row, row_line.
  destruct (pack_row dst width y) as [bytes tmp]. cbn [fst snd].
  rewrite print_bytes_run.
  eexists. split.
  - cbn. reflexivity.
  - cbn [stdout_of]. rewrite stdout_of_app, stdout_of_bytes.
    cbn [stdout_of]. rewrite append_nil_r. reflexivity.
Qed.

(** The row loop never fails and writes one line per row, in order. *)
Lemma print_rows_run (dst : image.Alpha) (width : Z) (n : nat) :
  forall (y0 : Z) (u : unit),
  exists t, loopM n y0 (print_row dst width) u = (t, Return tt)
            /\ stdout_of t
               = cat (map row_line (map (pack_row dst width) (range y0 n))).
Proof.
  induction n as [| n IH]; intros y0 u; cbn [loopM range map].
  - destruct u. exists []. split; reflexivity.
  - destruct (print_row_run dst width y0 u) as (t1 & Hrow & Hout1).
    destruct (IH (y0 + 1) tt) as (t2 & Hrest & Hout2).
    rewrite Hrow. unfold bind. rewrite Hrest.
    exists (t1 ++ t2). split; [reflexivity |].
    rewrite stdout_of_app, Hout1, Hout2. reflexivity.
Qed.

Lemma length_range (n : nat) : forall i, List.length (range i n) = n.
Proof.
  induction n as [| n IH]; intros i; cbn [range List.length];
    [reflexivity | rewrite IH; reflexivity].
Qed.

Lemma In_range (n : nat) :
  forall i c, In c (range i n) <-> i <= c < i + Z.of_nat n.
Proof.
  induction n as [| n IH]; intros i c; cbn [range In].
  - lia.
  - rewrite IH. lia.
Qed.

Lemma range_sorted (n : nat) : forall i, StronglySorted Z.lt (range i n).
Proof.
  induction n as [| n IH]; intros i; cbn [range]; constructor.
  - apply IH.
  - apply Forall_forall. intros c Hc. apply In_range in Hc. lia.
Qed.

(** The number of lines of a glyph block is the cell height. *)
Lemma length_block_rows (dst : image.Alpha) (width height : Z) :
  0 <= height ->
  Z.of_nat (List.length (block_rows dst width height)) = height.
Proof.
  intros Hh. unfold block_rows. rewrite length_map, length_range. lia.
Qed.

Lemma ends_with_app (p s : string) : ends_with (p +++ s) s = true.
Proof.
  induction p as [| c p IH].
  - cbn [String.append]. destruct s; cbn [ends_with];
      rewrite String.eqb_refl; reflexivity.
  - cbn [String.append ends_with]. rewrite IH. apply orb_true_r.
Qed.

Lemma ends_with_sound (s suffix : string) :
  ends_with s suffix = true -> exists p, s = p +++ suffix.
Proof.
  induction s as [| c s IH]; cbn [ends_with]; intros H.
  - rewrite orb_false_r in H. apply String.eqb_eq in H. subst.
    exists EmptyString. reflexivity.
  - apply orb_true_iff in H. destruct H as [H | H].
    + apply String.eqb_eq in H. exists EmptyString. rewrite H. reflexivity.
    + destruct (IH H) as [p Hp]. exists (String c p). rewrite Hp. reflexivity.
Qed.

Lemma map_fst_combine {A B : Type} (l1 : list A) :
  forall l2 : list B,
    List.length l1 = List.length l2 -> map fst (combine l1 l2) = l1.
Proof.
  induction l1 as [| a l1 IH]; intros [| b l2] Hlen; cbn in *;
    try reflexivity; try discriminate.
  rewrite IH by lia. reflexivity.
Qed.

(** ** The glyph loop of the explicit variant *)

Section ExplicitTable.
Context {FB : FontBackend} {RB : RasterBackend}.

Lemma Explicit_draw_segment_cases
    (ox oy : float32) (seg : sfnt.Segment) (r : Rasterizer) :
  (exists r', Explicit.draw_segment ox oy seg r = ([], Return r'))
  \/ (exists m, Explicit.draw_segment ox oy seg r = ([Stderr m], Exit 1)).
Proof.
  unfold Explicit.draw_segment.
  repeat match goal with
         | |- context [if ?b then _ else _] => destruct b
         end;
    try (left; eexists; reflexivity).
  right. eexists. reflexivity.
Qed.

Lemma Explicit_segments_silent
    (ox oy : float32) (segs : list sfnt.Segment) (r : Rasterizer) :
  silent (rangeM segs (Explicit.draw_segment ox oy) r).
Proof.
  apply silent_rangeM. intros seg r'.
  destruct (Explicit_draw_segment_cases ox oy seg r') as [[r'' H] | [m H]];
    rewrite H; reflexivity.
Qed.

Lemma Explicit_segments_exits_1
    (ox oy : float32) (segs : list sfnt.Segment) (r : Rasterizer) :
  exits_1 (rangeM segs (Explicit.draw_segment ox oy) r).
Proof.
  apply exits_1_rangeM. intros seg r'.
  destruct (Explicit_draw_segment_cases ox oy seg r') as [[r'' H] | [m H]];
    rewrite H; cbn; auto.
Qed.

(** A glyph that was processed to the end wrote its block: the comment
    line and one line per row of the cell. *)
Lemma Explicit_glyph_Return (f : sfnt_Font) (conf : Explicit.Conf)
    (width height i : Z) (u u' : unit) (t : list event) :
  Explicit.glyph f conf width height i u = (t, Return u') ->
  exists dst, stdout_of t = glyph_block width height (GoInt.int32 i, dst).
Proof.
  unfold Explicit.glyph.
  destruct (Font_GlyphIndex f (GoInt.int32 i)) as [x | e]; [| discriminate].
  destruct (x =? 0); [discriminate |].
  rewrite bind_ret_l.
  destruct (Font_LoadGlyph f x (fixed.I (Explicit.PPEM conf)))
    as [segments | e]; [| discriminate].
  intros H. apply bind_Return in H.
  destruct H as (t1 & r & t2 & Hsegs & Hrest & ->).
  pose proof (Explicit_segments_silent
                (float32_of_int (Explicit.Xoffset conf))
                (float32_of_int (Explicit.Yoffset conf)) segments
                (set_DrawOp_Src (NewRasterizer width height))) as Hsilent.
  unfold silent in Hsilent. rewrite Hsegs in Hsilent. cbn [fst] in Hsilent.
  set (dst := Draw r (image.NewAlpha (image.Rect 0 0 width height))) in *.
  destruct (print_rows_run dst width (Z.to_nat height) 0 tt)
    as (trows & Hrows & Hout).
  unfold bind at 1, fmt_Print at 1 in Hrest. rewrite Hrows in Hrest.
  inversion Hrest; subst t2.
  exists dst. rewrite stdout_of_app, Hsilent.
  cbn [String.append app stdout_of]. rewrite Hout. reflexivity.
Qed.

Lemma Explicit_glyph_exits_1 (f : sfnt_Font) (conf : Explicit.Conf)
    (width height i : Z) (u : unit) :
  exits_1 (Explicit.glyph f conf width height i u).
Proof.
  unfold Explicit.glyph.
  destruct (Font_GlyphIndex f (GoInt.int32 i)) as [x | e]; [| reflexivity].
  apply exits_1_bind.
  { destruct (x =? 0); cbn; auto. }
  intros _.
  destruct (Font_LoadGlyph f x (fixed.I (Explicit.PPEM conf)))
    as [segments | e]; [| reflexivity].
  apply exits_1_bind; [apply Explicit_segments_exits_1 |].
  intros r. apply exits_1_bind; [exact I |].
  intros _.
  destruct (print_rows_run
              (Draw r (image.NewAlpha (image.Rect 0 0 width height)))
              width (Z.to_nat height) 0 tt) as (trows & Hrows & _).
  rewrite Hrows. exact I.
Qed.

(** The loop over the codepoints, when it returns, wrote one block per
    codepoint, in order. *)
Lemma Explicit_glyphs_Return (f : sfnt_Font) (conf : Explicit.Conf)
    (width height : Z) (n : nat) :
  forall (i : Z) (u u' : unit) (t : list event),
    0 <= i -> i + Z.of_nat n <= 2 ^ 31 ->
    loopM n i (Explicit.glyph f conf width height) u = (t, Return u') ->
    exists images,
      List.length images = n
      /\ stdout_of t
         = cat (map (glyph_block width height) (combine (range i n) images)).
Proof.
  induction n as [| n IH]; intros i u u' t Hi Hn H; cbn [loopM] in H.
  - inversion H; subst. exists []. split; reflexivity.
  - apply bind_Return in H. destruct H as (t1 & u1 & t2 & Hg & Hrest & ->).
    apply Explicit_glyph_Return in Hg. destruct Hg as [dst Hdst].
    apply IH in Hrest; [| lia | lia].
    destruct Hrest as (images & Hlen & Hout).
    exists (dst :: images). split; [cbn; lia |].
    rewrite stdout_of_app, Hdst, Hout.
    rewrite int32_small by (change (2 ^ 31) with 2147483648 in *; lia).
    reflexivity.
Qed.

Lemma Explicit_debug_report_silent (f : sfnt_Font) (conf : Explicit.Conf) :
  silent (Explicit.debug_report f conf).
Proof.
  unfold Explicit.debug_report.
  destruct (Explicit.Debug conf); [| reflexivity].
  destruct (Font_Metrics f (fixed.I (Explicit.PPEM conf))); reflexivity.
Qed.

Lemma Explicit_debug_report_exits_1 (f : sfnt_Font) (conf : Explicit.Conf) :
  exits_1 (Explicit.debug_report f conf).
Proof.
  unfold Explicit.debug_report.
  destruct (Explicit.Debug conf); [| exact I].
  destruct (Font_Metrics f (fixed.I (Explicit.PPEM conf))); cbn; auto.
Qed.

(** A run of the explicit variant that read its font and returned went
    through every stage. *)
Lemma Explicit_main_inv
    (fs : string -> goerr (list Byte.byte)) (args : list string)
    (err : option flags_error) (conf : Explicit.Conf)
    (fontBytes : list Byte.byte) (t : list event) (u : unit) :
  fs (Explicit.Font conf) = Ok fontBytes ->
  Explicit.main fs args err conf = (t, Return u) ->
  exists f td tl,
    sfnt_Parse fontBytes = Ok f
    /\ Explicit.debug_report f conf = (td, Return tt)
    /\ loopM (Z.to_nat (126 - 32 + 1)) 32
         (Explicit.glyph f conf (GoInt.int (Explicit.Width conf * 8))
            (Explicit.Height conf)) tt = (tl, Return tt)
    /\ t = ReadFile (Explicit.Font conf)
           :: td ++ Stdout (table_header +++ nl)
           :: tl ++ [Stdout "};"; Stdout (based_on (Explicit.Font conf));
                     Stdout (sfont_descriptor
                               (GoInt.int (Explicit.Width conf * 8))
                               (Explicit.Height conf))].
Proof.
  intros Hfs Hmain.
  unfold Explicit.main in Hmain.
  apply bind_Return in Hmain. destruct Hmain as (t1 & [] & t2 & Herr & Hmain & ->).
  assert (Ht1 : t1 = []).
  { destruct err as [[|] |]; inversion Herr; reflexivity. }
  subst t1.
  apply bind_Return in Hmain. destruct Hmain as (t1 & [] & t3 & Hargs & Hmain & ->).
  assert (Ht1 : t1 = []).
  { destruct (0 <? Z.of_nat (List.length args)); inversion Hargs; reflexivity. }
  subst t1.
  unfold ioutil_ReadFile, bind at 1 in Hmain. rewrite Hfs in Hmain.
  destruct (sfnt_Parse fontBytes) as [f | e]; [| discriminate].
  destruct (bind (Explicit.debug_report f conf) _) as [t4 r4] eqn:Hbody.
  inversion Hmain; subst t3 r4. clear Hmain.
  apply bind_Return in Hbody. destruct Hbody as (td & [] & t5 & Hdebug & Hbody & ->).
  apply bind_Return in Hbody. destruct Hbody as (th & [] & t6 & Hhead & Hbody & ->).
  inversion Hhead; subst th.
  apply bind_Return in Hbody. destruct Hbody as (tl & [] & t7 & Hloop & Hbody & ->).
  inversion Hbody; subst t7.
  exists f, td, tl. repeat split; try assumption.
Qed.

(** The whole output of a run of the explicit variant that read its font
    and returned. *)
Lemma Explicit_main_output
    (fs : string -> goerr (list Byte.byte)) (args : list string)
    (err : option flags_error) (conf : Explicit.Conf)
    (fontBytes : list Byte.byte) :
  fs (Explicit.Font conf) = Ok fontBytes ->
  snd (Explicit.main fs args err conf) = Return tt ->
  exists images,
    List.length images = 95%nat
    /\ stdout_of (fst (Explicit.main fs args err conf))
       = (table_header +++ nl)
           +++ cat (map (glyph_block (GoInt.int (Explicit.Width conf * 8))
                           (Explicit.Height conf))
                      (combine codepoints images))
           +++ "};" +++ based_on (Explicit.Font conf)
           +++ sfont_descriptor (GoInt.int (Explicit.Width conf * 8))
                 (Explicit.Height conf).
Proof.
  intros Hfs Hret.
  destruct (Explicit.main fs args err conf) as [t r] eqn:Hmain.
  cbn [fst snd] in *. subst r.
  destruct (Explicit_main_inv _ _ _ _ _ _ _ Hfs Hmain)
    as (f & td & tl & _ & Hdebug & Hloop & ->).
  pose proof (Explicit_debug_report_silent f conf) as Hsilent.
  unfold silent in Hsilent. rewrite Hdebug in Hsilent. cbn [fst] in Hsilent.
  apply Explicit_glyphs_Return in Hloop; [| lia | vm_compute; discriminate].
  destruct Hloop as (images & Hlen & Hout).
  exists images. split; [exact Hlen |].
  cbn [stdout_of]. rewrite stdout_of_app, Hsilent.
  cbn [String.append stdout_of]. rewrite stdout_of_app, Hout.
  cbn [stdout_of]. rewrite append_nil_r.
  rewrite !append_assoc. reflexivity.
Qed.

(** C5: a run of the explicit variant that read its font and returned
    wrote a table of exactly 95 glyph blocks, one per codepoint from 32
    to 126 in ascending order, each of them the comment line followed by
    exactly [height] row lines. *)
Theorem C5_table_is_complete
    (fs : string -> goerr (list Byte.byte)) (args : list string)
    (err : option flags_error) (conf : Explicit.Conf)
    (fontBytes : list Byte.byte) :
  fs (Explicit.Font conf) = Ok fontBytes ->
  snd (Explicit.main fs args err conf) = Return tt ->
  0 <= Explicit.Height conf ->
  let width := GoInt.int (Explicit.Width conf * 8) in
  let height := Explicit.Height conf in
  exists images,
    stdout_of (fst (Explicit.main fs args err conf))
    = (table_header +++ nl)
        +++ cat (map (glyph_block width height) (combine codepoints images))
        +++ "};" +++ based_on (Explicit.Font conf)
        +++ sfont_descriptor width height
    /\ List.length (combine codepoints images) = 95%nat
    /\ map fst (combine codepoints images) = codepoints
    /\ (forall c, In c codepoints <-> 32 <= c <= 126)
    /\ StronglySorted Z.lt codepoints
    /\ (forall dst,
          Z.of_nat (List.length (block_rows dst width height)) = height).
Proof.
  intros Hfs Hret Hh width height.
  destruct (Explicit_main_output fs args err conf fontBytes Hfs Hret)
    as (images & Hlen & Hout).
  exists images. split; [exact Hout |].
  assert (Hcp : List.length codepoints = 95%nat) by reflexivity.
  split; [rewrite length_combine, Hcp, Hlen; reflexivity |].
  split.
  { apply map_fst_combine. rewrite Hcp, Hlen. reflexivity. }
  split.
  { intros c. unfold codepoints. rewrite In_range. lia. }
  split; [apply range_sorted |].
  intros dst. apply length_block_rows. assumption.
Qed.

End ExplicitTable.

(** ** The glyph loop of the metrics variant *)

Section DerivedTable.
Context {FB : FontBackend} {RB : RasterBackend}.

Lemma Derived_draw_segment_returns
    (ox oy : float32) (seg : sfnt.Segment) (r : Rasterizer) :
  exists r', Derived.draw_segment ox oy seg r = ([], Return r').
Proof.
  unfold Derived.draw_segment.
  repeat match goal with
         | |- context [if ?b then _ else _] => destruct b
         end;
    eexists; reflexivity.
Qed.

Lemma Derived_segments_exits_1
    (ox oy : float32) (segs : list sfnt.Segment) (r : Rasterizer) :
  exits_1 (rangeM segs (Derived.draw_segment ox oy) r).
Proof.
  apply exits_1_rangeM. intros seg r'.
  destruct (Derived_draw_segment_returns ox oy seg r') as [r'' H].
  rewrite H. exact I.
Qed.

(** An iteration that returned left the pixel width and the cell height
    in [(widthP, heightP)]. *)
Lemma Derived_glyph_Return (f : sfnt_Font) (conf : Derived.Conf)
    (i : Z) (s P : Z * Z) (t : list event) :
  Derived.glyph f conf i s = (t, Return P) ->
  exists m,
    Font_Metrics f (fixed.I (Derived.PPEM conf)) = Ok m
    /\ P = (GoInt.int (Derived.Width conf * 8),
            Derived.cell_height (font.Height m) (Derived.ReduceHeight conf)).
Proof.
  unfold Derived.glyph.
  destruct (Font_GlyphIndex f (GoInt.int32 i)) as [x | e]; [| discriminate].
  destruct (x =? 0); [discriminate |].
  rewrite bind_ret_l.
  destruct (Font_Metrics f (fixed.I (Derived.PPEM conf))) as [m | e];
    [| discriminate].
  destruct (Font_LoadGlyph f x (fixed.I (Derived.PPEM conf)))
    as [segments | e]; [| discriminate].
  intros H. apply bind_Return in H.
  destruct H as (t1 & r & t2 & _ & Hrest & _).
  apply bind_Return in Hrest. destruct Hrest as (t3 & [] & t4 & _ & Hrest & _).
  apply bind_Return in Hrest. destruct Hrest as (t5 & [] & t6 & _ & Hrest & _).
  inversion Hrest; subst. exists m. split; reflexivity.
Qed.

Lemma Derived_glyph_exits_1 (f : sfnt_Font) (conf : Derived.Conf)
    (i : Z) (s : Z * Z) :
  exits_1 (Derived.glyph f conf i s).
Proof.
  unfold Derived.glyph.
  destruct (Font_GlyphIndex f (GoInt.int32 i)) as [x | e]; [| reflexivity].
  apply exits_1_bind.
  { destruct (x =? 0); cbn; auto. }
  intros _.
  destruct (Font_Metrics f (fixed.I (Derived.PPEM conf))) as [m | e];
    [| reflexivity].
  destruct (Font_LoadGlyph f x (fixed.I (Derived.PPEM conf)))
    as [segments | e]; [| reflexivity].
  apply exits_1_bind; [apply Derived_segments_exits_1 |].
  intros r. apply exits_1_bind; [exact I |].
  intros _.
  set (width := GoInt.int (Derived.Width conf * 8)).
  set (height := Derived.cell_height (font.Height m) (Derived.ReduceHeight conf)).
  destruct (print_rows_run
              (Draw r (image.NewAlpha (image.Rect 0 0 width height)))
              width (Z.to_nat height) 0 tt) as (trows & Hrows & _).
  apply exits_1_bind; [rewrite Hrows; exact I |].
  intros _. exact I.
Qed.

(** A run of the metrics variant that read its font and returned went
    through every stage. *)
Lemma Derived_main_inv
    (fs : string -> goerr (list Byte.byte)) (args : list string)
    (err : option flags_error) (conf : Derived.Conf)
    (fontBytes : list Byte.byte) (t : list event) (u : unit) :
  fs (Derived.Font conf) = Ok fontBytes ->
  Derived.main fs args err conf = (t, Return u) ->
  exists f tl widthP heightP,
    sfnt_Parse fontBytes = Ok f
    /\ loopM (Z.to_nat (126 - 32 + 1)) 32 (Derived.glyph f conf) (0, 0)
       = (tl, Return (widthP, heightP))
    /\ t = ReadFile (Derived.Font conf)
           :: Stdout (table_header +++ nl)
           :: tl ++ [Stdout "};"; Stdout (based_on (Derived.Font conf));
                     Stdout (sfont_descriptor widthP heightP)].
Proof.
  intros Hfs Hmain.
  unfold Derived.main in Hmain.
  apply bind_Return in Hmain. destruct Hmain as (t1 & [] & t2 & Herr & Hmain & ->).
  assert (Ht1 : t1 = []).
  { destruct err as [[|] |]; inversion Herr; reflexivity. }
  subst t1.
  apply bind_Return in Hmain. destruct Hmain as (t1 & [] & t3 & Hargs & Hmain & ->).
  assert (Ht1 : t1 = []).
  { destruct (0 <? Z.of_nat (List.length args)); inversion Hargs; reflexivity. }
  subst t1.
  unfold ioutil_ReadFile, bind at 1 in Hmain. rewrite Hfs in Hmain.
  destruct (sfnt_Parse fontBytes) as [f | e]; [| discriminate].
  destruct (bind (fmt_Print (table_header +++ nl)) _) as [t4 r4] eqn:Hbody.
  inversion Hmain; subst t3 r4. clear Hmain.
  apply bind_Return in Hbody. destruct Hbody as (th & [] & t6 & Hhead & Hbody & ->).
  inversion Hhead; subst th.
  apply bind_Return in Hbody.
  destruct Hbody as (tl & [widthP heightP] & t7 & Hloop & Hbody & ->).
  inversion Hbody; subst t7.
  exists f, tl, widthP, heightP. repeat split; try assumption.
Qed.

End DerivedTable.

(** ** The descriptor *)

Section Descriptor.
Context {FB : FontBackend} {RB : RasterBackend}.

(** C1, as the code has it: the first numeric field of the descriptor is
    the pixel width, eight times the [--width] flag, and the second is
    the cell height in rows; in both variants. *)
Theorem C1_descriptor_declares_pixel_width
    (fs : string -> goerr (list Byte.byte)) (args : list string)
    (err : option flags_error)
    (conf_e : Explicit.Conf) (conf_d : Derived.Conf)
    (bytes_e bytes_d : list Byte.byte) :
  (fs (Explicit.Font conf_e) = Ok bytes_e ->
   snd (Explicit.main fs args err conf_e) = Return tt ->
   exists prefix,
     stdout_of (fst (Explicit.main fs args err conf_e))
     = prefix +++ sfont_descriptor (GoInt.int (Explicit.Width conf_e * 8))
                    (Explicit.Height conf_e))
  /\ (fs (Derived.Font conf_d) = Ok bytes_d ->
      snd (Derived.main fs args err conf_d) = Return tt ->
      exists prefix f m,
        sfnt_Parse bytes_d = Ok f
        /\ Font_Metrics f (fixed.I (Derived.PPEM conf_d)) = Ok m
        /\ stdout_of (fst (Derived.main fs args err conf_d))
           = prefix +++ sfont_descriptor (GoInt.int (Derived.Width conf_d * 8))
                          (Derived.cell_height (font.Height m)
                             (Derived.ReduceHeight conf_d))).
Proof.
  split; intros Hfs Hret.
  - destruct (Explicit_main_output fs args err conf_e bytes_e Hfs Hret)
      as (images & _ & Hout).
    eexists. rewrite Hout. rewrite <- !append_assoc. reflexivity.
  - destruct (Derived.main fs args err conf_d) as [t r] eqn:Hmain.
    cbn [fst snd] in *. subst r.
    destruct (Derived_main_inv _ _ _ _ _ _ _ Hfs Hmain)
      as (f & tl & widthP & heightP & Hparse & Hloop & ->).
    change (Z.to_nat (126 - 32 + 1)) with 95%nat in Hloop.
    apply loopM_last in Hloop. destruct Hloop as (s1 & t1 & Hlast).
    apply Derived_glyph_Return in Hlast. destruct Hlast as (m & Hm & HP).
    inversion HP; subst widthP heightP.
    exists (stdout_of (ReadFile (Derived.Font conf_d)
                         :: Stdout (table_header +++ nl)
                         :: tl ++ [Stdout "};";
                                   Stdout (based_on (Derived.Font conf_d))])),
      f, m.
    repeat split; try assumption.
    cbn [stdout_of]. rewrite !stdout_of_app. cbn [stdout_of].
    rewrite !append_nil_r, !append_assoc. reflexivity.
Qed.

End Descriptor.

Lemma C1_descriptor_declares_pixel_width_witness :
  Toy.fs Toy.full_font "font.ttf" = Ok Toy.full_font
  /\ (exists prefix,
        stdout_of
          (fst (Explicit.main (FB := Toy.font_backend) (RB := Toy.raster_backend)
                  (Toy.fs Toy.full_font) [] None Toy.explicit_conf))
        = prefix +++ sfont_descriptor 16 3)
  /\ (exists prefix,
        stdout_of
          (fst (Derived.main (FB := Toy.font_backend) (RB := Toy.raster_backend)
                  (Toy.fs Toy.full_font) [] None Toy.derived_conf))
        = prefix +++ sfont_descriptor 16 3).
Proof.
  assert (Hfs : Toy.fs Toy.full_font "font.ttf" = Ok Toy.full_font)
    by reflexivity.
  pose proof (C1_descriptor_declares_pixel_width
                (FB := Toy.font_backend) (RB := Toy.raster_backend)
                (Toy.fs Toy.full_font) [] None
                Toy.explicit_conf Toy.derived_conf
                Toy.full_font Toy.full_font) as [He Hd].
  split; [exact Hfs |]. split.
  - destruct (He Hfs ltac:(vm_compute; reflexivity)) as [prefix Hp].
    exists prefix. exact Hp.
  - destruct (Hd Hfs ltac:(vm_compute; reflexivity))
      as (prefix & f & m & Hparse & Hm & Hp).
    exists prefix. rewrite Hp.
    vm_compute in Hparse. inversion Hparse; subst f.
    vm_compute in Hm. inversion Hm; subst m.
    reflexivity.
Defined.

(** C1, as the claim has it, fails: with [--width 2] the descriptor of a
    completed run does not declare width 2. *)
Lemma C1_counterexample :
  let run :=
    Explicit.main (FB := Toy.font_backend) (RB := Toy.raster_backend)
      (Toy.fs Toy.full_font) [] None Toy.explicit_conf in
  snd run = Return tt
  /\ ~ (exists prefix,
          stdout_of (fst run)
          = prefix +++ sfont_descriptor (Explicit.Width Toy.explicit_conf)
                         (Explicit.Height Toy.explicit_conf)).
Proof.
  intros run. split; [vm_compute; reflexivity |].
  intros [prefix Hp].
  assert (Hends : ends_with (stdout_of (fst run))
                    (sfont_descriptor (Explicit.Width Toy.explicit_conf)
                       (Explicit.Height Toy.explicit_conf)) = true).
  { rewrite Hp. apply ends_with_app. }
  vm_compute in Hends. discriminate Hends.
Qed.

(** ** A codepoint without a glyph *)

(** A loop whose body dies at iteration [k] is the iterations before it,
    followed by that death. *)
Lemma loopM_fatal_at {S : Type} (body : Z -> S -> Proc S) (n k : nat) (i : Z)
    (msg : string) (s : S) :
  (k < n)%nat ->
  (forall s', body (i + Z.of_nat k) s' = log_Fatal msg) ->
  loopM n i body s = (loopM k i body s ;; log_Fatal msg).
Proof.
  intros Hk Hbody.
  replace n with (k + Datatypes.S (n - k - 1))%nat by lia.
  rewrite loopM_app. apply bind_ext. intros s'.
  cbn [loopM]. rewrite Hbody. reflexivity.
Qed.

Lemma fatal_never_returns {A B : Type} (m : Proc A) (msg : string) (b : B) :
  snd (m ;; log_Fatal msg) <> Return b.
Proof.
  destruct m as [t [a | c]]; cbn; discriminate.
Qed.

Section MissingGlyph.
Context {FB : FontBackend} {RB : RasterBackend}.

Lemma Explicit_glyph_unmapped (f : sfnt_Font) (conf : Explicit.Conf)
    (width height c : Z) (u : unit) :
  - 2 ^ 31 <= c < 2 ^ 31 ->
  Font_GlyphIndex f c = Ok 0 ->
  Explicit.glyph f conf width height c u = log_Fatal (no_glyph_message c).
Proof.
  intros Hc Hidx. unfold Explicit.glyph.
  rewrite int32_small by assumption. rewrite Hidx. reflexivity.
Qed.

Lemma Derived_glyph_unmapped (f : sfnt_Font) (conf : Derived.Conf)
    (c : Z) (s : Z * Z) :
  - 2 ^ 31 <= c < 2 ^ 31 ->
  Font_GlyphIndex f c = Ok 0 ->
  Derived.glyph f conf c s = log_Fatal (no_glyph_message c).
Proof.
  intros Hc Hidx. unfold Derived.glyph.
  rewrite int32_small by assumption. rewrite Hidx. reflexivity.
Qed.

Lemma Explicit_main_exits_1
    (fs : string -> goerr (list Byte.byte)) (conf : Explicit.Conf) :
  exits_1 (Explicit.main fs [] None conf).
Proof.
  unfold Explicit.main.
  apply exits_1_bind; [exact I | intros _].
  apply exits_1_bind; [exact I | intros _].
  apply exits_1_bind; [exact I | intros rd].
  destruct rd as [fontBytes | e]; [| exact I].
  destruct (sfnt_Parse fontBytes) as [f | e]; [| reflexivity].
  apply exits_1_bind; [apply Explicit_debug_report_exits_1 | intros _].
  apply exits_1_bind; [exact I | intros _].
  apply exits_1_bind.
  { apply exits_1_loopM. intros i s. apply Explicit_glyph_exits_1. }
  intros _. apply exits_1_bind; [exact I | intros _].
  apply exits_1_bind; [exact I | intros _]. exact I.
Qed.

Lemma Derived_main_exits_1
    (fs : string -> goerr (list Byte.byte)) (conf : Derived.Conf) :
  exits_1 (Derived.main fs [] None conf).
Proof.
  unfold Derived.main.
  apply exits_1_bind; [exact I | intros _].
  apply exits_1_bind; [exact I | intros _].
  apply exits_1_bind; [exact I | intros rd].
  destruct rd as [fontBytes | e]; [| exact I].
  destruct (sfnt_Parse fontBytes) as [f | e]; [| reflexivity].
  apply exits_1_bind; [exact I | intros _].
  apply exits_1_bind.
  { apply exits_1_loopM. intros i s. apply Derived_glyph_exits_1. }
  intros [widthP heightP]. apply exits_1_bind; [exact I | intros _].
  apply exits_1_bind; [exact I | intros _]. exact I.
Qed.

(** C7: when the backend maps a codepoint [c] of 32..126 to glyph index 0,
    the glyph loop of either variant is the iterations for the codepoints
    before [c] followed by the fatal exit at [c], so that no later
    codepoint is processed; and a run that reaches the loop ends with
    status 1. *)
Theorem C7_missing_glyph_is_fatal (f : sfnt_Font) (c : Z) :
  32 <= c <= 126 ->
  Font_GlyphIndex f c = Ok 0 ->
  (forall (conf : Explicit.Conf) (width height : Z),
      loopM (Z.to_nat (126 - 32 + 1)) 32
        (Explicit.glyph f conf width height) tt
      = (loopM (Z.to_nat (c - 32)) 32 (Explicit.glyph f conf width height) tt ;;
         log_Fatal (no_glyph_message c)))
  /\ (forall (conf : Derived.Conf) (s : Z * Z),
         loopM (Z.to_nat (126 - 32 + 1)) 32 (Derived.glyph f conf) s
         = (loopM (Z.to_nat (c - 32)) 32 (Derived.glyph f conf) s ;;
            log_Fatal (no_glyph_message c)))
  /\ (forall fs (conf : Explicit.Conf) fontBytes,
         fs (Explicit.Font conf) = Ok fontBytes ->
         sfnt_Parse fontBytes = Ok f ->
         snd (Explicit.main fs [] None conf) = Exit 1)
  /\ (forall fs (conf : Derived.Conf) fontBytes,
         fs (Derived.Font conf) = Ok fontBytes ->
         sfnt_Parse fontBytes = Ok f ->
         snd (Derived.main fs [] None conf) = Exit 1).
Proof.
  intros Hc Hidx.
  assert (Hk : (Z.to_nat (c - 32) < Z.to_nat (126 - 32 + 1))%nat) by lia.
  assert (Hat : 32 + Z.of_nat (Z.to_nat (c - 32)) = c) by lia.
  assert (Hc32 : - 2 ^ 31 <= c < 2 ^ 31)
    by (change (2 ^ 31) with 2147483648; lia).
  assert (Hloop_e : forall (conf : Explicit.Conf) (width height : Z),
             loopM (Z.to_nat (126 - 32 + 1)) 32
               (Explicit.glyph f conf width height) tt
             = (loopM (Z.to_nat (c - 32)) 32
                  (Explicit.glyph f conf width height) tt ;;
                log_Fatal (no_glyph_message c))).
  { intros conf width height. apply loopM_fatal_at; [exact Hk |].
    intros s'. rewrite Hat. apply Explicit_glyph_unmapped; assumption. }
  assert (Hloop_d : forall (conf : Derived.Conf) (s : Z * Z),
             loopM (Z.to_nat (126 - 32 + 1)) 32 (Derived.glyph f conf) s
             = (loopM (Z.to_nat (c - 32)) 32 (Derived.glyph f conf) s ;;
                log_Fatal (no_glyph_message c))).
  { intros conf s. apply loopM_fatal_at; [exact Hk |].
    intros s'. rewrite Hat. apply Derived_glyph_unmapped; assumption. }
  split; [exact Hloop_e |]. split; [exact Hloop_d |]. split.
  - intros fs conf fontBytes Hfs Hparse.
    pose proof (Explicit_main_exits_1 fs conf) as Hexit.
    unfold exits_1 in Hexit.
    destruct (Explicit.main fs [] None conf) as [t [[] | code]] eqn:Hmain;
      cbn [snd] in *; [| congruence].
    exfalso.
    destruct (Explicit_main_inv _ _ _ _ _ _ _ Hfs Hmain)
      as (f' & td & tl & Hparse' & _ & Hloop & _).
    rewrite Hparse in Hparse'. inversion Hparse'; subst f'.
    rewrite Hloop_e in Hloop.
    apply (fatal_never_returns
             (loopM (Z.to_nat (c - 32)) 32
                (Explicit.glyph f conf (GoInt.int (Explicit.Width conf * 8))
                   (Explicit.Height conf)) tt)
             (no_glyph_message c) tt).
    rewrite Hloop. reflexivity.
  - intros fs conf fontBytes Hfs Hparse.
    pose proof (Derived_main_exits_1 fs conf) as Hexit.
    unfold exits_1 in Hexit.
    destruct (Derived.main fs [] None conf) as [t [[] | code]] eqn:Hmain;
      cbn [snd] in *; [| congruence].
    exfalso.
    destruct (Derived_main_inv _ _ _ _ _ _ _ Hfs Hmain)
      as (f' & tl & widthP & heightP & Hparse' & Hloop & _).
    rewrite Hparse in Hparse'. inversion Hparse'; subst f'.
    rewrite Hloop_d in Hloop.
    apply (fatal_never_returns
             (loopM (Z.to_nat (c - 32)) 32 (Derived.glyph f conf) (0, 0))
             (no_glyph_message c) (widthP, heightP)).
    rewrite Hloop. reflexivity.
Qed.

End MissingGlyph.

Lemma C7_missing_glyph_is_fatal_witness :
  32 <= 100 <= 126
  /\ Font_GlyphIndex (FontBackend := Toy.font_backend)
       {| Toy.line_height := 8; Toy.tilde_op := 1; Toy.unmapped := [100] |} 100
     = Ok 0
  /\ snd (Explicit.main (FB := Toy.font_backend) (RB := Toy.raster_backend)
            (Toy.fs Toy.font_without_d) [] None Toy.explicit_conf) = Exit 1
  /\ snd (Derived.main (FB := Toy.font_backend) (RB := Toy.raster_backend)
            (Toy.fs Toy.font_without_d) [] None Toy.derived_conf) = Exit 1.
Proof.
  assert (Hc : 32 <= 100 <= 126) by lia.
  assert (Hidx : Font_GlyphIndex (FontBackend := Toy.font_backend)
                   {| Toy.line_height := 8; Toy.tilde_op := 1;
                      Toy.unmapped := [100] |} 100 = Ok 0) by reflexivity.
  pose proof (C7_missing_glyph_is_fatal
                (FB := Toy.font_backend) (RB := Toy.raster_backend)
                _ 100 Hc Hidx) as (_ & _ & He & Hd).
  split; [exact Hc |]. split; [exact Hidx |]. split.
  - apply (He (Toy.fs Toy.font_without_d) Toy.explicit_conf Toy.font_without_d);
      reflexivity.
  - apply (Hd (Toy.fs Toy.font_without_d) Toy.derived_conf Toy.font_without_d);
      reflexivity.
Defined.

(** The run on the font without a glyph for codepoint 100 stops there: the
    last block written is the one of codepoint 99. *)
Example missing_glyph_run :
  let run :=
    Explicit.main (FB := Toy.font_backend) (RB := Toy.raster_backend)
      (Toy.fs Toy.font_without_d) [] None Toy.explicit_conf in
  snd run = Exit 1
  /\ last (fst run) (Stdout EmptyString) = Stderr (no_glyph_message 100)
  /\ existsb (fun e => match e with
                       | Stdout s => String.eqb s (glyph_comment 99)
                       | _ => false
                       end) (fst run) = true
  /\ existsb (fun e => match e with
                       | Stdout s => String.eqb s (glyph_comment 100)
                                     || String.eqb s (glyph_comment 101)
                       | _ => false
                       end) (fst run) = false.
Proof. cbv zeta. repeat split; vm_compute; reflexivity. Qed.

(** ** Concrete runs of the packer and of the table *)

Lemma C4_threshold_at_64_witness :
  0 <= 1 < 16
  /\ image.AlphaAt Toy.boundary_row 0 0 = 63
  /\ image.AlphaAt Toy.boundary_row 1 0 = 64
  /\ Z.testbit (nth (Z.to_nat (0 / 8)) (row_bytes Toy.boundary_row 16 0) 0)
       (7 - 0 mod 8) = false
  /\ Z.testbit (nth (Z.to_nat (1 / 8)) (row_bytes Toy.boundary_row 16 0) 0)
       (7 - 1 mod 8) = true.
Proof.
  assert (H0 : 0 <= 0 < 16) by lia.
  assert (H1 : 0 <= 1 < 16) by lia.
  assert (Ha0 : image.AlphaAt Toy.boundary_row 0 0 = 63) by reflexivity.
  assert (Ha1 : image.AlphaAt Toy.boundary_row 1 0 = 64) by reflexivity.
  split; [exact H1 |]. split; [exact Ha0 |]. split; [exact Ha1 |]. split.
  - exact (proj1 (proj2 (C4_threshold_at_64 Toy.boundary_row 16 0 0 H0)) Ha0).
  - exact (proj2 (proj2 (C4_threshold_at_64 Toy.boundary_row 16 0 1 H1)) Ha1).
Defined.

Lemma C6_msb_first_row_witness :
  0 <= 20
  /\ row_bytes Toy.left_byte_row 20 0 = [255; 0; 0]
  /\ row_bytes leftmost_pixel_row 20 0 = [128; 0; 0].
Proof.
  assert (Hw : 0 <= 20) by lia.
  split; [exact Hw |]. split.
  - apply (proj1 (proj2 (proj2 (proj2
             (C6_msb_first_row Toy.left_byte_row 20 0 Hw))))).
    + lia.
    + intros x Hx.
      assert (Hcases : x = 0 \/ x = 1 \/ x = 2 \/ x = 3 \/ x = 4 \/ x = 5
                       \/ x = 6 \/ x = 7) by lia.
      destruct Hcases as [-> | [-> | [-> | [-> | [-> | [-> | [-> | ->]]]]]]];
        vm_compute; discriminate.
    + intros x Hx.
      assert (Hcases : x = 8 \/ x = 9 \/ x = 10 \/ x = 11 \/ x = 12 \/ x = 13
                       \/ x = 14 \/ x = 15 \/ x = 16 \/ x = 17 \/ x = 18
                       \/ x = 19) by lia.
      destruct Hcases
        as [-> | [-> | [-> | [-> | [-> | [-> | [-> | [-> | [-> | [-> | [-> | ->]]]]]]]]]]];
        reflexivity.
  - apply (proj2 (proj2 (proj2 (proj2
             (C6_msb_first_row leftmost_pixel_row 20 0 Hw))))).
    + lia.
    + vm_compute. discriminate.
    + intros x Hx.
      assert (Hcases : x = 1 \/ x = 2 \/ x = 3 \/ x = 4 \/ x = 5 \/ x = 6
                       \/ x = 7 \/ x = 8 \/ x = 9 \/ x = 10 \/ x = 11
                       \/ x = 12 \/ x = 13 \/ x = 14 \/ x = 15 \/ x = 16
                       \/ x = 17 \/ x = 18 \/ x = 19) by lia.
      repeat (destruct Hcases as [-> | Hcases]; [reflexivity |]).
      subst x. reflexivity.
Defined.

Lemma C5_table_is_complete_witness :
  Toy.fs Toy.full_font "font.ttf" = Ok Toy.full_font
  /\ snd (Explicit.main (FB := Toy.font_backend) (RB := Toy.raster_backend)
            (Toy.fs Toy.full_font) [] None Toy.explicit_conf) = Return tt
  /\ 0 <= 3
  /\ exists images,
       stdout_of
         (fst (Explicit.main (FB := Toy.font_backend) (RB := Toy.raster_backend)
                 (Toy.fs Toy.full_font) [] None Toy.explicit_conf))
       = (table_header +++ nl)
           +++ cat (map (glyph_block 16 3) (combine codepoints images))
           +++ "};" +++ based_on "font.ttf" +++ sfont_descriptor 16 3.
Proof.
  assert (Hfs : Toy.fs Toy.full_font "font.ttf" = Ok Toy.full_font)
    by reflexivity.
  assert (Hret : snd (Explicit.main (FB := Toy.font_backend)
                        (RB := Toy.raster_backend)
                        (Toy.fs Toy.full_font) [] None Toy.explicit_conf)
                 = Return tt) by (vm_compute; reflexivity).
  assert (Hh : 0 <= 3) by lia.
  split; [exact Hfs |]. split; [exact Hret |]. split; [exact Hh |].
  destruct (C5_table_is_complete
              (FB := Toy.font_backend) (RB := Toy.raster_backend)
              (Toy.fs Toy.full_font) [] None Toy.explicit_conf Toy.full_font
              Hfs Hret Hh) as (images & Hout & _).
  exists images. exact Hout.
Defined.

(** * Further properties of the code *)

(** ** The picture comment and the packed bytes of a row *)

Lemma length_append (s1 s2 : string) :
  String.length (s1 +++ s2) = (String.length s1 + String.length s2)%nat.
Proof.
  induction s1 as [| c s1 IH]; cbn [String.append String.length];
    [reflexivity | rewrite IH; reflexivity].
Qed.

Lemma pixel_loop_picture (dst : image.Alpha) (y : Z) (k : nat) :
  forall (x : Z) (w : bitio.Writer) (tmp : string),
    snd (for_range k x (pack_pixel dst y) (w, tmp))
    = tmp +++ picture (pixel_bit dst y) x k.
Proof.
  induction k as [| k IH]; intros x w tmp; cbn [for_range picture].
  - cbn [snd]. symmetry. apply append_nil_r.
  - rewrite pack_pixel_eq, IH, append_assoc.
    destruct (pixel_bit dst y x); reflexivity.
Qed.

Lemma row_picture_eq (dst : image.Alpha) (width y : Z) :
  row_picture dst width y = picture (pixel_bit dst y) 0 (Z.to_nat width).
Proof.
  unfold row_picture, pack_row.
  pose proof (pixel_loop_picture dst y (Z.to_nat width) 0 bitio.NewWriter
                EmptyString) as H.
  destruct (for_range (Z.to_nat width) 0 (pack_pixel dst y)
              (bitio.NewWriter, EmptyString)) as [w tmp].
  cbn [snd] in *. exact H.
Qed.

Lemma length_picture (f : Z -> bool) (n : nat) :
  forall i, String.length (picture f i n) = n.
Proof.
  induction n as [| n IH]; intros i; cbn [picture String.length];
    [reflexivity | rewrite IH; reflexivity].
Qed.

Lemma get_picture (f : Z -> bool) (n : nat) :
  forall (i : Z) (k : nat),
    (k < n)%nat ->
    String.get k (picture f i n)
    = Some (if f (i + Z.of_nat k) then "#"%char else "."%char).
Proof.
  induction n as [| n IH]; intros i k Hk; [lia |].
  cbn [picture]. destruct k as [| k]; cbn [String.get].
  - replace (i + Z.of_nat 0) with i by lia. reflexivity.
  - rewrite IH by lia. replace (i + 1 + Z.of_nat k) with (i + Z.of_nat (S k)) by lia.
    reflexivity.
Qed.

(** X1: the picture comment of a row has one character per pixel, and the
    character of pixel [x] is [#] when its coverage is at least 64 and [.]
    otherwise. *)
Theorem X1_row_picture (dst : image.Alpha) (width y : Z) :
  String.length (row_picture dst width y) = Z.to_nat width
  /\ forall x, 0 <= x < width ->
       String.get (Z.to_nat x) (row_picture dst width y)
       = Some (if 64 <=? image.AlphaAt dst x y then "#"%char else "."%char).
Proof.
  rewrite row_picture_eq. split.
  - apply length_picture.
  - intros x Hx. rewrite get_picture by lia.
    rewrite Z2Nat.id by lia. reflexivity.
Qed.

Lemma X1_row_picture_witness :
  0 <= 1 < 16
  /\ String.get (Z.to_nat 1) (row_picture Toy.boundary_row 16 0) = Some "#"%char
  /\ String.get (Z.to_nat 0) (row_picture Toy.boundary_row 16 0) = Some "."%char.
Proof.
  assert (H0 : 0 <= 0 < 16) by lia.
  assert (H1 : 0 <= 1 < 16) by lia.
  split; [exact H1 |]. split.
  - exact (proj2 (X1_row_picture Toy.boundary_row 16 0) 1 H1).
  - exact (proj2 (X1_row_picture Toy.boundary_row 16 0) 0 H0).
Defined.

Lemma packed_bit_at (dst : image.Alpha) (width y x : Z) :
  0 <= x < width ->
  Z.testbit (nth (Z.to_nat (x / 8)) (row_bytes dst width y) 0) (7 - x mod 8)
  = pixel_bit dst y x.
Proof.
  intros Hx.
  destruct (row_bytes_packed dst width y) as [Hpk _]; [lia |].
  rewrite Hpk. unfold row_bit. rewrite Z2Nat.id by lia.
  replace (8 * (x / 8) + 7 - (7 - x mod 8)) with x by lia.
  destruct (Z.leb_spec 0 (7 - x mod 8)); [| lia].
  destruct (Z.ltb_spec (7 - x mod 8) 8); [| lia].
  destruct (Z.ltb_spec x width); [| lia].
  reflexivity.
Qed.

(** X2: the picture comment of a row agrees with its bytes: the character
    of pixel [x] is [#] exactly when bit [7 - x mod 8] of byte [x / 8] is
    set. *)
Theorem X2_picture_agrees_with_bytes (dst : image.Alpha) (width y x : Z) :
  0 <= x < width ->
  (String.get (Z.to_nat x) (row_picture dst width y) = Some "#"%char
   <-> Z.testbit (nth (Z.to_nat (x / 8)) (row_bytes dst width y) 0)
         (7 - x mod 8) = true).
Proof.
  intros Hx. rewrite packed_bit_at by assumption.
  rewrite row_picture_eq, get_picture by lia.
  rewrite Z2Nat.id by lia. cbn [Z.add].
  destruct (pixel_bit dst y x); split; intros H; try reflexivity;
    discriminate H.
Qed.

Lemma X2_picture_agrees_with_bytes_witness :
  0 <= 3 < 16
  /\ String.get (Z.to_nat 3) (row_picture Toy.boundary_row 16 0) = Some "#"%char.
Proof.
  assert (H : 0 <= 3 < 16) by lia.
  split; [exact H |].
  apply (proj2 (X2_picture_agrees_with_bytes Toy.boundary_row 16 0 3 H)).
  reflexivity.
Defined.

Lemma byte_of_low_bits (o : Z) :
  (forall j, 8 <= j -> Z.testbit o j = false) -> 0 <= o < 256.
Proof.
  intros Hhigh.
  assert (Heq : o = o mod 2 ^ 8).
  { apply Z.bits_inj'. intros j Hj.
    rewrite Z.testbit_mod_pow2 by lia.
    destruct (Z.ltb_spec j 8); [reflexivity |].
    apply Hhigh. assumption. }
  rewrite Heq. change (2 ^ 8) with 256. apply Z.mod_pos_bound. lia.
Qed.

Lemma row_bytes_are_bytes (dst : image.Alpha) (width y : Z) :
  0 <= width -> Forall (fun o => 0 <= o < 256) (row_bytes dst width y).
Proof.
  intros Hw. destruct (row_bytes_packed dst width y Hw) as [Hpk _].
  apply Forall_forall. intros o Ho.
  apply (In_nth _ _ 0) in Ho. destruct Ho as (i & _ & <-).
  apply byte_of_low_bits. intros j Hj.
  rewrite Hpk. unfold row_bit.
  destruct (Z.leb_spec 0 j); cbn [andb]; [| reflexivity].
  destruct (Z.ltb_spec j 8); [lia | reflexivity].
Qed.

(** X3: a row of [width >= 0] pixels packs to exactly [ceil(width / 8)]
    bytes, whatever the coverage, and each of them is a byte, between 0
    and 255. *)
Theorem X3_row_byte_count (dst : image.Alpha) (width y : Z) :
  0 <= width ->
  Z.of_nat (List.length (row_bytes dst width y)) = (width + 7) / 8
  /\ Forall (fun o => 0 <= o < 256) (row_bytes dst width y).
Proof.
  intros Hw. split.
  - exact (proj2 (row_bytes_packed dst width y Hw)).
  - apply row_bytes_are_bytes. assumption.
Qed.

Lemma X3_row_byte_count_witness :
  0 <= 20
  /\ Z.of_nat (List.length (row_bytes Toy.left_byte_row 20 0)) = 3.
Proof.
  assert (H : 0 <= 20) by lia.
  split; [exact H |].
  exact (proj1 (X3_row_byte_count Toy.left_byte_row 20 0 H)).
Defined.

Lemma int_multiple_of_8 (W : Z) : GoInt.int (W * 8) mod 8 = 0.
Proof.
  unfold GoInt.int, GoInt.wrap.
  change (2 ^ (64 - 1)) with 9223372036854775808.
  change (2 ^ 64) with 18446744073709551616.
  lia.
Qed.

(** X4: the pixel width [conf.Width * 8] the rows are packed at is a
    multiple of 8 for every value of the flag, wrap-around included, so a
    row of the table is never padded: when the pixel width is not negative
    a row has exactly one byte per eight pixels, and for a flag between 0
    and 2^60 that is the flag itself. *)
Theorem X4_rows_are_never_padded (dst : image.Alpha) (W y : Z) :
  let width := GoInt.int (W * 8) in
  width mod 8 = 0
  /\ (0 <= width ->
      8 * Z.of_nat (List.length (row_bytes dst width y)) = width)
  /\ (0 <= W < 2 ^ 60 ->
      Z.of_nat (List.length (row_bytes dst width y)) = W).
Proof.
  intros width. pose proof (int_multiple_of_8 W) as Hmod. fold width in Hmod.
  split; [exact Hmod |]. split.
  - intros Hw. destruct (row_bytes_packed dst width y Hw) as [_ Hlen].
    rewrite Hlen. lia.
  - intros HW. change (2 ^ 60) with 1152921504606846976 in HW.
    assert (Hwidth : width = W * 8).
    { subst width. apply int_small. unfold GoInt.in_int.
      change (2 ^ 63) with 9223372036854775808. lia. }
    destruct (row_bytes_packed dst width y) as [_ Hlen]; [lia |].
    rewrite Hlen, Hwidth. lia.
Qed.

Lemma X4_rows_are_never_padded_witness :
  0 <= 2 < 2 ^ 60
  /\ Z.of_nat (List.length (row_bytes Toy.boundary_row (GoInt.int (2 * 8)) 0)) = 2.
Proof.
  assert (H : 0 <= 2 < 2 ^ 60) by (split; [lia | reflexivity]).
  split; [exact H |].
  exact (proj2 (proj2 (X4_rows_are_never_padded Toy.boundary_row 2 0)) H).
Defined.

Lemma for_range_ext {S : Type} (body1 body2 : Z -> S -> S) (n : nat) :
  forall (i : Z) (s : S),
    (forall x s', i <= x < i + Z.of_nat n -> body1 x s' = body2 x s') ->
    for_range n i body1 s = for_range n i body2 s.
Proof.
  induction n as [| n IH]; intros i s Hbody; cbn [for_range]; [reflexivity |].
  rewrite Hbody by lia. apply IH. intros x s' Hx. apply Hbody. lia.
Qed.

(** X5: packing sees the coverage only through the threshold: two rows
    whose pixels fall on the same side of 64 pack to the same bytes and the
    same picture. *)
Theorem X5_packing_depends_on_threshold_only
    (dst1 dst2 : image.Alpha) (width y1 y2 : Z) :
  (forall x, 0 <= x < width ->
     (64 <=? image.AlphaAt dst1 x y1) = (64 <=? image.AlphaAt dst2 x y2)) ->
  pack_row dst1 width y1 = pack_row dst2 width y2.
Proof.
  intros Hsame. unfold pack_row.
  rewrite (for_range_ext (pack_pixel dst1 y1) (pack_pixel dst2 y2)).
  - reflexivity.
  - intros x [w tmp] Hx. rewrite !pack_pixel_eq. unfold pixel_bit.
    rewrite Hsame by lia. reflexivity.
Qed.

Lemma X5_packing_depends_on_threshold_only_witness :
  pack_row Toy.boundary_row 16 0 = pack_row saturated_row 16 0.
Proof.
  apply X5_packing_depends_on_threshold_only.
  intros x Hx.
  assert (Hcases : x = 0 \/ x = 1 \/ x = 2 \/ x = 3 \/ x = 4 \/ x = 5
                   \/ x = 6 \/ x = 7 \/ x = 8 \/ x = 9 \/ x = 10 \/ x = 11
                   \/ x = 12 \/ x = 13 \/ x = 14 \/ x = 15) by lia.
  repeat (destruct Hcases as [-> | Hcases]; [reflexivity |]).
  subst x. reflexivity.
Defined.

(** ** The text of a row *)

Lemma length_hex_byte (o : Z) : String.length (hex_byte o) = 6%nat.
Proof. reflexivity. Qed.

Lemma length_cat_hex (bytes : list Z) :
  String.length (cat (map hex_byte bytes)) = (6 * List.length bytes)%nat.
Proof.
  induction bytes as [| o bytes IH]; [reflexivity |].
  cbn [map cat fold_right List.length].
  rewrite length_append, length_hex_byte.
  change (fold_right String.append EmptyString (map hex_byte bytes))
    with (cat (map hex_byte bytes)).
  rewrite IH. lia.
Qed.

(** X6: every row line of a table of pixel width [width >= 0] has the same
    length, 7 + 6 * ceil(width / 8) + width characters: the indentation,
    six characters per byte, the comment sign, the picture and the
    newline; the picture comments of a table are aligned. *)
Theorem X6_row_lines_have_one_length (dst : image.Alpha) (width y : Z) :
  0 <= width ->
  Z.of_nat (String.length (row_line (pack_row dst width y)))
  = 7 + 6 * ((width + 7) / 8) + width.
Proof.
  intros Hw. unfold row_line.
  destruct (row_bytes_packed dst width y Hw) as [_ Hlen].
  pose proof (row_picture_eq dst width y) as Hpic.
  unfold row_bytes, row_picture in *.
  destruct (pack_row dst width y) as [bytes tmp]. cbn [fst snd] in *.
  rewrite !length_append, length_cat_hex, Hpic, length_picture.
  cbn [String.length nl]. lia.
Qed.

Lemma X6_row_lines_have_one_length_witness :
  0 <= 16
  /\ Z.of_nat (String.length (row_line (pack_row Toy.boundary_row 16 0))) = 35.
Proof.
  assert (H : 0 <= 16) by lia.
  split; [exact H |].
  exact (X6_row_lines_have_one_length Toy.boundary_row 16 0 H).
Defined.

Lemma hex_decode_byte (o : Z) :
  0 <= o < 256 -> hex_decode (hex_byte o) = Some o.
Proof.
  intros Ho.
  assert (Hall : forallb (fun v => match hex_decode (hex_byte v) with
                                   | Some v' => v' =? v
                                   | None => false
                                   end) (range 0 256) = true)
    by (vm_compute; reflexivity).
  rewrite forallb_forall in Hall.
  specialize (Hall o). rewrite In_range in Hall.
  specialize (Hall ltac:(lia)).
  destruct (hex_decode (hex_byte o)) as [v |]; [| discriminate].
  apply Z.eqb_eq in Hall. subst v. reflexivity.
Qed.

(** X7: the hexadecimal entries printed for a row read back as its packed
    bytes: each byte is printed as [0xHH, ] with two upper-case digits
    whose value is the byte. *)
Theorem X7_hex_entries_read_back (dst : image.Alpha) (width y : Z) :
  0 <= width ->
  map hex_decode (map hex_byte (row_bytes dst width y))
  = map Some (row_bytes dst width y).
Proof.
  intros Hw. pose proof (row_bytes_are_bytes dst width y Hw) as Hbytes.
  induction Hbytes as [| o bytes Ho _ IH]; [reflexivity |].
  cbn [map]. rewrite hex_decode_byte by assumption. rewrite IH. reflexivity.
Qed.

Lemma X7_hex_entries_read_back_witness :
  0 <= 16
  /\ map hex_byte (row_bytes Toy.boundary_row 16 0) = ["0x5A, "; "0xA3, "]
  /\ map hex_decode (map hex_byte (row_bytes Toy.boundary_row 16 0))
     = [Some 90; Some 163].
Proof.
  assert (H : 0 <= 16) by lia.
  split; [exact H |]. split; [reflexivity |].
  rewrite (X7_hex_entries_read_back Toy.boundary_row 16 0 H). reflexivity.
Defined.

(** X8: with a pixel width that is not positive the pixel loop does not
    run: the row has no byte and an empty picture, and its line is the
    indentation and the comment sign alone. *)
Theorem X8_non_positive_width_gives_empty_rows
    (dst : image.Alpha) (width y : Z) :
  width <= 0 ->
  pack_row dst width y = ([], EmptyString)
  /\ print_row dst width y tt
     = ([Stdout "  "; Stdout " // "; Stdout nl], Return tt).
Proof.
  intros Hw.
  assert (Hrow : pack_row dst width y = ([], EmptyString)).
  { unfold pack_row. replace (Z.to_nat width) with 0%nat by lia. reflexivity. }
  split; [exact Hrow |].
  unfold print_row. rewrite Hrow. reflexivity.
Qed.

Lemma X8_non_positive_width_gives_empty_rows_witness :
  GoInt.int (-1 * 8) <= 0
  /\ pack_row Toy.boundary_row (GoInt.int (-1 * 8)) 0 = ([], EmptyString).
Proof.
  assert (H : GoInt.int (-1 * 8) <= 0) by (vm_compute; discriminate).
  split; [exact H |].
  exact (proj1 (X8_non_positive_width_gives_empty_rows
                  Toy.boundary_row (GoInt.int (-1 * 8)) 0 H)).
Defined.

(** ** The shape of the traces *)

Lemma stdout_of_row_events (r : list Z * string) :
  stdout_of (row_events r) = row_line r.
Proof.
  unfold row_events, row_line. cbn [stdout_of].
  rewrite stdout_of_app, stdout_of_bytes. cbn [stdout_of].
  rewrite append_nil_r. reflexivity.
Qed.

Lemma stdout_of_rows (rows : list (list Z * string)) :
  stdout_of (flat_map row_events rows) = cat (map row_line rows).
Proof.
  induction rows as [| r rows IH]; [reflexivity |].
  cbn [flat_map map cat fold_right].
  rewrite stdout_of_app, stdout_of_row_events, IH. reflexivity.
Qed.

Lemma stdout_of_block_events (width height : Z) (b : Z * image.Alpha) :
  stdout_of (block_events width height b) = glyph_block width height b.
Proof.
  unfold block_events, glyph_block. cbn [stdout_of].
  rewrite stdout_of_rows. reflexivity.
Qed.

Lemma stdout_of_blocks (width height : Z) (bs : list (Z * image.Alpha)) :
  stdout_of (flat_map (block_events width height) bs)
  = cat (map (glyph_block width height) bs).
Proof.
  induction bs as [| b bs IH]; [reflexivity |].
  cbn [flat_map map cat fold_right].
  rewrite stdout_of_app, stdout_of_block_events, IH. reflexivity.
Qed.

Lemma reads_of_row_events (r : list Z * string) : reads_of (row_events r) = [].
Proof.
  unfold row_events. cbn [reads_of]. rewrite reads_of_app. cbn [reads_of].
  rewrite app_nil_r. induction (fst r) as [| o l IH]; [reflexivity | exact IH].
Qed.

Lemma stderr_of_app (t1 t2 : list event) :
  stderr_of (t1 ++ t2) = stderr_of t1 ++ stderr_of t2.
Proof.
  induction t1 as [| [s | s | p] t1 IH]; cbn [stderr_of app]; try assumption.
  - reflexivity.
  - rewrite IH. reflexivity.
Qed.

Lemma stderr_of_row_events (r : list Z * string) : stderr_of (row_events r) = [].
Proof.
  unfold row_events. cbn [stderr_of]. rewrite stderr_of_app. cbn [stderr_of].
  rewrite app_nil_r. induction (fst r) as [| o l IH]; [reflexivity | exact IH].
Qed.

Lemma reads_of_blocks (width height : Z) (bs : list (Z * image.Alpha)) :
  reads_of (flat_map (block_events width height) bs) = [].
Proof.
  induction bs as [| b bs IH]; [reflexivity |].
  cbn [flat_map]. rewrite reads_of_app, IH, app_nil_r.
  unfold block_events. cbn [reads_of].
  induction (block_rows (snd b) width height) as [| r rows IHr];
    [reflexivity |].
  cbn [flat_map]. rewrite reads_of_app, reads_of_row_events, IHr. reflexivity.
Qed.

Lemma stderr_of_blocks (width height : Z) (bs : list (Z * image.Alpha)) :
  stderr_of (flat_map (block_events width height) bs) = [].
Proof.
  induction bs as [| b bs IH]; [reflexivity |].
  cbn [flat_map]. rewrite stderr_of_app, IH, app_nil_r.
  unfold block_events. cbn [stderr_of].
  induction (block_rows (snd b) width height) as [| r rows IHr];
    [reflexivity |].
  cbn [flat_map]. rewrite stderr_of_app, stderr_of_row_events, IHr. reflexivity.
Qed.

Lemma print_row_events (dst : image.Alpha) (width y : Z) (u : unit) :
  print_row dst width y u = (row_events (pack_row dst width y), Return tt).
Proof.
  unfold print_row, row_events.
  destruct (pack_row dst width y) as [bytes tmp]. cbn [fst snd].
  rewrite print_bytes_run. reflexivity.
Qed.

Lemma print_rows_events (dst : image.Alpha) (width : Z) (n : nat) :
  forall (y0 : Z) (u : unit),
    loopM n y0 (print_row dst width) u
    = (flat_map row_events (map (pack_row dst width) (range y0 n)), Return tt).
Proof.
  induction n as [| n IH]; intros y0 u; cbn [loopM range map flat_map].
  - destruct u. reflexivity.
  - rewrite print_row_events. unfold bind. rewrite IH. reflexivity.
Qed.

Section ExplicitShape.
Context {FB : FontBackend} {RB : RasterBackend}.

Lemma Explicit_segments_shape
    (ox oy : float32) (segs : list sfnt.Segment) :
  forall r : Rasterizer,
    (exists r', rangeM segs (Explicit.draw_segment ox oy) r = ([], Return r'))
    \/ (exists m, rangeM segs (Explicit.draw_segment ox oy) r
                  = ([Stderr m], Exit 1)).
Proof.
  induction segs as [| seg segs IH]; intros r; cbn [rangeM].
  - left. exists r. reflexivity.
  - destruct (Explicit_draw_segment_cases ox oy seg r) as [[r' H] | [m H]];
      rewrite H.
    + destruct (IH r') as [[r'' H'] | [m H']].
      * left. exists r''. unfold bind. rewrite H'. reflexivity.
      * right. exists m. unfold bind. rewrite H'. reflexivity.
    + right. exists m. reflexivity.
Qed.

(** An iteration of the glyph loop either dies with one log line, having
    printed nothing, or prints the whole block. *)
Lemma Explicit_glyph_shape (f : sfnt_Font) (conf : Explicit.Conf)
    (width height i : Z) (u : unit) :
  (exists msg,
      Explicit.glyph f conf width height i u = ([Stderr msg], Exit 1))
  \/ (exists dst,
         Explicit.glyph f conf width height i u
         = (block_events width height (GoInt.int32 i, dst), Return tt)).
Proof.
  unfold Explicit.glyph.
  destruct (Font_GlyphIndex f (GoInt.int32 i)) as [x | e];
    [| left; eexists; reflexivity].
  destruct (x =? 0); [left; eexists; reflexivity |].
  rewrite bind_ret_l.
  destruct (Font_LoadGlyph f x (fixed.I (Explicit.PPEM conf)))
    as [segments | e]; [| left; eexists; reflexivity].
  destruct (Explicit_segments_shape
              (float32_of_int (Explicit.Xoffset conf))
              (float32_of_int (Explicit.Yoffset conf)) segments
              (set_DrawOp_Src (NewRasterizer width height)))
    as [[r H] | [m H]]; rewrite H.
  - right. exists (Draw r (image.NewAlpha (image.Rect 0 0 width height))).
    unfold bind, fmt_Print. rewrite print_rows_events. reflexivity.
  - left. exists m. reflexivity.
Qed.

(** The glyph loop prints whole blocks for a prefix of its codepoints, and
    then either is through or dies with one log line. *)
Lemma Explicit_glyphs_shape (f : sfnt_Font) (conf : Explicit.Conf)
    (width height : Z) (n : nat) :
  forall (i : Z) (u : unit),
    0 <= i -> i + Z.of_nat n <= 2 ^ 31 ->
    exists images,
      (List.length images = n
       /\ loopM n i (Explicit.glyph f conf width height) u
          = (flat_map (block_events width height) (combine (range i n) images),
             Return tt))
      \/ ((List.length images < n)%nat
          /\ exists msg,
               loopM n i (Explicit.glyph f conf width height) u
               = (flat_map (block_events width height)
                    (combine (range i n) images) ++ [Stderr msg],
                  Exit 1)).
Proof.
  induction n as [| n IH]; intros i u Hi Hn.
  - exists []. left. destruct u. split; reflexivity.
  - cbn [loopM range].
    destruct (Explicit_glyph_shape f conf width height i u)
      as [[msg H] | [dst H]]; rewrite H.
    + exists []. right. split; [cbn; lia |]. exists msg. reflexivity.
    + rewrite int32_small by (change (2 ^ 31) with 2147483648 in *; lia).
      destruct (IH (i + 1) tt ltac:(lia) ltac:(lia))
        as [images [[Hlen Hloop] | [Hlen [msg Hloop]]]].
      * exists (dst :: images). left. split; [cbn; lia |].
        unfold bind. rewrite Hloop. reflexivity.
      * exists (dst :: images). right. split; [cbn; lia |].
        exists msg. unfold bind. rewrite Hloop.
        cbn [combine flat_map]. rewrite app_assoc. reflexivity.
Qed.

Lemma Explicit_debug_report_shape (f : sfnt_Font) (conf : Explicit.Conf) :
  Explicit.debug_report f conf
  = if Explicit.Debug conf then
      match Font_Metrics f (fixed.I (Explicit.PPEM conf)) with
      | Err e => ([Stderr ("could not get font metrics: " +++ e)], Exit 1)
      | Ok i => (debug_events i conf, Return tt)
      end
    else ([], Return tt).
Proof.
  unfold Explicit.debug_report.
  destruct (Explicit.Debug conf); [| reflexivity].
  destruct (Font_Metrics f (fixed.I (Explicit.PPEM conf))); reflexivity.
Qed.

End ExplicitShape.

Section MainShape.
Context {FB : FontBackend} {RB : RasterBackend}.

Lemma Explicit_main_skeleton
    (fs : string -> goerr (list Byte.byte)) (args : list string)
    (err : option flags_error) (conf : Explicit.Conf) :
  Explicit.main fs args err conf
  = main_skeleton fs args err (Explicit.Font conf)
      (fun f => Explicit_after_parse f conf).
Proof.
  unfold Explicit.main, main_skeleton.
  destruct err as [[|] |]; try reflexivity.
  rewrite bind_ret_l.
  destruct (0 <? Z.of_nat (List.length args)); [reflexivity |].
  rewrite bind_ret_l. unfold ioutil_ReadFile, bind at 1.
  destruct (fs (Explicit.Font conf)) as [fontBytes | e]; [| reflexivity].
  destruct (sfnt_Parse fontBytes) as [f | e]; [| reflexivity].
  fold (Explicit_after_parse f conf).
  destruct (Explicit_after_parse f conf) as [t r]. reflexivity.
Qed.

Lemma Derived_main_skeleton
    (fs : string -> goerr (list Byte.byte)) (args : list string)
    (err : option flags_error) (conf : Derived.Conf) :
  Derived.main fs args err conf
  = main_skeleton fs args err (Derived.Font conf)
      (fun f => Derived_after_parse f conf).
Proof.
  unfold Derived.main, main_skeleton.
  destruct err as [[|] |]; try reflexivity.
  rewrite bind_ret_l.
  destruct (0 <? Z.of_nat (List.length args)); [reflexivity |].
  rewrite bind_ret_l. unfold ioutil_ReadFile, bind at 1.
  destruct (fs (Derived.Font conf)) as [fontBytes | e]; [| reflexivity].
  destruct (sfnt_Parse fontBytes) as [f | e]; [| reflexivity].
  fold (Derived_after_parse f conf).
  destruct (Derived_after_parse f conf) as [t r]. reflexivity.
Qed.

(** After the parse, the explicit variant either dies in the debug report,
    or prints the header and whole blocks for a prefix of the codepoints,
    followed by the footer when the prefix is all of them and by one log
    line otherwise. *)
Lemma Explicit_after_parse_shape (f : sfnt_Font) (conf : Explicit.Conf) :
  let width := GoInt.int (Explicit.Width conf * 8) in
  let height := Explicit.Height conf in
  (exists msg, Explicit_after_parse f conf = ([Stderr msg], Exit 1))
  \/ exists td images,
       stdout_of td = EmptyString /\ reads_of td = []
       /\ (Explicit.Debug conf = false -> td = [])
       /\ ((List.length images = 95%nat
            /\ Explicit_after_parse f conf
               = (td ++ Stdout (table_header +++ nl)
                     :: flat_map (block_events width height)
                          (combine codepoints images)
                     ++ footer_events (Explicit.Font conf) width height,
                  Return tt))
           \/ ((List.length images < 95)%nat
               /\ exists msg,
                    Explicit_after_parse f conf
                    = (td ++ Stdout (table_header +++ nl)
                          :: flat_map (block_events width height)
                               (combine codepoints images)
                          ++ [Stderr msg],
                       Exit 1))).
Proof.
  intros width height. unfold Explicit_after_parse.
  rewrite Explicit_debug_report_shape.
  fold width height.
  destruct (Explicit_glyphs_shape f conf width height
              (Z.to_nat (126 - 32 + 1)) 32 tt ltac:(lia)
              ltac:(vm_compute; discriminate))
    as [images Hloop].
  change (Z.to_nat (126 - 32 + 1)) with 95%nat in *.
  change (range 32 95) with codepoints in Hloop.
  assert (Hrest : forall td,
             stdout_of td = EmptyString -> reads_of td = [] ->
             (Explicit.Debug conf = false -> td = []) ->
             exists td' images',
               stdout_of td' = EmptyString /\ reads_of td' = []
               /\ (Explicit.Debug conf = false -> td' = [])
               /\ ((List.length images' = 95%nat
                    /\ bind (td, Return tt)
                         (fun _ =>
                            fmt_Print (table_header +++ nl) ;;
                            loopM 95 32 (Explicit.glyph f conf width height) tt ;;
                            fmt_Print "};" ;;
                            fmt_Print (based_on (Explicit.Font conf)) ;;
                            fmt_Print (sfont_descriptor width height))
                       = (td' ++ Stdout (table_header +++ nl)
                             :: flat_map (block_events width height)
                                  (combine codepoints images')
                             ++ footer_events (Explicit.Font conf) width height,
                          Return tt))
                   \/ ((List.length images' < 95)%nat
                       /\ exists msg,
                            bind (td, Return tt)
                              (fun _ =>
                                 fmt_Print (table_header +++ nl) ;;
                                 loopM 95 32
                                   (Explicit.glyph f conf width height) tt ;;
                                 fmt_Print "};" ;;
                                 fmt_Print (based_on (Explicit.Font conf)) ;;
                                 fmt_Print (sfont_descriptor width height))
                            = (td' ++ Stdout (table_header +++ nl)
                                  :: flat_map (block_events width height)
                                       (combine codepoints images')
                                  ++ [Stderr msg],
                               Exit 1)))).
  { intros td Hout Hreads Hdebug. exists td, images.
    split; [exact Hout |]. split; [exact Hreads |]. split; [exact Hdebug |].
    destruct Hloop as [[Hlen Hloop] | [Hlen [msg Hloop]]].
    - left. split; [exact Hlen |].
      unfold bind at 1 2, fmt_Print at 1. rewrite Hloop.
      reflexivity.
    - right. split; [exact Hlen |]. exists msg.
      unfold bind at 1 2, fmt_Print at 1. rewrite Hloop.
      reflexivity. }
  destruct (Explicit.Debug conf) eqn:Hdbg.
  - destruct (Font_Metrics f (fixed.I (Explicit.PPEM conf))) as [m | e].
    + right. apply Hrest; [reflexivity | reflexivity | discriminate].
    + left. eexists. reflexivity.
  - right. apply Hrest; [reflexivity | reflexivity | reflexivity].
Qed.

End MainShape.

Section DerivedShape.
Context {FB : FontBackend} {RB : RasterBackend}.

Lemma Derived_segments_return
    (ox oy : float32) (segs : list sfnt.Segment) :
  forall r : Rasterizer,
    exists r', rangeM segs (Derived.draw_segment ox oy) r = ([], Return r').
Proof.
  induction segs as [| seg segs IH]; intros r; cbn [rangeM].
  - exists r. reflexivity.
  - destruct (Derived_draw_segment_returns ox oy seg r) as [r' H].
    rewrite H. destruct (IH r') as [r'' H'].
    exists r''. unfold bind. rewrite H'. reflexivity.
Qed.

(** With metrics, an iteration of the glyph loop of the metrics variant
    either dies with one log line, having printed nothing, or prints the
    whole block and leaves the pixel width and the cell height. *)
Lemma Derived_glyph_shape (f : sfnt_Font) (conf : Derived.Conf)
    (m : font.Metrics) (i : Z) (s : Z * Z) :
  Font_Metrics f (fixed.I (Derived.PPEM conf)) = Ok m ->
  let width := GoInt.int (Derived.Width conf * 8) in
  let height := Derived.cell_height (font.Height m) (Derived.ReduceHeight conf) in
  (exists msg, Derived.glyph f conf i s = ([Stderr msg], Exit 1))
  \/ (exists dst,
         Derived.glyph f conf i s
         = (block_events width height (GoInt.int32 i, dst),
            Return (width, height))).
Proof.
  intros Hm width height. unfold Derived.glyph.
  destruct (Font_GlyphIndex f (GoInt.int32 i)) as [x | e];
    [| left; eexists; reflexivity].
  destruct (x =? 0); [left; eexists; reflexivity |].
  rewrite bind_ret_l, Hm.
  destruct (Font_LoadGlyph f x (fixed.I (Derived.PPEM conf)))
    as [segments | e]; [| left; eexists; reflexivity].
  fold width height.
  destruct (Derived_segments_return
              (float32_of_int 0)
              (f32_add
                 (float32_of_int
                    (GoInt.int (fixed.Ceil (font.CapHeight m) * -1)))
                 (float32_of_int 1))
              segments (set_DrawOp_Src (NewRasterizer width height)))
    as [r H].
  rewrite H.
  right. exists (Draw r (image.NewAlpha (image.Rect 0 0 width height))).
  unfold bind, fmt_Print, ret. rewrite print_rows_events.
  unfold block_events, block_rows. cbn [fst snd app].
  rewrite app_nil_r. reflexivity.
Qed.

(** Without metrics, every iteration dies with one log line. *)
Lemma Derived_glyph_without_metrics (f : sfnt_Font) (conf : Derived.Conf)
    (e : string) (i : Z) (s : Z * Z) :
  Font_Metrics f (fixed.I (Derived.PPEM conf)) = Err e ->
  exists msg, Derived.glyph f conf i s = ([Stderr msg], Exit 1).
Proof.
  intros Hm. unfold Derived.glyph.
  destruct (Font_GlyphIndex f (GoInt.int32 i)) as [x | e'];
    [| eexists; reflexivity].
  destruct (x =? 0); [eexists; reflexivity |].
  rewrite bind_ret_l, Hm. eexists. reflexivity.
Qed.

Lemma Derived_glyphs_shape (f : sfnt_Font) (conf : Derived.Conf)
    (m : font.Metrics) (n : nat) :
  Font_Metrics f (fixed.I (Derived.PPEM conf)) = Ok m ->
  let width := GoInt.int (Derived.Width conf * 8) in
  let height := Derived.cell_height (font.Height m) (Derived.ReduceHeight conf) in
  forall (i : Z) (s : Z * Z),
    0 <= i -> i + Z.of_nat n <= 2 ^ 31 ->
    exists images,
      (List.length images = n
       /\ loopM n i (Derived.glyph f conf) s
          = (flat_map (block_events width height) (combine (range i n) images),
             Return (match n with O => s | S _ => (width, height) end)))
      \/ ((List.length images < n)%nat
          /\ exists msg,
               loopM n i (Derived.glyph f conf) s
               = (flat_map (block_events width height)
                    (combine (range i n) images) ++ [Stderr msg],
                  Exit 1)).
Proof.
  intros Hm width height.
  induction n as [| n IH]; intros i s Hi Hn.
  - exists []. left. split; reflexivity.
  - cbn [loopM range].
    destruct (Derived_glyph_shape f conf m i s Hm) as [[msg H] | [dst H]];
      rewrite H; fold width height.
    + exists []. right. split; [cbn; lia |]. exists msg. reflexivity.
    + rewrite int32_small by (change (2 ^ 31) with 2147483648 in *; lia).
      destruct (IH (i + 1) (width, height) ltac:(lia) ltac:(lia))
        as [images [[Hlen Hloop] | [Hlen [msg Hloop]]]].
      * exists (dst :: images). left. split; [cbn; lia |].
        unfold bind. rewrite Hloop.
        destruct n; reflexivity.
      * exists (dst :: images). right. split; [cbn; lia |].
        exists msg. unfold bind. rewrite Hloop.
        cbn [combine flat_map]. rewrite app_assoc. reflexivity.
Qed.

Lemma Derived_after_parse_shape (f : sfnt_Font) (conf : Derived.Conf)
    (m : font.Metrics) :
  Font_Metrics f (fixed.I (Derived.PPEM conf)) = Ok m ->
  let width := GoInt.int (Derived.Width conf * 8) in
  let height := Derived.cell_height (font.Height m) (Derived.ReduceHeight conf) in
  exists images,
    (List.length images = 95%nat
     /\ Derived_after_parse f conf
        = (Stdout (table_header +++ nl)
             :: flat_map (block_events width height) (combine codepoints images)
             ++ footer_events (Derived.Font conf) width height,
           Return tt))
    \/ ((List.length images < 95)%nat
        /\ exists msg,
             Derived_after_parse f conf
             = (Stdout (table_header +++ nl)
                  :: flat_map (block_events width height)
                       (combine codepoints images)
                  ++ [Stderr msg],
                Exit 1)).
Proof.
  intros Hm width height. unfold Derived_after_parse.
  destruct (Derived_glyphs_shape f conf m (Z.to_nat (126 - 32 + 1)) Hm
              32 (0, 0) ltac:(lia) ltac:(vm_compute; discriminate))
    as [images Hloop].
  fold width height in Hloop.
  change (Z.to_nat (126 - 32 + 1)) with 95%nat in *.
  change (range 32 95) with codepoints in Hloop.
  exists images.
  destruct Hloop as [[Hlen Hloop] | [Hlen [msg Hloop]]].
  - left. split; [exact Hlen |].
    unfold bind at 1 2, fmt_Print at 1. rewrite Hloop. reflexivity.
  - right. split; [exact Hlen |]. exists msg.
    unfold bind at 1 2, fmt_Print at 1. rewrite Hloop. reflexivity.
Qed.

Lemma Derived_after_parse_without_metrics (f : sfnt_Font) (conf : Derived.Conf)
    (e : string) :
  Font_Metrics f (fixed.I (Derived.PPEM conf)) = Err e ->
  exists msg,
    Derived_after_parse f conf
    = ([Stdout (table_header +++ nl); Stderr msg], Exit 1).
Proof.
  intros Hm. unfold Derived_after_parse.
  change (Z.to_nat (126 - 32 + 1)) with 95%nat. cbn [loopM].
  destruct (Derived_glyph_without_metrics f conf e 32 (0, 0) Hm) as [msg H].
  rewrite H. exists msg. reflexivity.
Qed.

End DerivedShape.

(** ** What a run reads, writes and returns *)

Lemma stdout_of_footer_events (path : string) (w h : Z) :
  stdout_of (footer_events path w h) = table_footer path w h.
Proof.
  unfold footer_events, table_footer. cbn [stdout_of].
  rewrite append_nil_r. reflexivity.
Qed.

Lemma snoc_shape {A : Type} (t1 t2 : list A) (x y : A) :
  t1 ++ x :: t2 ++ [y] = (t1 ++ x :: t2) ++ [y].
Proof. rewrite <- app_assoc. reflexivity. Qed.

Section RunFacts.
Context {FB : FontBackend} {RB : RasterBackend}.

Lemma skeleton_reads (fs : string -> goerr (list Byte.byte))
    (args : list string) (err : option flags_error) (path : string)
    (rest : sfnt_Font -> Proc unit) :
  (forall f, reads_of (fst (rest f)) = []) ->
  reads_of (fst (main_skeleton fs args err path rest))
  = match err with
    | Some _ => []
    | None => if 0 <? Z.of_nat (List.length args) then [] else [path]
    end.
Proof.
  intros Hrest. unfold main_skeleton.
  destruct err as [[|] |]; try reflexivity.
  destruct (0 <? Z.of_nat (List.length args)); [reflexivity |].
  destruct (fs path) as [fontBytes | e]; [| reflexivity].
  destruct (sfnt_Parse fontBytes) as [f | e]; [| reflexivity].
  cbn [fst reads_of]. rewrite Hrest. reflexivity.
Qed.

Lemma skeleton_loud (fs : string -> goerr (list Byte.byte))
    (args : list string) (path : string) (rest : sfnt_Font -> Proc unit)
    (c : Z) :
  (forall f c', snd (rest f) = Exit c' ->
                exists t msg, fst (rest f) = t ++ [Stderr msg]) ->
  snd (main_skeleton fs args None path rest) = Exit c ->
  exists t msg, fst (main_skeleton fs args None path rest) = t ++ [Stderr msg].
Proof.
  intros Hrest. unfold main_skeleton.
  destruct (0 <? Z.of_nat (List.length args)).
  { intros _. exists [], "do not provide additional parameters". reflexivity. }
  destruct (fs path) as [fontBytes | e]; [| discriminate].
  destruct (sfnt_Parse fontBytes) as [f | e].
  - cbn [fst snd]. intros Hexit.
    destruct (Hrest f c Hexit) as (t & msg & Ht).
    exists (ReadFile path :: t), msg. rewrite Ht. reflexivity.
  - intros _. exists [ReadFile path], ("Parse: " +++ e). reflexivity.
Qed.

Lemma Explicit_after_parse_reads (f : sfnt_Font) (conf : Explicit.Conf) :
  reads_of (fst (Explicit_after_parse f conf)) = [].
Proof.
  destruct (Explicit_after_parse_shape f conf)
    as [[msg H] | (td & images & _ & Hreads & _ & [[_ H] | [_ [msg H]]])];
    rewrite H; cbn [fst]; try reflexivity.
  - rewrite reads_of_app, Hreads. cbn [reads_of app].
    rewrite reads_of_app, reads_of_blocks. reflexivity.
  - rewrite reads_of_app, Hreads. cbn [reads_of app].
    rewrite reads_of_app, reads_of_blocks. reflexivity.
Qed.

Lemma Explicit_after_parse_loud (f : sfnt_Font) (conf : Explicit.Conf) (c : Z) :
  snd (Explicit_after_parse f conf) = Exit c ->
  exists t msg, fst (Explicit_after_parse f conf) = t ++ [Stderr msg].
Proof.
  destruct (Explicit_after_parse_shape f conf)
    as [[msg H] | (td & images & _ & _ & _ & [[_ H] | [_ [msg H]]])];
    rewrite H; cbn [fst snd]; intros Hexit; try discriminate.
  - exists [], msg. reflexivity.
  - rewrite snoc_shape. eexists _, msg. reflexivity.
Qed.

Lemma Derived_after_parse_reads (f : sfnt_Font) (conf : Derived.Conf) :
  reads_of (fst (Derived_after_parse f conf)) = [].
Proof.
  destruct (Font_Metrics f (fixed.I (Derived.PPEM conf))) as [m | e] eqn:Hm.
  - destruct (Derived_after_parse_shape f conf m Hm)
      as (images & [[_ H] | [_ [msg H]]]);
      rewrite H; cbn [fst reads_of];
      rewrite reads_of_app, reads_of_blocks; reflexivity.
  - destruct (Derived_after_parse_without_metrics f conf e Hm) as [msg H].
    rewrite H. reflexivity.
Qed.

Lemma Derived_after_parse_loud (f : sfnt_Font) (conf : Derived.Conf) (c : Z) :
  snd (Derived_after_parse f conf) = Exit c ->
  exists t msg, fst (Derived_after_parse f conf) = t ++ [Stderr msg].
Proof.
  destruct (Font_Metrics f (fixed.I (Derived.PPEM conf))) as [m | e] eqn:Hm.
  - destruct (Derived_after_parse_shape f conf m Hm)
      as (images & [[_ H] | [_ [msg H]]]);
      rewrite H; cbn [fst snd]; intros Hexit; try discriminate.
    rewrite app_comm_cons. eexists _, msg. reflexivity.
  - destruct (Derived_after_parse_without_metrics f conf e Hm) as [msg H].
    rewrite H. intros _. exists [Stdout (table_header +++ nl)], msg. reflexivity.
Qed.

(** X9: whatever happens, the explicit variant never leaves a truncated
    glyph block on standard output: the text is empty, or it is the header
    followed by whole blocks for the first codepoints, all 95 of them and
    the footer exactly when [main] returns. *)
Theorem X9_output_is_whole_blocks
    (fs : string -> goerr (list Byte.byte)) (args : list string)
    (err : option flags_error) (conf : Explicit.Conf) :
  let run := Explicit.main fs args err conf in
  let width := GoInt.int (Explicit.Width conf * 8) in
  let height := Explicit.Height conf in
  stdout_of (fst run) = EmptyString
  \/ exists images,
       stdout_of (fst run)
       = (table_header +++ nl)
           +++ cat (map (glyph_block width height) (combine codepoints images))
           +++ match snd run with
               | Return _ => table_footer (Explicit.Font conf) width height
               | Exit _ => EmptyString
               end
       /\ (List.length images <= 95)%nat
       /\ (List.length images = 95%nat <-> snd run = Return tt).
Proof.
  intros run width height. subst run.
  rewrite Explicit_main_skeleton. unfold main_skeleton.
  destruct err as [[|] |]; try (left; reflexivity).
  destruct (0 <? Z.of_nat (List.length args)); [left; reflexivity |].
  destruct (fs (Explicit.Font conf)) as [fontBytes | e]; [| left; reflexivity].
  destruct (sfnt_Parse fontBytes) as [f | e]; [| left; reflexivity].
  cbn [fst snd stdout_of].
  destruct (Explicit_after_parse_shape f conf)
    as [[msg H] | (td & images & Hout & _ & _ & [[Hlen H] | [Hlen [msg H]]])];
    rewrite H; cbn [fst snd]; fold width height.
  - left. reflexivity.
  - right. exists images. split; [| split; [lia | tauto]].
    rewrite stdout_of_app, Hout. cbn [String.append stdout_of].
    rewrite stdout_of_app, stdout_of_blocks, stdout_of_footer_events.
    rewrite !append_assoc. reflexivity.
  - right. exists images. split; [| split; [lia |]].
    + rewrite stdout_of_app, Hout. cbn [String.append stdout_of].
      rewrite stdout_of_app, stdout_of_blocks. cbn [stdout_of].
      rewrite !append_assoc. reflexivity.
    + split; [lia | discriminate].
Qed.

(** X10: a run reads no file but the configured font file, and reads it
    once: when the flags parsed and no positional argument is left; it
    reads nothing otherwise.  In both variants. *)
Theorem X10_only_the_font_file_is_read
    (fs : string -> goerr (list Byte.byte)) (args : list string)
    (err : option flags_error)
    (conf_e : Explicit.Conf) (conf_d : Derived.Conf) :
  reads_of (fst (Explicit.main fs args err conf_e))
  = match err with
    | Some _ => []
    | None => if 0 <? Z.of_nat (List.length args) then []
              else [Explicit.Font conf_e]
    end
  /\ reads_of (fst (Derived.main fs args err conf_d))
     = match err with
       | Some _ => []
       | None => if 0 <? Z.of_nat (List.length args) then []
                 else [Derived.Font conf_d]
       end.
Proof.
  split.
  - rewrite Explicit_main_skeleton. apply skeleton_reads.
    intros f. apply Explicit_after_parse_reads.
  - rewrite Derived_main_skeleton. apply skeleton_reads.
    intros f. apply Derived_after_parse_reads.
Qed.

(** X12: once the flags have parsed, no exit is silent: whenever the
    process exits instead of returning from [main], the last thing it did
    was to log a line on standard error.  In both variants. *)
Theorem X12_every_exit_is_logged
    (fs : string -> goerr (list Byte.byte)) (args : list string)
    (conf_e : Explicit.Conf) (conf_d : Derived.Conf) :
  (forall c, snd (Explicit.main fs args None conf_e) = Exit c ->
             exists t msg,
               fst (Explicit.main fs args None conf_e) = t ++ [Stderr msg])
  /\ (forall c, snd (Derived.main fs args None conf_d) = Exit c ->
                exists t msg,
                  fst (Derived.main fs args None conf_d) = t ++ [Stderr msg]).
Proof.
  split; intros c.
  - rewrite Explicit_main_skeleton. apply skeleton_loud.
    intros f c'. apply Explicit_after_parse_loud.
  - rewrite Derived_main_skeleton. apply skeleton_loud.
    intros f c'. apply Derived_after_parse_loud.
Qed.

End RunFacts.

Lemma X12_every_exit_is_logged_witness :
  snd (Explicit.main (FB := Toy.font_backend) (RB := Toy.raster_backend)
         (Toy.fs Toy.font_without_d) [] None Toy.explicit_conf) = Exit 1
  /\ exists t msg,
       fst (Explicit.main (FB := Toy.font_backend) (RB := Toy.raster_backend)
              (Toy.fs Toy.font_without_d) [] None Toy.explicit_conf)
       = t ++ [Stderr msg].
Proof.
  assert (H : snd (Explicit.main (FB := Toy.font_backend)
                     (RB := Toy.raster_backend)
                     (Toy.fs Toy.font_without_d) [] None Toy.explicit_conf)
              = Exit 1) by (vm_compute; reflexivity).
  split; [exact H |].
  exact (proj1 (X12_every_exit_is_logged
                  (FB := Toy.font_backend) (RB := Toy.raster_backend)
                  (Toy.fs Toy.font_without_d) [] Toy.explicit_conf
                  Toy.derived_conf) 1 H).
Defined.

(** ** The debug flag and the diagnostics *)

Section Diagnostics.
Context {FB : FontBackend} {RB : RasterBackend}.

(** X13: a successful run is quiet: when the font file was read and [main]
    returned, nothing was logged on standard error, in the metrics
    variant always and in the explicit variant unless the debug flag is
    set. *)
Theorem X13_success_logs_nothing
    (fs : string -> goerr (list Byte.byte)) (args : list string)
    (err : option flags_error)
    (conf_e : Explicit.Conf) (conf_d : Derived.Conf)
    (bytes_e bytes_d : list Byte.byte) :
  (fs (Explicit.Font conf_e) = Ok bytes_e ->
   Explicit.Debug conf_e = false ->
   snd (Explicit.main fs args err conf_e) = Return tt ->
   stderr_of (fst (Explicit.main fs args err conf_e)) = [])
  /\ (fs (Derived.Font conf_d) = Ok bytes_d ->
      snd (Derived.main fs args err conf_d) = Return tt ->
      stderr_of (fst (Derived.main fs args err conf_d)) = []).
Proof.
  split.
  - intros Hfs Hdbg. rewrite Explicit_main_skeleton. unfold main_skeleton.
    destruct err as [[|] |]; try discriminate.
    destruct (0 <? Z.of_nat (List.length args)); [discriminate |].
    rewrite Hfs.
    destruct (sfnt_Parse bytes_e) as [f | e]; [| discriminate].
    cbn [fst snd stderr_of].
    destruct (Explicit_after_parse_shape f conf_e)
      as [[msg H] | (td & images & _ & _ & Htd & [[_ H] | [_ [msg H]]])];
      rewrite H; cbn [fst snd]; intros Hret; try discriminate.
    rewrite (Htd Hdbg). cbn [app stderr_of].
    rewrite stderr_of_app, stderr_of_blocks. reflexivity.
  - intros Hfs. rewrite Derived_main_skeleton. unfold main_skeleton.
    destruct err as [[|] |]; try discriminate.
    destruct (0 <? Z.of_nat (List.length args)); [discriminate |].
    rewrite Hfs.
    destruct (sfnt_Parse bytes_d) as [f | e]; [| discriminate].
    cbn [fst snd stderr_of].
    destruct (Font_Metrics f (fixed.I (Derived.PPEM conf_d))) as [m | e] eqn:Hm.
    + destruct (Derived_after_parse_shape f conf_d m Hm)
        as (images & [[_ H] | [_ [msg H]]]);
        rewrite H; cbn [fst snd]; intros Hret; try discriminate.
      cbn [stderr_of]. rewrite stderr_of_app, stderr_of_blocks. reflexivity.
    + destruct (Derived_after_parse_without_metrics f conf_d e Hm) as [msg H].
      rewrite H. discriminate.
Qed.

Lemma Explicit_after_parse_debug (f : sfnt_Font) (conf : Explicit.Conf)
    (m : font.Metrics) :
  Font_Metrics f (fixed.I (Explicit.PPEM conf)) = Ok m ->
  Explicit_after_parse f (with_Debug true conf)
  = (debug_events m conf ++ fst (Explicit_after_parse f (with_Debug false conf)),
     snd (Explicit_after_parse f (with_Debug false conf))).
Proof.
  intros Hm. unfold Explicit_after_parse.
  rewrite !Explicit_debug_report_shape.
  cbn [with_Debug Explicit.Debug Explicit.PPEM Explicit.Width Explicit.Height
         Explicit.Font].
  rewrite Hm.
  change (Explicit.glyph f (with_Debug true conf))
    with (Explicit.glyph f conf).
  change (Explicit.glyph f (with_Debug false conf))
    with (Explicit.glyph f conf).
  match goal with |- bind _ ?k = _ => set (K := k) end.
  unfold bind. destruct (K tt) as [t r]. reflexivity.
Qed.

(** X14: the debug flag only adds diagnostics: for a font with metrics,
    the run with the flag writes the same text to standard output and
    ends the same way as the run without it, and logs the twelve report
    lines before whatever else is logged. *)
Theorem X14_debug_only_adds_diagnostics
    (fs : string -> goerr (list Byte.byte)) (conf : Explicit.Conf)
    (fontBytes : list Byte.byte) (f : sfnt_Font) (m : font.Metrics) :
  fs (Explicit.Font conf) = Ok fontBytes ->
  sfnt_Parse fontBytes = Ok f ->
  Font_Metrics f (fixed.I (Explicit.PPEM conf)) = Ok m ->
  let quiet := Explicit.main fs [] None (with_Debug false conf) in
  let chatty := Explicit.main fs [] None (with_Debug true conf) in
  stdout_of (fst chatty) = stdout_of (fst quiet)
  /\ snd chatty = snd quiet
  /\ stderr_of (fst chatty)
     = stderr_of (debug_events m conf) ++ stderr_of (fst quiet).
Proof.
  intros Hfs Hparse Hm quiet chatty. subst quiet chatty.
  rewrite !Explicit_main_skeleton. unfold main_skeleton.
  cbn [List.length Z.of_nat Z.ltb Z.compare with_Debug Explicit.Font].
  rewrite Hfs, Hparse.
  rewrite (Explicit_after_parse_debug f conf m Hm).
  cbn [fst snd stdout_of stderr_of].
  rewrite stdout_of_app, stderr_of_app.
  split; [reflexivity |]. split; reflexivity.
Qed.

(** X15: with the debug flag set and a font whose metrics cannot be had,
    the explicit variant dies before the header: nothing reaches standard
    output and the exit status is 1. *)
Theorem X15_debug_without_metrics_is_fatal
    (fs : string -> goerr (list Byte.byte)) (conf : Explicit.Conf)
    (fontBytes : list Byte.byte) (f : sfnt_Font) (e : string) :
  Explicit.Debug conf = true ->
  fs (Explicit.Font conf) = Ok fontBytes ->
  sfnt_Parse fontBytes = Ok f ->
  Font_Metrics f (fixed.I (Explicit.PPEM conf)) = Err e ->
  Explicit.main fs [] None conf
  = ([ReadFile (Explicit.Font conf);
      Stderr ("could not get font metrics: " +++ e)], Exit 1).
Proof.
  intros Hdbg Hfs Hparse Hm.
  rewrite Explicit_main_skeleton. unfold main_skeleton.
  cbn [List.length Z.of_nat Z.ltb Z.compare].
  rewrite Hfs, Hparse. unfold Explicit_after_parse.
  rewrite Explicit_debug_report_shape, Hdbg, Hm. reflexivity.
Qed.

(** X16: a font file that is read but does not parse ends either variant
    with status 1 after one log line; the file was read once and nothing
    was written to standard output. *)
Theorem X16_malformed_font_is_fatal
    (fs : string -> goerr (list Byte.byte))
    (conf_e : Explicit.Conf) (conf_d : Derived.Conf)
    (fontBytes : list Byte.byte) (e : string) :
  sfnt_Parse fontBytes = Err e ->
  (fs (Explicit.Font conf_e) = Ok fontBytes ->
   Explicit.main fs [] None conf_e
   = ([ReadFile (Explicit.Font conf_e); Stderr ("Parse: " +++ e)], Exit 1))
  /\ (fs (Derived.Font conf_d) = Ok fontBytes ->
      Derived.main fs [] None conf_d
      = ([ReadFile (Derived.Font conf_d); Stderr ("Parse: " +++ e)], Exit 1)).
Proof.
  intros Hparse. split; intros Hfs.
  - rewrite Explicit_main_skeleton. unfold main_skeleton.
    cbn [List.length Z.of_nat Z.ltb Z.compare].
    rewrite Hfs, Hparse. reflexivity.
  - rewrite Derived_main_skeleton. unfold main_skeleton.
    cbn [List.length Z.of_nat Z.ltb Z.compare].
    rewrite Hfs, Hparse. reflexivity.
Qed.

(** X17: a run of the metrics variant that read its font and returned
    wrote the header, one whole block for each of the 95 codepoints in
    order, and the footer; every block has as many row lines as the cell
    height derived from the metrics, and the descriptor declares that
    same height and the pixel width the rows were packed at. *)
Theorem X17_metrics_variant_table_is_complete
    (fs : string -> goerr (list Byte.byte)) (args : list string)
    (err : option flags_error) (conf : Derived.Conf)
    (fontBytes : list Byte.byte) :
  fs (Derived.Font conf) = Ok fontBytes ->
  snd (Derived.main fs args err conf) = Return tt ->
  exists f m images,
    sfnt_Parse fontBytes = Ok f
    /\ Font_Metrics f (fixed.I (Derived.PPEM conf)) = Ok m
    /\ List.length images = 95%nat
    /\ let width := GoInt.int (Derived.Width conf * 8) in
       let height :=
         Derived.cell_height (font.Height m) (Derived.ReduceHeight conf) in
       stdout_of (fst (Derived.main fs args err conf))
       = (table_header +++ nl)
           +++ cat (map (glyph_block width height) (combine codepoints images))
           +++ table_footer (Derived.Font conf) width height
       /\ (0 <= height ->
           forall dst,
             Z.of_nat (List.length (block_rows dst width height)) = height).
Proof.
  intros Hfs. rewrite Derived_main_skeleton. unfold main_skeleton.
  destruct err as [[|] |]; try discriminate.
  destruct (0 <? Z.of_nat (List.length args)); [discriminate |].
  rewrite Hfs.
  destruct (sfnt_Parse fontBytes) as [f | e]; [| discriminate].
  cbn [fst snd stdout_of].
  destruct (Font_Metrics f (fixed.I (Derived.PPEM conf))) as [m | e] eqn:Hm.
  - destruct (Derived_after_parse_shape f conf m Hm)
      as (images & [[Hlen H] | [_ [msg H]]]);
      rewrite H; cbn [fst snd]; intros Hret; try discriminate.
    exists f, m, images. repeat split; try assumption.
    + cbn [stdout_of]. rewrite stdout_of_app, stdout_of_blocks,
        stdout_of_footer_events.
      rewrite !append_assoc. reflexivity.
    + intros Hh dst. apply length_block_rows. assumption.
  - destruct (Derived_after_parse_without_metrics f conf e Hm) as [msg H].
    rewrite H. discriminate.
Qed.

(** X18: when the font has no metrics, the metrics variant dies at the
    first codepoint: the header is all that reaches standard output and
    the exit status is 1. *)
Theorem X18_metrics_variant_needs_metrics
    (fs : string -> goerr (list Byte.byte)) (conf : Derived.Conf)
    (fontBytes : list Byte.byte) (f : sfnt_Font) (e : string) :
  fs (Derived.Font conf) = Ok fontBytes ->
  sfnt_Parse fontBytes = Ok f ->
  Font_Metrics f (fixed.I (Derived.PPEM conf)) = Err e ->
  snd (Derived.main fs [] None conf) = Exit 1
  /\ stdout_of (fst (Derived.main fs [] None conf)) = table_header +++ nl.
Proof.
  intros Hfs Hparse Hm.
  rewrite Derived_main_skeleton. unfold main_skeleton.
  cbn [List.length Z.of_nat Z.ltb Z.compare].
  rewrite Hfs, Hparse.
  destruct (Derived_after_parse_without_metrics f conf e Hm) as [msg H].
  rewrite H. cbn [fst snd stdout_of]. rewrite append_nil_r.
  split; reflexivity.
Qed.

End Diagnostics.

Lemma X13_success_logs_nothing_witness :
  Toy.fs Toy.full_font "font.ttf" = Ok Toy.full_font
  /\ stderr_of
       (fst (Explicit.main (FB := Toy.font_backend) (RB := Toy.raster_backend)
               (Toy.fs Toy.full_font) [] None Toy.explicit_conf)) = []
  /\ stderr_of
       (fst (Derived.main (FB := Toy.font_backend) (RB := Toy.raster_backend)
               (Toy.fs Toy.full_font) [] None Toy.derived_conf)) = [].
Proof.
  assert (Hfs : Toy.fs Toy.full_font "font.ttf" = Ok Toy.full_font)
    by reflexivity.
  pose proof (X13_success_logs_nothing
                (FB := Toy.font_backend) (RB := Toy.raster_backend)
                (Toy.fs Toy.full_font) [] None
                Toy.explicit_conf Toy.derived_conf
                Toy.full_font Toy.full_font) as [He Hd].
  split; [exact Hfs |]. split.
  - apply He; [exact Hfs | reflexivity | vm_compute; reflexivity].
  - apply Hd; [exact Hfs | vm_compute; reflexivity].
Defined.

Lemma X14_debug_only_adds_diagnostics_witness :
  Toy.fs Toy.full_font "font.ttf" = Ok Toy.full_font
  /\ sfnt_Parse (FontBackend := Toy.font_backend) Toy.full_font = Ok toy_font_8
  /\ Font_Metrics (FontBackend := Toy.font_backend) toy_font_8 (fixed.I 20)
     = Ok toy_metrics_8
  /\ stdout_of
       (fst (Explicit.main (FB := Toy.font_backend) (RB := Toy.raster_backend)
               (Toy.fs Toy.full_font) [] None
               (with_Debug true Toy.explicit_conf)))
     = stdout_of
         (fst (Explicit.main (FB := Toy.font_backend) (RB := Toy.raster_backend)
                 (Toy.fs Toy.full_font) [] None
                 (with_Debug false Toy.explicit_conf))).
Proof.
  assert (Hfs : Toy.fs Toy.full_font "font.ttf" = Ok Toy.full_font)
    by reflexivity.
  assert (Hparse : sfnt_Parse (FontBackend := Toy.font_backend) Toy.full_font
                   = Ok toy_font_8) by reflexivity.
  assert (Hm : Font_Metrics (FontBackend := Toy.font_backend) toy_font_8
                 (fixed.I 20) = Ok toy_metrics_8) by reflexivity.
  split; [exact Hfs |]. split; [exact Hparse |]. split; [exact Hm |].
  exact (proj1 (X14_debug_only_adds_diagnostics
                  (FB := Toy.font_backend) (RB := Toy.raster_backend)
                  (Toy.fs Toy.full_font) Toy.explicit_conf Toy.full_font
                  toy_font_8 toy_metrics_8 Hfs Hparse Hm)).
Defined.

Lemma X15_debug_without_metrics_is_fatal_witness :
  Explicit.Debug (with_Debug true Toy.explicit_conf) = true
  /\ Font_Metrics (FontBackend := no_metrics_backend) toy_font_8 (fixed.I 20)
     = Err "sfnt: missing hhea table"
  /\ Explicit.main (FB := no_metrics_backend) (RB := Toy.raster_backend)
       (Toy.fs Toy.full_font) [] None (with_Debug true Toy.explicit_conf)
     = ([ReadFile "font.ttf";
         Stderr "could not get font metrics: sfnt: missing hhea table"],
        Exit 1).
Proof.
  assert (Hdbg : Explicit.Debug (with_Debug true Toy.explicit_conf) = true)
    by reflexivity.
  assert (Hm : Font_Metrics (FontBackend := no_metrics_backend) toy_font_8
                 (fixed.I 20) = Err "sfnt: missing hhea table") by reflexivity.
  split; [exact Hdbg |]. split; [exact Hm |].
  apply (X15_debug_without_metrics_is_fatal
           (FB := no_metrics_backend) (RB := Toy.raster_backend)
           (Toy.fs Toy.full_font) (with_Debug true Toy.explicit_conf)
           Toy.full_font toy_font_8 "sfnt: missing hhea table").
  - exact Hdbg.
  - reflexivity.
  - reflexivity.
  - exact Hm.
Defined.

Lemma X16_malformed_font_is_fatal_witness :
  sfnt_Parse (FontBackend := Toy.font_backend) [] = Err "sfnt: invalid font"
  /\ Toy.fs [] "font.ttf" = Ok []
  /\ Explicit.main (FB := Toy.font_backend) (RB := Toy.raster_backend)
       (Toy.fs []) [] None Toy.explicit_conf
     = ([ReadFile "font.ttf"; Stderr "Parse: sfnt: invalid font"], Exit 1)
  /\ Derived.main (FB := Toy.font_backend) (RB := Toy.raster_backend)
       (Toy.fs []) [] None Toy.derived_conf
     = ([ReadFile "font.ttf"; Stderr "Parse: sfnt: invalid font"], Exit 1).
Proof.
  assert (Hparse : sfnt_Parse (FontBackend := Toy.font_backend) []
                   = Err "sfnt: invalid font") by reflexivity.
  assert (Hfs : Toy.fs [] "font.ttf" = Ok []) by reflexivity.
  pose proof (X16_malformed_font_is_fatal
                (FB := Toy.font_backend) (RB := Toy.raster_backend)
                (Toy.fs []) Toy.explicit_conf Toy.derived_conf [] _ Hparse)
    as [He Hd].
  split; [exact Hparse |]. split; [exact Hfs |]. split.
  - exact (He Hfs).
  - exact (Hd Hfs).
Defined.

Lemma X17_metrics_variant_table_is_complete_witness :
  Toy.fs Toy.full_font "font.ttf" = Ok Toy.full_font
  /\ snd (Derived.main (FB := Toy.font_backend) (RB := Toy.raster_backend)
            (Toy.fs Toy.full_font) [] None Toy.derived_conf) = Return tt
  /\ exists images,
       List.length images = 95%nat
       /\ stdout_of
            (fst (Derived.main (FB := Toy.font_backend)
                    (RB := Toy.raster_backend)
                    (Toy.fs Toy.full_font) [] None Toy.derived_conf))
          = (table_header +++ nl)
              +++ cat (map (glyph_block 16 3) (combine codepoints images))
              +++ table_footer "font.ttf" 16 3.
Proof.
  assert (Hfs : Toy.fs Toy.full_font "font.ttf" = Ok Toy.full_font)
    by reflexivity.
  assert (Hret : snd (Derived.main (FB := Toy.font_backend)
                        (RB := Toy.raster_backend)
                        (Toy.fs Toy.full_font) [] None Toy.derived_conf)
                 = Return tt) by (vm_compute; reflexivity).
  split; [exact Hfs |]. split; [exact Hret |].
  destruct (X17_metrics_variant_table_is_complete
              (FB := Toy.font_backend) (RB := Toy.raster_backend)
              (Toy.fs Toy.full_font) [] None Toy.derived_conf Toy.full_font
              Hfs Hret)
    as (f & m & images & Hparse & Hm & Hlen & Hout & _).
  exists images. split; [exact Hlen |].
  rewrite Hout.
  vm_compute in Hparse. inversion Hparse; subst f.
  vm_compute in Hm. inversion Hm; subst m.
  reflexivity.
Defined.

Lemma X18_metrics_variant_needs_metrics_witness :
  Font_Metrics (FontBackend := no_metrics_backend) toy_font_8 (fixed.I 24)
  = Err "sfnt: missing hhea table"
  /\ snd (Derived.main (FB := no_metrics_backend) (RB := Toy.raster_backend)
            (Toy.fs Toy.full_font) [] None Toy.derived_conf) = Exit 1
  /\ stdout_of
       (fst (Derived.main (FB := no_metrics_backend) (RB := Toy.raster_backend)
               (Toy.fs Toy.full_font) [] None Toy.derived_conf))
     = table_header +++ nl.
Proof.
  assert (Hm : Font_Metrics (FontBackend := no_metrics_backend) toy_font_8
                 (fixed.I 24) = Err "sfnt: missing hhea table") by reflexivity.
  split; [exact Hm |].
  apply (X18_metrics_variant_needs_metrics
           (FB := no_metrics_backend) (RB := Toy.raster_backend)
           (Toy.fs Toy.full_font) Toy.derived_conf Toy.full_font toy_font_8
           "sfnt: missing hhea table").
  - reflexivity.
  - reflexivity.
  - exact Hm.
Defined.

(** ** Backend errors inside the glyph loop *)

Section BackendErrors.
Context {FB : FontBackend} {RB : RasterBackend}.

(** X19: when the glyph lookup itself fails for a codepoint [c] of
    32..126, the glyph loop of either variant is the iterations for the
    codepoints before [c] followed by a fatal exit that logs the backend's
    error; no later codepoint is processed. *)
Theorem X19_glyph_lookup_error_is_fatal (f : sfnt_Font) (c : Z) (e : string) :
  32 <= c <= 126 ->
  Font_GlyphIndex f c = Err e ->
  (forall (conf : Explicit.Conf) (width height : Z),
      loopM (Z.to_nat (126 - 32 + 1)) 32
        (Explicit.glyph f conf width height) tt
      = (loopM (Z.to_nat (c - 32)) 32 (Explicit.glyph f conf width height) tt ;;
         log_Fatal ("GlyphIndex: " +++ e)))
  /\ (forall (conf : Derived.Conf) (s : Z * Z),
         loopM (Z.to_nat (126 - 32 + 1)) 32 (Derived.glyph f conf) s
         = (loopM (Z.to_nat (c - 32)) 32 (Derived.glyph f conf) s ;;
            log_Fatal ("GlyphIndex: " +++ e))).
Proof.
  intros Hc Hidx.
  assert (Hk : (Z.to_nat (c - 32) < Z.to_nat (126 - 32 + 1))%nat) by lia.
  assert (Hat : 32 + Z.of_nat (Z.to_nat (c - 32)) = c) by lia.
  assert (Hc32 : GoInt.int32 c = c)
    by (apply int32_small; change (2 ^ 31) with 2147483648; lia).
  split.
  - intros conf width height. apply loopM_fatal_at; [exact Hk |].
    intros s'. rewrite Hat. unfold Explicit.glyph.
    rewrite Hc32, Hidx. reflexivity.
  - intros conf s. apply loopM_fatal_at; [exact Hk |].
    intros s'. rewrite Hat. unfold Derived.glyph.
    rewrite Hc32, Hidx. reflexivity.
Qed.

(** X20: when the outline of the glyph of a codepoint [c] cannot be
    loaded, the glyph loop is the iterations before [c] followed by a
    fatal exit that logs the backend's error: in the explicit variant,
    and in the metrics variant for a font that has metrics. *)
Theorem X20_outline_error_is_fatal (f : sfnt_Font) (c x : Z) (e : string) :
  32 <= c <= 126 ->
  Font_GlyphIndex f c = Ok x ->
  x <> 0 ->
  (forall (conf : Explicit.Conf) (width height : Z),
      Font_LoadGlyph f x (fixed.I (Explicit.PPEM conf)) = Err e ->
      loopM (Z.to_nat (126 - 32 + 1)) 32
        (Explicit.glyph f conf width height) tt
      = (loopM (Z.to_nat (c - 32)) 32 (Explicit.glyph f conf width height) tt ;;
         log_Fatal ("LoadGlyph: " +++ e)))
  /\ (forall (conf : Derived.Conf) (m : font.Metrics) (s : Z * Z),
         Font_Metrics f (fixed.I (Derived.PPEM conf)) = Ok m ->
         Font_LoadGlyph f x (fixed.I (Derived.PPEM conf)) = Err e ->
         loopM (Z.to_nat (126 - 32 + 1)) 32 (Derived.glyph f conf) s
         = (loopM (Z.to_nat (c - 32)) 32 (Derived.glyph f conf) s ;;
            log_Fatal ("LoadGlyph: " +++ e))).
Proof.
  intros Hc Hidx Hx.
  assert (Hk : (Z.to_nat (c - 32) < Z.to_nat (126 - 32 + 1))%nat) by lia.
  assert (Hat : 32 + Z.of_nat (Z.to_nat (c - 32)) = c) by lia.
  assert (Hc32 : GoInt.int32 c = c)
    by (apply int32_small; change (2 ^ 31) with 2147483648; lia).
  assert (Hx0 : (x =? 0) = false) by (apply Z.eqb_neq; exact Hx).
  split.
  - intros conf width height Hload. apply loopM_fatal_at; [exact Hk |].
    intros s'. rewrite Hat. unfold Explicit.glyph.
    rewrite Hc32, Hidx, Hx0, bind_ret_l, Hload. reflexivity.
  - intros conf m s Hm Hload. apply loopM_fatal_at; [exact Hk |].
    intros s'. rewrite Hat. unfold Derived.glyph.
    rewrite Hc32, Hidx, Hx0, bind_ret_l, Hm, Hload. reflexivity.
Qed.

(** ** Outlines with commands of an unsupported kind *)

Lemma draw_segment_supported
    (ox oy : float32) (seg : sfnt.Segment) (r : Rasterizer) :
  supported (sfnt.Op seg) = true ->
  Explicit.draw_segment ox oy seg r = Derived.draw_segment ox oy seg r
  /\ exists r', Explicit.draw_segment ox oy seg r = ret r'.
Proof.
  unfold supported, Explicit.draw_segment, Derived.draw_segment. intros H.
  destruct (sfnt.Op seg =? sfnt.SegmentOpMoveTo);
    [split; [reflexivity | eexists; reflexivity] |].
  destruct (sfnt.Op seg =? sfnt.SegmentOpLineTo);
    [split; [reflexivity | eexists; reflexivity] |].
  destruct (sfnt.Op seg =? sfnt.SegmentOpQuadTo);
    [split; [reflexivity | eexists; reflexivity] |].
  destruct (sfnt.Op seg =? sfnt.SegmentOpCubeTo);
    [split; [reflexivity | eexists; reflexivity] |].
  discriminate H.
Qed.

Lemma Explicit_segments_first_unsupported
    (ox oy : float32) (segs : list sfnt.Segment) (seg : sfnt.Segment) :
  first_unsupported segs = Some seg ->
  forall r : Rasterizer,
    rangeM segs (Explicit.draw_segment ox oy) r
    = log_Fatal ("OP: " +++ fmt.d (sfnt.Op seg)).
Proof.
  unfold first_unsupported.
  induction segs as [| s segs IH]; intros Hfind r; [discriminate |].
  cbn [find] in Hfind. cbn [rangeM].
  destruct (supported (sfnt.Op s)) eqn:Hs; cbn [negb] in Hfind.
  - destruct (draw_segment_supported ox oy s r Hs) as [_ [r' Hr']].
    rewrite Hr', bind_ret_l. apply IH. exact Hfind.
  - inversion Hfind; subst s.
    rewrite Explicit_unsupported_fatal by assumption. reflexivity.
Qed.

(** X21: in the explicit variant, a glyph whose outline holds a command of
    an unsupported kind ends the run at that glyph: the iteration logs the
    operator of the first such command and exits with status 1, and
    nothing of the glyph's block is printed. *)
Theorem X21_unsupported_command_ends_the_glyph
    (f : sfnt_Font) (conf : Explicit.Conf) (width height c x : Z)
    (segs : list sfnt.Segment) (seg : sfnt.Segment) (u : unit) :
  32 <= c <= 126 ->
  Font_GlyphIndex f c = Ok x ->
  x <> 0 ->
  Font_LoadGlyph f x (fixed.I (Explicit.PPEM conf)) = Ok segs ->
  first_unsupported segs = Some seg ->
  Explicit.glyph f conf width height c u
  = ([Stderr ("OP: " +++ fmt.d (sfnt.Op seg))], Exit 1)
  /\ supported (sfnt.Op seg) = false.
Proof.
  intros Hc Hidx Hx Hload Hfirst.
  assert (Hc32 : GoInt.int32 c = c)
    by (apply int32_small; change (2 ^ 31) with 2147483648; lia).
  assert (Hx0 : (x =? 0) = false) by (apply Z.eqb_neq; exact Hx).
  split.
  - unfold Explicit.glyph.
    rewrite Hc32, Hidx, Hx0, bind_ret_l, Hload.
    rewrite (Explicit_segments_first_unsupported _ _ segs seg Hfirst).
    reflexivity.
  - unfold first_unsupported in Hfirst. apply find_some in Hfirst.
    destruct Hfirst as [_ Hneg]. apply negb_true_iff in Hneg. exact Hneg.
Qed.

(** X22: the metrics variant interprets an outline as if its commands of
    an unsupported kind were not there: the rasteriser ends in the state
    the supported commands alone lead to, and nothing is logged. *)
Theorem X22_metrics_variant_drops_unsupported_commands
    (ox oy : float32) (segs : list sfnt.Segment) (r : Rasterizer) :
  rangeM segs (Derived.draw_segment ox oy) r
  = rangeM (filter (fun s => supported (sfnt.Op s)) segs)
      (Derived.draw_segment ox oy) r
  /\ fst (rangeM segs (Derived.draw_segment ox oy) r) = [].
Proof.
  split.
  - revert r. induction segs as [| s segs IH]; intros r; [reflexivity |].
    cbn [rangeM filter].
    destruct (supported (sfnt.Op s)) eqn:Hs.
    + cbn [rangeM]. apply bind_ext. intros r'. apply IH.
    + rewrite Derived_unsupported_skipped by assumption.
      rewrite bind_ret_l. apply IH.
  - destruct (Derived_segments_return ox oy segs r) as [r' H].
    rewrite H. reflexivity.
Qed.

(** X23: on an outline made of the four supported kinds of command only,
    the two variants drive the rasteriser in the same way. *)
Theorem X23_variants_agree_on_supported_outlines
    (ox oy : float32) (segs : list sfnt.Segment) (r : Rasterizer) :
  first_unsupported segs = None ->
  rangeM segs (Explicit.draw_segment ox oy) r
  = rangeM segs (Derived.draw_segment ox oy) r.
Proof.
  unfold first_unsupported. revert r.
  induction segs as [| s segs IH]; intros r Hnone; [reflexivity |].
  cbn [find] in Hnone. cbn [rangeM].
  destruct (supported (sfnt.Op s)) eqn:Hs; cbn [negb] in Hnone;
    [| discriminate].
  destruct (draw_segment_supported ox oy s r Hs) as [Heq _].
  rewrite Heq. apply bind_ext. intros r'. apply IH. exact Hnone.
Qed.


End BackendErrors.



Lemma X19_glyph_lookup_error_is_fatal_witness :
  32 <= 100 <= 126
  /\ Font_GlyphIndex (FontBackend := faulty_backend) toy_font_8 100
     = Err "sfnt: invalid cmap table"
  /\ loopM (Z.to_nat (126 - 32 + 1)) 32
       (Explicit.glyph (FB := faulty_backend) (RB := Toy.raster_backend)
          toy_font_8 Toy.explicit_conf 16 3) tt
     = (loopM (Z.to_nat (100 - 32)) 32
          (Explicit.glyph (FB := faulty_backend) (RB := Toy.raster_backend)
             toy_font_8 Toy.explicit_conf 16 3) tt ;;
        log_Fatal "GlyphIndex: sfnt: invalid cmap table").
Proof.
  assert (Hc : 32 <= 100 <= 126) by lia.
  assert (Hidx : Font_GlyphIndex (FontBackend := faulty_backend) toy_font_8 100
                 = Err "sfnt: invalid cmap table") by reflexivity.
  split; [exact Hc |]. split; [exact Hidx |].
  exact (proj1 (X19_glyph_lookup_error_is_fatal
                  (FB := faulty_backend) (RB := Toy.raster_backend)
                  toy_font_8 100 _ Hc Hidx) Toy.explicit_conf 16 3).
Defined.

Lemma X20_outline_error_is_fatal_witness :
  32 <= 70 <= 126
  /\ Font_GlyphIndex (FontBackend := faulty_backend) toy_font_8 70 = Ok 39
  /\ 39 <> 0
  /\ Font_LoadGlyph (FontBackend := faulty_backend) toy_font_8 39 (fixed.I 20)
     = Err "sfnt: invalid glyf table"
  /\ loopM (Z.to_nat (126 - 32 + 1)) 32
       (Explicit.glyph (FB := faulty_backend) (RB := Toy.raster_backend)
          toy_font_8 Toy.explicit_conf 16 3) tt
     = (loopM (Z.to_nat (70 - 32)) 32
          (Explicit.glyph (FB := faulty_backend) (RB := Toy.raster_backend)
             toy_font_8 Toy.explicit_conf 16 3) tt ;;
        log_Fatal "LoadGlyph: sfnt: invalid glyf table").
Proof.
  assert (Hc : 32 <= 70 <= 126) by lia.
  assert (Hidx : Font_GlyphIndex (FontBackend := faulty_backend) toy_font_8 70
                 = Ok 39) by reflexivity.
  assert (Hx : 39 <> 0) by discriminate.
  assert (Hload : Font_LoadGlyph (FontBackend := faulty_backend) toy_font_8 39
                    (fixed.I 20) = Err "sfnt: invalid glyf table")
    by reflexivity.
  split; [exact Hc |]. split; [exact Hidx |]. split; [exact Hx |].
  split; [exact Hload |].
  exact (proj1 (X20_outline_error_is_fatal
                  (FB := faulty_backend) (RB := Toy.raster_backend)
                  toy_font_8 70 39 _ Hc Hidx Hx)
           Toy.explicit_conf 16 3 Hload).
Defined.

Lemma X21_unsupported_command_ends_the_glyph_witness :
  32 <= 126 <= 126
  /\ Font_GlyphIndex (FontBackend := Toy.font_backend)
       {| Toy.line_height := 8; Toy.tilde_op := 4; Toy.unmapped := [] |} 126
     = Ok 95
  /\ Explicit.glyph (FB := Toy.font_backend) (RB := Toy.raster_backend)
       {| Toy.line_height := 8; Toy.tilde_op := 4; Toy.unmapped := [] |}
       Toy.explicit_conf 16 3 126 tt
     = ([Stderr "OP: 4"], Exit 1).
Proof.
  assert (Hc : 32 <= 126 <= 126) by lia.
  assert (Hidx : Font_GlyphIndex (FontBackend := Toy.font_backend)
                   {| Toy.line_height := 8; Toy.tilde_op := 4;
                      Toy.unmapped := [] |} 126 = Ok 95) by reflexivity.
  assert (Hx : 95 <> 0) by discriminate.
  split; [exact Hc |]. split; [exact Hidx |].
  refine (proj1 (X21_unsupported_command_ends_the_glyph
                   (FB := Toy.font_backend) (RB := Toy.raster_backend)
                   _ Toy.explicit_conf 16 3 126 95 _
                   {| sfnt.Op := 4; sfnt.Args0 := Toy.pt 448 128;
                      sfnt.Args1 := Toy.pt 0 0; sfnt.Args2 := Toy.pt 0 0 |}
                   tt Hc Hidx Hx _ _)).
  - reflexivity.
  - reflexivity.
Defined.

Lemma X23_variants_agree_on_supported_outlines_witness :
  first_unsupported
    [ {| sfnt.Op := sfnt.SegmentOpMoveTo; sfnt.Args0 := Toy.pt 64 64;
         sfnt.Args1 := Toy.pt 0 0; sfnt.Args2 := Toy.pt 0 0 |};
      {| sfnt.Op := sfnt.SegmentOpCubeTo; sfnt.Args0 := Toy.pt 64 64;
         sfnt.Args1 := Toy.pt 128 64; sfnt.Args2 := Toy.pt 128 128 |} ] = None
  /\ rangeM
       [ {| sfnt.Op := sfnt.SegmentOpMoveTo; sfnt.Args0 := Toy.pt 64 64;
            sfnt.Args1 := Toy.pt 0 0; sfnt.Args2 := Toy.pt 0 0 |};
         {| sfnt.Op := sfnt.SegmentOpCubeTo; sfnt.Args0 := Toy.pt 64 64;
            sfnt.Args1 := Toy.pt 128 64; sfnt.Args2 := Toy.pt 128 128 |} ]
       (Explicit.draw_segment (RB := Toy.raster_backend) 0 0)
       (NewRasterizer (RasterBackend := Toy.raster_backend) 16 3)
     = ([], Return {| Toy.size := (16, 3); Toy.marks := [(2, 2); (1, 1)] |}).
Proof.
  assert (Hnone : first_unsupported
            [ {| sfnt.Op := sfnt.SegmentOpMoveTo; sfnt.Args0 := Toy.pt 64 64;
                 sfnt.Args1 := Toy.pt 0 0; sfnt.Args2 := Toy.pt 0 0 |};
              {| sfnt.Op := sfnt.SegmentOpCubeTo; sfnt.Args0 := Toy.pt 64 64;
                 sfnt.Args1 := Toy.pt 128 64; sfnt.Args2 := Toy.pt 128 128 |} ]
            = None) by reflexivity.
  split; [exact Hnone |].
  rewrite (X23_variants_agree_on_supported_outlines
             (RB := Toy.raster_backend) 0 0 _ _ Hnone).
  reflexivity.
Defined.

(** ** Bounds on the cell height of the metrics variant *)

(** X24: for a font whose metrics height rounds up to at least one pixel,
    the default heuristic (negative [reducedHeight]) gives a cell of at
    least one row and never more rows than the metrics height; an explicit
    reduction gives no row at all as soon as it reaches the metrics
    height. *)
Theorem X24_cell_height_bounds (metricsHeight reduceHeight : Z) :
  GoInt.in_int reduceHeight ->
  1 <= fixed.Ceil metricsHeight ->
  (reduceHeight < 0 ->
   1 <= Derived.cell_height metricsHeight reduceHeight
     <= fixed.Ceil metricsHeight)
  /\ (0 <= reduceHeight ->
      Derived.cell_height metricsHeight reduceHeight
        <= fixed.Ceil metricsHeight
      /\ (Derived.cell_height metricsHeight reduceHeight <= 0
          <-> fixed.Ceil metricsHeight <= reduceHeight)).
Proof.
  intros HR Hh. pose proof (Ceil_range metricsHeight) as Hc.
  change (2 ^ 25) with 33554432 in Hc.
  unfold GoInt.in_int in HR. change (2 ^ 63) with 9223372036854775808 in HR.
  assert (Hsmall : forall z, - 9223372036854775808 <= z < 9223372036854775808 ->
                             GoInt.int z = z).
  { intros z Hz. apply int_small. unfold GoInt.in_int.
    change (2 ^ 63) with 9223372036854775808. exact Hz. }
  unfold Derived.cell_height. split; intros Hsign.
  - destruct (Z.leb_spec 0 reduceHeight); [lia |].
    rewrite (Hsmall (fixed.Ceil metricsHeight * 3)) by lia.
    rewrite Z.quot_div_nonneg by lia.
    rewrite (Hsmall (fixed.Ceil metricsHeight * 3 / 4)) by lia.
    rewrite Hsmall by lia. lia.
  - destruct (Z.leb_spec 0 reduceHeight); [| lia].
    rewrite Hsmall by lia. lia.
Qed.

Lemma X24_cell_height_bounds_witness :
  GoInt.in_int (-1) /\ 1 <= fixed.Ceil (24 * 64)
  /\ 1 <= Derived.cell_height (24 * 64) (-1) <= fixed.Ceil (24 * 64).
Proof.
  assert (HR : GoInt.in_int (-1)) by (unfold GoInt.in_int; lia).
  assert (Hh : 1 <= fixed.Ceil (24 * 64)) by (vm_compute; discriminate).
  split; [exact HR |]. split; [exact Hh |].
  apply (proj1 (X24_cell_height_bounds (24 * 64) (-1) HR Hh)). lia.
Defined.

Lemma X9_output_is_whole_blocks_witness :
  exists images,
    stdout_of
      (fst (Explicit.main (FB := Toy.font_backend) (RB := Toy.raster_backend)
              (Toy.fs Toy.font_without_d) [] None Toy.explicit_conf))
    = (table_header +++ nl)
        +++ cat (map (glyph_block 16 3) (combine codepoints images))
    /\ (List.length images <= 95)%nat.
Proof.
  destruct (X9_output_is_whole_blocks
              (FB := Toy.font_backend) (RB := Toy.raster_backend)
              (Toy.fs Toy.font_without_d) [] None Toy.explicit_conf)
    as [Hempty | (images & Hout & Hlen & _)].
  - vm_compute in Hempty. discriminate Hempty.
  - exists images. split; [| exact Hlen].
    rewrite Hout.
    replace (snd (Explicit.main (FB := Toy.font_backend)
                    (RB := Toy.raster_backend)
                    (Toy.fs Toy.font_without_d) [] None Toy.explicit_conf))
      with (@Exit unit 1) by (vm_compute; reflexivity).
    rewrite append_nil_r. reflexivity.
Defined.
